(** * The editing-state engine of the 3D editor (src/src/ThreeDEditor.jsx)

    A shallow embedding of the editor component's state and handlers:
    the object registry, selection, the undo history, numeric property
    edits, grid snapping, the shape switch of [addPrimitive] and the
    GLB import callback.

    Conventions of the model.
    - JavaScript numbers are [num]: a rational, NaN or a signed infinity.
      A result keeps its exact value while that is within the range of
      the doubles and is an infinity beyond it (overflow); rounding to
      the nearest double is not modelled, and [-0] is [0].
    - JavaScript objects that are mutated in place and shared between
      [objects], [selectedObject] and [selectedObjects] (the
      [{id, name, type, mesh}] records, the three.js meshes and their
      materials) live in a store and are referred to by location.
    - Every handler runs on the committed React state: the closure
      variables of a handler ([objects], [selectedObject], ...) are the
      fields of the state it is applied to, and the state updates it
      queues are applied when it returns.
    - [Date.now()] and [Math.random()] are read from a [World]. *)

From Stdlib Require Import Ascii String QArith Qpower Qround Qabs Lqa.
From stdpp Require Import gmap strings list pretty.

(** ** JavaScript values *)

Module Js.

(** A JavaScript number. *)
Inductive num :=
  | NaN
  | Inf (negative : bool)
  | Fin (q : Q).

(** The values the editor's controls hand to [updateObjectProperty]. *)
Inductive value :=
  | VStr (s : string)
  | VNum (n : num)
  | VBool (b : bool).

Definition Qzero (q : Q) : bool := (Qnum q =? 0)%Z.

(** ToBoolean on numbers: NaN and zero are falsy. *)
Definition truthy_num (n : num) : bool :=
  match n with
  | NaN => false
  | Inf _ => true
  | Fin q => negb (Qzero q)
  end.

(** [a || b] on numbers. *)
Definition or_num (a b : num) : num := if truthy_num a then a else b.


(** *** The range of the doubles *)

(** An exact value whose magnitude reaches [2^1024 - 2^970], half a
    unit in the last place above the largest double, rounds to an
    infinity; one of magnitude [2^-1075] or less, half the smallest
    double, rounds to zero. *)
Definition overflow_threshold : Q := Eval vm_compute in inject_Z (2 ^ 1024 - 2 ^ 970).
Definition underflow_threshold : Q := Eval vm_compute in (1 # 2 ^ 1075).

Definition Qneg (q : Q) : bool := (Qnum q <? 0)%Z.

(** The result of an arithmetic operation whose exact value is [q]. *)
Definition finite (q : Q) : num :=
  if Qlt_le_dec (Qabs q) overflow_threshold then Fin q else Inf (Qneg q).

(** The number a decimal literal of exact value [q] denotes. *)
Definition literal (q : Q) : num :=
  if Qlt_le_dec underflow_threshold (Qabs q) then finite q else Fin 0.

(** *** parseFloat *)

Definition is_ws (c : ascii) : bool :=
  let n := nat_of_ascii c in
  (n =? 32)%nat || ((9 <=? n)%nat && (n <=? 13)%nat).

Fixpoint skip_ws (s : string) : string :=
  match s with
  | String c r => if is_ws c then skip_ws r else s
  | EmptyString => s
  end.

Definition digit_of (c : ascii) : option Z :=
  let n := nat_of_ascii c in
  if ((48 <=? n)%nat && (n <=? 57)%nat)%bool then Some (Z.of_nat (n - 48)) else None.

(** The longest run of decimal digits at the head of [s], and the rest. *)
Fixpoint take_digits (s : string) : list Z * string :=
  match s with
  | String c r =>
      match digit_of c with
      | Some d => let '(ds, rest) := take_digits r in (d :: ds, rest)
      | None => ([], s)
      end
  | EmptyString => ([], s)
  end.

Definition digits_value (ds : list Z) : Z :=
  fold_left (fun acc d => (10 * acc + d)%Z) ds 0%Z.

(** ExponentPart: [e] or [E], an optional sign and at least one digit;
    anything else is not part of the literal. *)
Definition parse_exponent (s : string) : Z :=
  match s with
  | String c r =>
      if (Ascii.eqb c "e" || Ascii.eqb c "E")%bool then
        let '(neg, r') :=
          match r with
          | String "-" t => (true, t)
          | String "+" t => (false, t)
          | _ => (false, r)
          end in
        match take_digits r' with
        | ([], _) => 0%Z
        | (ds, _) => if neg then (- digits_value ds)%Z else digits_value ds
        end
      else 0%Z
  | EmptyString => 0%Z
  end.

Definition pow10 (e : Z) : Q :=
  match e with
  | Z0 => 1
  | Zpos p => inject_Z (10 ^ Zpos p)
  | Zneg p => 1 # (10 ^ p)
  end.

(** StrUnsignedDecimalLiteral at the head of [s]. *)
Definition parse_unsigned (s : string) : option num :=
  if String.prefix "Infinity" s then Some (Inf false)
  else
    let '(ip, r1) := take_digits s in
    let '(fp, r2) :=
      match r1 with
      | String "." r => take_digits r
      | _ => ([], r1)
      end in
    match ip, fp with
    | [], [] => None
    | _, _ =>
        let mant := digits_value (ip ++ fp) in
        let e := (parse_exponent r2 - Z.of_nat (length fp))%Z in
        Some (literal (inject_Z mant * pow10 e))
    end.

Definition negate (n : num) : num :=
  match n with
  | NaN => NaN
  | Inf b => Inf (negb b)
  | Fin q => Fin (- q)
  end.

(** [parseFloat] on a string: leading white space is skipped, the
    longest prefix that is a decimal literal is read, and NaN is the
    result when there is none. Strings are taken to be ASCII: of the
    white space of the language only the ASCII characters are known. *)
Definition parseFloat_string (s : string) : num :=
  let t := skip_ws s in
  let '(neg, body) :=
    match t with
    | String "-" r => (true, r)
    | String "+" r => (false, r)
    | _ => (false, t)
    end in
  match parse_unsigned body with
  | Some n => if neg then negate n else n
  | None => NaN
  end.

(** [parseFloat(v)] converts [v] to a string first. A number prints to
    a literal that reads back as itself; [true] and [false] are not
    numeric. *)
Definition parseFloat (v : value) : num :=
  match v with
  | VStr s => parseFloat_string s
  | VNum n => n
  | VBool _ => NaN
  end.

(** *** Arithmetic used by the editor *)

Definition add (a b : num) : num :=
  match a, b with
  | NaN, _ | _, NaN => NaN
  | Inf x, Inf y => if Bool.eqb x y then Inf x else NaN
  | Inf x, Fin _ | Fin _, Inf x => Inf x
  | Fin p, Fin q => finite (p + q)
  end.

Definition mul (a b : num) : num :=
  match a, b with
  | NaN, _ | _, NaN => NaN
  | Inf x, Inf y => Inf (xorb x y)
  | Inf x, Fin q | Fin q, Inf x => if Qzero q then NaN else Inf (xorb x (Qneg q))
  | Fin p, Fin q => finite (p * q)
  end.

Definition div (a b : num) : num :=
  match a, b with
  | NaN, _ | _, NaN => NaN
  | Inf _, Inf _ => NaN
  | Inf x, Fin q => Inf (xorb x (Qneg q))
  | Fin _, Inf _ => Fin 0
  | Fin p, Fin q =>
      if Qzero q then (if Qzero p then NaN else Inf (Qneg p))
      else finite (p / q)
  end.

(** [Math.round]: the integer nearest to the argument, halves going up. *)
Definition round (a : num) : num :=
  match a with
  | Fin q => Fin (inject_Z (Qfloor (q + (1 # 2))))
  | _ => a
  end.

(** [a <= b]; every comparison with NaN is false. *)
Definition le (a b : num) : bool :=
  match a, b with
  | NaN, _ | _, NaN => false
  | Inf x, Inf y => implb y x
  | Inf x, Fin _ => x
  | Fin _, Inf y => negb y
  | Fin p, Fin q => if Qlt_le_dec q p then false else true
  end.

(** [a < b]. *)
Definition lt (a b : num) : bool :=
  match a, b with
  | NaN, _ | _, NaN => false
  | Inf x, Inf y => x && negb y
  | Inf x, Fin _ => x
  | Fin _, Inf y => negb y
  | Fin p, Fin q => if Qlt_le_dec p q then true else false
  end.

End Js.

Import Js.

(** ** three.js objects *)

Module Three.

Record Vector3 := mkVector3 { x : num; y : num; z : num }.

(** An Euler angle. three.js keeps radians; the editor only ever stores
    [degToRad] of a number of degrees or a fixed fraction of [Math.PI],
    so an angle is kept as the number of degrees [d] that stands for
    [d * Math.PI / 180]. *)
Inductive Angle := Degrees (d : num).

Definition degToRad (d : num) : Angle := Degrees d.

Record Euler := mkEuler { ex : Angle; ey : Angle; ez : Angle }.

Definition set_x (v : num) (p : Vector3) : Vector3 := mkVector3 v (y p) (z p).
Definition set_y (v : num) (p : Vector3) : Vector3 := mkVector3 (x p) v (z p).
Definition set_z (v : num) (p : Vector3) : Vector3 := mkVector3 (x p) (y p) v.
Definition set_ex (a : Angle) (e : Euler) : Euler := mkEuler a (ey e) (ez e).
Definition set_ey (a : Angle) (e : Euler) : Euler := mkEuler (ex e) a (ez e).
Definition set_ez (a : Angle) (e : Euler) : Euler := mkEuler (ex e) (ey e) a.

(** A geometry, by the constructor call that makes it. [Primitive] is
    [new THREE.<cls>(args)] with literal arguments and nothing else;
    [Built] is a geometry of class [cls] whose curve, profile or vertex
    data is computed by the case [kind] of the shape switch. *)
Inductive Geometry :=
  | Primitive (cls : string) (args : list Q)
  | Built (cls : string) (kind : string).

(** A [MeshStandardMaterial]. [color] and [emissive] are the values
    [getHex()] reads. An [emissive] colour is always present on this
    class, so the test [if (material.emissive)] of the source always
    passes. *)
Record Material := mkMaterial {
  color : Z;
  metalness : num;
  roughness : num;
  transparent : bool;
  opacity : num;
  emissive : Z;
  emissiveIntensity : num;
  wireframe : value
}.

Definition set_color (v : Z) (r : Material) : Material :=
  {| color := v; metalness := metalness r; roughness := roughness r; transparent := transparent r; opacity := opacity r; emissive := emissive r; emissiveIntensity := emissiveIntensity r; wireframe := wireframe r |}.
Definition set_metalness (v : num) (r : Material) : Material :=
  {| color := color r; metalness := v; roughness := roughness r; transparent := transparent r; opacity := opacity r; emissive := emissive r; emissiveIntensity := emissiveIntensity r; wireframe := wireframe r |}.
Definition set_roughness (v : num) (r : Material) : Material :=
  {| color := color r; metalness := metalness r; roughness := v; transparent := transparent r; opacity := opacity r; emissive := emissive r; emissiveIntensity := emissiveIntensity r; wireframe := wireframe r |}.
Definition set_transparent (v : bool) (r : Material) : Material :=
  {| color := color r; metalness := metalness r; roughness := roughness r; transparent := v; opacity := opacity r; emissive := emissive r; emissiveIntensity := emissiveIntensity r; wireframe := wireframe r |}.
Definition set_opacity (v : num) (r : Material) : Material :=
  {| color := color r; metalness := metalness r; roughness := roughness r; transparent := transparent r; opacity := v; emissive := emissive r; emissiveIntensity := emissiveIntensity r; wireframe := wireframe r |}.
Definition set_emissive (v : Z) (r : Material) : Material :=
  {| color := color r; metalness := metalness r; roughness := roughness r; transparent := transparent r; opacity := opacity r; emissive := v; emissiveIntensity := emissiveIntensity r; wireframe := wireframe r |}.
Definition set_emissiveIntensity (v : num) (r : Material) : Material :=
  {| color := color r; metalness := metalness r; roughness := roughness r; transparent := transparent r; opacity := opacity r; emissive := emissive r; emissiveIntensity := v; wireframe := wireframe r |}.
Definition set_wireframe (v : value) (r : Material) : Material :=
  {| color := color r; metalness := metalness r; roughness := roughness r; transparent := transparent r; opacity := opacity r; emissive := emissive r; emissiveIntensity := emissiveIntensity r; wireframe := v |}.

(** [new THREE.MeshStandardMaterial()]: the defaults of three.js. *)
Definition MeshStandardMaterial : Material :=
  {| color := 0xffffff; metalness := Fin 0; roughness := Fin 1;
     transparent := false; opacity := Fin 1; emissive := 0x000000;
     emissiveIntensity := Fin 1; wireframe := VBool false |}.

(** A [Mesh]; [material] is the location of its material object and
    [objectId] is [userData.objectId]. *)
Record Mesh := mkMesh {
  geometry : Geometry;
  material : nat;
  position : Vector3;
  rotation : Euler;
  scale : Vector3;
  visible : bool;
  castShadow : bool;
  receiveShadow : bool;
  objectId : option string
}.

Definition set_geometry (v : Geometry) (r : Mesh) : Mesh :=
  {| geometry := v; material := material r; position := position r; rotation := rotation r; scale := scale r; visible := visible r; castShadow := castShadow r; receiveShadow := receiveShadow r; objectId := objectId r |}.
Definition set_material (v : nat) (r : Mesh) : Mesh :=
  {| geometry := geometry r; material := v; position := position r; rotation := rotation r; scale := scale r; visible := visible r; castShadow := castShadow r; receiveShadow := receiveShadow r; objectId := objectId r |}.
Definition set_position (v : Vector3) (r : Mesh) : Mesh :=
  {| geometry := geometry r; material := material r; position := v; rotation := rotation r; scale := scale r; visible := visible r; castShadow := castShadow r; receiveShadow := receiveShadow r; objectId := objectId r |}.
Definition set_rotation (v : Euler) (r : Mesh) : Mesh :=
  {| geometry := geometry r; material := material r; position := position r; rotation := v; scale := scale r; visible := visible r; castShadow := castShadow r; receiveShadow := receiveShadow r; objectId := objectId r |}.
Definition set_scale (v : Vector3) (r : Mesh) : Mesh :=
  {| geometry := geometry r; material := material r; position := position r; rotation := rotation r; scale := v; visible := visible r; castShadow := castShadow r; receiveShadow := receiveShadow r; objectId := objectId r |}.
Definition set_visible (v : bool) (r : Mesh) : Mesh :=
  {| geometry := geometry r; material := material r; position := position r; rotation := rotation r; scale := scale r; visible := v; castShadow := castShadow r; receiveShadow := receiveShadow r; objectId := objectId r |}.
Definition set_castShadow (v : bool) (r : Mesh) : Mesh :=
  {| geometry := geometry r; material := material r; position := position r; rotation := rotation r; scale := scale r; visible := visible r; castShadow := v; receiveShadow := receiveShadow r; objectId := objectId r |}.
Definition set_receiveShadow (v : bool) (r : Mesh) : Mesh :=
  {| geometry := geometry r; material := material r; position := position r; rotation := rotation r; scale := scale r; visible := visible r; castShadow := castShadow r; receiveShadow := v; objectId := objectId r |}.
Definition set_objectId (v : option string) (r : Mesh) : Mesh :=
  {| geometry := geometry r; material := material r; position := position r; rotation := rotation r; scale := scale r; visible := visible r; castShadow := castShadow r; receiveShadow := receiveShadow r; objectId := v |}.

(** [new THREE.Mesh(geometry, material)]. *)
Definition new_Mesh (g : Geometry) (m : nat) : Mesh :=
  {| geometry := g; material := m;
     position := mkVector3 (Fin 0) (Fin 0) (Fin 0);
     rotation := mkEuler (Degrees (Fin 0)) (Degrees (Fin 0)) (Degrees (Fin 0));
     scale := mkVector3 (Fin 1) (Fin 1) (Fin 1);
     visible := true; castShadow := false; receiveShadow := false;
     objectId := None |}.

(** [Color.setHex]: the low 24 bits of the floored number. *)
Definition setHex (n : num) : Z :=
  match n with
  | Fin q => Z.land (Qfloor q) 0xffffff
  | _ => 0
  end.

End Three.

(** ** The world outside the component *)

(** What the handlers read from their environment. The [k]-th object
    creation of a session reads [Date_now k] from [Date.now()],
    [Math_random_36 k] from [Math.random().toString(36)] and, in
    [addPrimitive], the colour [random_colour k] that
    [setHSL(Math.random(), 0.7, 0.5)] produces. [Color_setStyle] is the
    style parser of [THREE.Color] and [Number_toString] the printing of
    a number in a template literal. *)
Record World := mkWorld {
  Date_now : nat -> N;
  Math_random_36 : nat -> string;
  random_colour : nat -> Z;
  Color_setStyle : Z -> string -> Z;
  Number_toString : num -> string
}.

(** ** The editor *)

(** The [{id, name, type, mesh}] object of the registry. *)
Record SceneObject := mkSceneObject {
  id : string;
  name : value;
  type : string;
  mesh : nat
}.

(** One entry of an undo snapshot, as [saveUndoState] builds it. *)
Record Saved := mkSaved {
  saved_id : string;
  saved_name : value;
  saved_type : string;
  saved_position : Three.Vector3;
  saved_rotation : Three.Euler;
  saved_scale : Three.Vector3;
  saved_color : Z;
  saved_metalness : num;
  saved_roughness : num;
  saved_visible : bool
}.

(** The component's state: the store of shared objects ([records],
    [meshes], [materials], with [next] the first unused location), the
    three.js scene and transform gizmo, and the React state variables.
    [calls] counts the object creations so far; [alerts] collects the
    texts passed to [alert]. *)
Record State := mkState {
  records : gmap nat SceneObject;
  meshes : gmap nat Three.Mesh;
  materials : gmap nat Three.Material;
  next : nat;
  scene : list nat;
  attached : option nat;
  translationSnap : option num;
  rotationSnap : option Three.Angle;
  scaleSnap : option num;
  objects : list nat;
  selectedObject : option nat;
  selectedObjects : list nat;
  undoStack : list (list Saved);
  objectCounter : nat;
  snapEnabled : bool;
  snapSize : num;
  alerts : list string;
  calls : nat
}.

Definition set_records (v : gmap nat SceneObject) (r : State) : State :=
  {| records := v; meshes := meshes r; materials := materials r; next := next r; scene := scene r; attached := attached r; translationSnap := translationSnap r; rotationSnap := rotationSnap r; scaleSnap := scaleSnap r; objects := objects r; selectedObject := selectedObject r; selectedObjects := selectedObjects r; undoStack := undoStack r; objectCounter := objectCounter r; snapEnabled := snapEnabled r; snapSize := snapSize r; alerts := alerts r; calls := calls r |}.
Definition set_meshes (v : gmap nat Three.Mesh) (r : State) : State :=
  {| records := records r; meshes := v; materials := materials r; next := next r; scene := scene r; attached := attached r; translationSnap := translationSnap r; rotationSnap := rotationSnap r; scaleSnap := scaleSnap r; objects := objects r; selectedObject := selectedObject r; selectedObjects := selectedObjects r; undoStack := undoStack r; objectCounter := objectCounter r; snapEnabled := snapEnabled r; snapSize := snapSize r; alerts := alerts r; calls := calls r |}.
Definition set_materials (v : gmap nat Three.Material) (r : State) : State :=
  {| records := records r; meshes := meshes r; materials := v; next := next r; scene := scene r; attached := attached r; translationSnap := translationSnap r; rotationSnap := rotationSnap r; scaleSnap := scaleSnap r; objects := objects r; selectedObject := selectedObject r; selectedObjects := selectedObjects r; undoStack := undoStack r; objectCounter := objectCounter r; snapEnabled := snapEnabled r; snapSize := snapSize r; alerts := alerts r; calls := calls r |}.
Definition set_next (v : nat) (r : State) : State :=
  {| records := records r; meshes := meshes r; materials := materials r; next := v; scene := scene r; attached := attached r; translationSnap := translationSnap r; rotationSnap := rotationSnap r; scaleSnap := scaleSnap r; objects := objects r; selectedObject := selectedObject r; selectedObjects := selectedObjects r; undoStack := undoStack r; objectCounter := objectCounter r; snapEnabled := snapEnabled r; snapSize := snapSize r; alerts := alerts r; calls := calls r |}.
Definition set_scene (v : list nat) (r : State) : State :=
  {| records := records r; meshes := meshes r; materials := materials r; next := next r; scene := v; attached := attached r; translationSnap := translationSnap r; rotationSnap := rotationSnap r; scaleSnap := scaleSnap r; objects := objects r; selectedObject := selectedObject r; selectedObjects := selectedObjects r; undoStack := undoStack r; objectCounter := objectCounter r; snapEnabled := snapEnabled r; snapSize := snapSize r; alerts := alerts r; calls := calls r |}.
Definition set_attached (v : option nat) (r : State) : State :=
  {| records := records r; meshes := meshes r; materials := materials r; next := next r; scene := scene r; attached := v; translationSnap := translationSnap r; rotationSnap := rotationSnap r; scaleSnap := scaleSnap r; objects := objects r; selectedObject := selectedObject r; selectedObjects := selectedObjects r; undoStack := undoStack r; objectCounter := objectCounter r; snapEnabled := snapEnabled r; snapSize := snapSize r; alerts := alerts r; calls := calls r |}.
Definition set_translationSnap (v : option num) (r : State) : State :=
  {| records := records r; meshes := meshes r; materials := materials r; next := next r; scene := scene r; attached := attached r; translationSnap := v; rotationSnap := rotationSnap r; scaleSnap := scaleSnap r; objects := objects r; selectedObject := selectedObject r; selectedObjects := selectedObjects r; undoStack := undoStack r; objectCounter := objectCounter r; snapEnabled := snapEnabled r; snapSize := snapSize r; alerts := alerts r; calls := calls r |}.
Definition set_rotationSnap (v : option Three.Angle) (r : State) : State :=
  {| records := records r; meshes := meshes r; materials := materials r; next := next r; scene := scene r; attached := attached r; translationSnap := translationSnap r; rotationSnap := v; scaleSnap := scaleSnap r; objects := objects r; selectedObject := selectedObject r; selectedObjects := selectedObjects r; undoStack := undoStack r; objectCounter := objectCounter r; snapEnabled := snapEnabled r; snapSize := snapSize r; alerts := alerts r; calls := calls r |}.
Definition set_scaleSnap (v : option num) (r : State) : State :=
  {| records := records r; meshes := meshes r; materials := materials r; next := next r; scene := scene r; attached := attached r; translationSnap := translationSnap r; rotationSnap := rotationSnap r; scaleSnap := v; objects := objects r; selectedObject := selectedObject r; selectedObjects := selectedObjects r; undoStack := undoStack r; objectCounter := objectCounter r; snapEnabled := snapEnabled r; snapSize := snapSize r; alerts := alerts r; calls := calls r |}.
Definition set_objects (v : list nat) (r : State) : State :=
  {| records := records r; meshes := meshes r; materials := materials r; next := next r; scene := scene r; attached := attached r; translationSnap := translationSnap r; rotationSnap := rotationSnap r; scaleSnap := scaleSnap r; objects := v; selectedObject := selectedObject r; selectedObjects := selectedObjects r; undoStack := undoStack r; objectCounter := objectCounter r; snapEnabled := snapEnabled r; snapSize := snapSize r; alerts := alerts r; calls := calls r |}.
Definition set_selectedObject (v : option nat) (r : State) : State :=
  {| records := records r; meshes := meshes r; materials := materials r; next := next r; scene := scene r; attached := attached r; translationSnap := translationSnap r; rotationSnap := rotationSnap r; scaleSnap := scaleSnap r; objects := objects r; selectedObject := v; selectedObjects := selectedObjects r; undoStack := undoStack r; objectCounter := objectCounter r; snapEnabled := snapEnabled r; snapSize := snapSize r; alerts := alerts r; calls := calls r |}.
Definition set_selectedObjects (v : list nat) (r : State) : State :=
  {| records := records r; meshes := meshes r; materials := materials r; next := next r; scene := scene r; attached := attached r; translationSnap := translationSnap r; rotationSnap := rotationSnap r; scaleSnap := scaleSnap r; objects := objects r; selectedObject := selectedObject r; selectedObjects := v; undoStack := undoStack r; objectCounter := objectCounter r; snapEnabled := snapEnabled r; snapSize := snapSize r; alerts := alerts r; calls := calls r |}.
Definition set_undoStack (v : list (list Saved)) (r : State) : State :=
  {| records := records r; meshes := meshes r; materials := materials r; next := next r; scene := scene r; attached := attached r; translationSnap := translationSnap r; rotationSnap := rotationSnap r; scaleSnap := scaleSnap r; objects := objects r; selectedObject := selectedObject r; selectedObjects := selectedObjects r; undoStack := v; objectCounter := objectCounter r; snapEnabled := snapEnabled r; snapSize := snapSize r; alerts := alerts r; calls := calls r |}.
Definition set_objectCounter (v : nat) (r : State) : State :=
  {| records := records r; meshes := meshes r; materials := materials r; next := next r; scene := scene r; attached := attached r; translationSnap := translationSnap r; rotationSnap := rotationSnap r; scaleSnap := scaleSnap r; objects := objects r; selectedObject := selectedObject r; selectedObjects := selectedObjects r; undoStack := undoStack r; objectCounter := v; snapEnabled := snapEnabled r; snapSize := snapSize r; alerts := alerts r; calls := calls r |}.
Definition set_snapEnabled (v : bool) (r : State) : State :=
  {| records := records r; meshes := meshes r; materials := materials r; next := next r; scene := scene r; attached := attached r; translationSnap := translationSnap r; rotationSnap := rotationSnap r; scaleSnap := scaleSnap r; objects := objects r; selectedObject := selectedObject r; selectedObjects := selectedObjects r; undoStack := undoStack r; objectCounter := objectCounter r; snapEnabled := v; snapSize := snapSize r; alerts := alerts r; calls := calls r |}.
Definition set_snapSize (v : num) (r : State) : State :=
  {| records := records r; meshes := meshes r; materials := materials r; next := next r; scene := scene r; attached := attached r; translationSnap := translationSnap r; rotationSnap := rotationSnap r; scaleSnap := scaleSnap r; objects := objects r; selectedObject := selectedObject r; selectedObjects := selectedObjects r; undoStack := undoStack r; objectCounter := objectCounter r; snapEnabled := snapEnabled r; snapSize := v; alerts := alerts r; calls := calls r |}.
Definition set_alerts (v : list string) (r : State) : State :=
  {| records := records r; meshes := meshes r; materials := materials r; next := next r; scene := scene r; attached := attached r; translationSnap := translationSnap r; rotationSnap := rotationSnap r; scaleSnap := scaleSnap r; objects := objects r; selectedObject := selectedObject r; selectedObjects := selectedObjects r; undoStack := undoStack r; objectCounter := objectCounter r; snapEnabled := snapEnabled r; snapSize := snapSize r; alerts := v; calls := calls r |}.
Definition set_calls (v : nat) (r : State) : State :=
  {| records := records r; meshes := meshes r; materials := materials r; next := next r; scene := scene r; attached := attached r; translationSnap := translationSnap r; rotationSnap := rotationSnap r; scaleSnap := scaleSnap r; objects := objects r; selectedObject := selectedObject r; selectedObjects := selectedObjects r; undoStack := undoStack r; objectCounter := objectCounter r; snapEnabled := snapEnabled r; snapSize := snapSize r; alerts := alerts r; calls := v |}.

#[global] Instance SceneObject_inhabited : Inhabited SceneObject :=
  populate (mkSceneObject "" (VStr "") "" 0).
#[global] Instance Material_inhabited : Inhabited Three.Material :=
  populate Three.MeshStandardMaterial.
#[global] Instance Mesh_inhabited : Inhabited Three.Mesh :=
  populate (Three.new_Mesh (Three.Primitive "BoxGeometry" [1; 1; 1]%Q) 0).

(** The state after the component has mounted and before the default
    cube is added. *)
Definition initial : State :=
  {| records := ∅; meshes := ∅; materials := ∅; next := 0;
     scene := []; attached := None;
     translationSnap := None; rotationSnap := None; scaleSnap := None;
     objects := []; selectedObject := None; selectedObjects := [];
     undoStack := []; objectCounter := 0;
     snapEnabled := false; snapSize := Fin 0.5; alerts := []; calls := 0 |}.

(** *** Reading and writing the store *)

Definition record_of (s : State) (o : nat) : SceneObject := records s !!! o.
Definition mesh_of (s : State) (o : nat) : Three.Mesh := meshes s !!! mesh (record_of s o).
Definition material_of (s : State) (o : nat) : Three.Material :=
  materials s !!! Three.material (mesh_of s o).

Definition write_record (o : nat) (f : SceneObject -> SceneObject) (s : State) : State :=
  set_records (<[o := f (records s !!! o)]> (records s)) s.
Definition write_mesh (m : nat) (f : Three.Mesh -> Three.Mesh) (s : State) : State :=
  set_meshes (<[m := f (meshes s !!! m)]> (meshes s)) s.
Definition write_material (m : nat) (f : Three.Material -> Three.Material) (s : State) : State :=
  set_materials (<[m := f (materials s !!! m)]> (materials s)) s.

Definition alloc_record (r : SceneObject) (s : State) : nat * State :=
  (next s, set_next (S (next s)) (set_records (<[next s := r]> (records s)) s)).
Definition alloc_mesh (m : Three.Mesh) (s : State) : nat * State :=
  (next s, set_next (S (next s)) (set_meshes (<[next s := m]> (meshes s)) s)).
Definition alloc_material (m : Three.Material) (s : State) : nat * State :=
  (next s, set_next (S (next s)) (set_materials (<[next s := m]> (materials s)) s)).

(** [scene.add(mesh)] and [scene.remove(mesh)]. *)
Definition scene_add (m : nat) (s : State) : State := set_scene (scene s ++ [m]) s.
Definition scene_remove (m : nat) (s : State) : State :=
  set_scene (filter (fun c => c ≠ m) (scene s)) s.

(** [o.mesh.material.emissive.setHex(hex)]. *)
Definition setEmissive (hex : Z) (o : nat) (s : State) : State :=
  write_material (Three.material (mesh_of s o)) (Three.set_emissive hex) s.

(** [list.forEach(o => body o)]. *)
Definition forEach (body : nat -> State -> State) (l : list nat) (s : State) : State :=
  foldl (fun st o => body o st) s l.

(** *** generateId *)

(** [`obj_${Date.now()}_${Math.random().toString(36).substr(2, 9)}`] at
    the [k]-th creation. *)
Definition generateId (w : World) (k : nat) : string :=
  "obj_" +:+ pretty (Date_now w k) +:+ "_" +:+ String.substring 2 9 (Math_random_36 w k).

(** *** saveUndoState *)

Definition capture (s : State) (o : nat) : Saved :=
  {| saved_id := id (record_of s o);
     saved_name := name (record_of s o);
     saved_type := type (record_of s o);
     saved_position := Three.position (mesh_of s o);
     saved_rotation := Three.rotation (mesh_of s o);
     saved_scale := Three.scale (mesh_of s o);
     saved_color := Three.color (material_of s o);
     saved_metalness := Three.metalness (material_of s o);
     saved_roughness := Three.roughness (material_of s o);
     saved_visible := Three.visible (mesh_of s o) |}.

(** [a.slice(-n)] on an array longer than [n]; [a.slice(0, -1)]. *)
Definition slice_last (n : nat) {A} (a : list A) : list A := drop (length a - n) a.
Definition slice_but_last {A} (a : list A) : list A := take (length a - 1) a.

Definition push_undo (state : list Saved) (prev : list (list Saved)) : list (list Saved) :=
  let newStack := prev ++ [state] in
  if (20 <? length newStack)%nat then slice_last 20 newStack else newStack.

Definition saveUndoState (s : State) : State :=
  let state := map (capture s) (objects s) in
  set_undoStack (push_undo state (undoStack s)) s.

(** *** The shape switch of addPrimitive *)

Definition shapes : list (string * (Three.Geometry * string)) :=
  [
    ("cube", (Three.Primitive "BoxGeometry" [1; 1; 1], "Cube"));
    ("sphere", (Three.Primitive "SphereGeometry" [0.5; 32; 32], "Sphere"));
    ("cylinder", (Three.Primitive "CylinderGeometry" [0.5; 0.5; 1; 32], "Cylinder"));
    ("cone", (Three.Primitive "ConeGeometry" [0.5; 1; 32], "Cone"));
    ("torus", (Three.Primitive "TorusGeometry" [0.5; 0.2; 16; 100], "Torus"));
    ("plane", (Three.Primitive "PlaneGeometry" [2; 2], "Plane"));
    ("torusknot", (Three.Primitive "TorusKnotGeometry" [0.4; 0.15; 100; 16], "TorusKnot"));
    ("tetrahedron", (Three.Primitive "TetrahedronGeometry" [0.6], "Tetrahedron"));
    ("octahedron", (Three.Primitive "OctahedronGeometry" [0.5], "Octahedron"));
    ("dodecahedron", (Three.Primitive "DodecahedronGeometry" [0.5], "Dodecahedron"));
    ("icosahedron", (Three.Primitive "IcosahedronGeometry" [0.5], "Icosahedron"));
    ("ring", (Three.Primitive "RingGeometry" [0.3; 0.6; 32], "Ring"));
    ("capsule", (Three.Primitive "CapsuleGeometry" [0.3; 0.6; 8; 16], "Capsule"));
    ("heart", (Three.Built "ExtrudeGeometry" "heart", "Heart"));
    ("star3d", (Three.Built "LatheGeometry" "star3d", "Star3D"));
    ("pyramid", (Three.Primitive "ConeGeometry" [0.5; 1; 4], "Pyramid"));
    ("prism", (Three.Primitive "CylinderGeometry" [0.5; 0.5; 1; 3], "Prism"));
    ("tube", (Three.Built "TubeGeometry" "tube", "Tube"));
    ("spring", (Three.Built "TubeGeometry" "spring", "Spring"));
    ("arrow", (Three.Built "ExtrudeGeometry" "arrow", "Arrow"));
    ("gear", (Three.Built "ExtrudeGeometry" "gear", "Gear"));
    ("hemisphere", (Three.Built "SphereGeometry" "hemisphere", "Hemisphere"));
    ("hexagonprism", (Three.Primitive "CylinderGeometry" [0.5; 0.5; 1; 6], "HexagonPrism"));
    ("octagonprism", (Three.Primitive "CylinderGeometry" [0.5; 0.5; 1; 8], "OctagonPrism"));
    ("diamond", (Three.Built "ConeGeometry" "diamond", "Diamond"));
    ("crystal", (Three.Primitive "OctahedronGeometry" [0.5; 0], "Crystal"));
    ("egg", (Three.Built "LatheGeometry" "egg", "Egg"));
    ("vase", (Three.Built "LatheGeometry" "vase", "Vase"));
    ("bowl", (Three.Built "LatheGeometry" "bowl", "Bowl"));
    ("goblet", (Three.Built "LatheGeometry" "goblet", "Goblet"));
    ("cross", (Three.Built "ExtrudeGeometry" "cross", "Cross"));
    ("moon", (Three.Built "ExtrudeGeometry" "moon", "Moon"));
    ("lightning", (Three.Built "ExtrudeGeometry" "lightning", "Lightning"));
    ("mushroom", (Three.Built "LatheGeometry" "mushroom", "Mushroom"));
    ("leaf", (Three.Built "ExtrudeGeometry" "leaf", "Leaf"));
    ("drop", (Three.Built "LatheGeometry" "drop", "Drop"));
    ("knot", (Three.Primitive "TorusKnotGeometry" [0.35; 0.1; 100; 16; 3; 2], "Knot"));
    ("helix", (Three.Built "TubeGeometry" "helix", "Helix"));
    ("mobius", (Three.Built "TubeGeometry" "mobius", "Mobius"));
    ("ellipsoid", (Three.Primitive "SphereGeometry" [0.5; 32; 32], "Ellipsoid"));
    ("roundedcube", (Three.Built "BoxGeometry" "roundedcube", "RoundedCube"));
    ("squarepyramid", (Three.Primitive "ConeGeometry" [0.5; 1; 4], "SquarePyramid"));
    ("pentagonpyramid", (Three.Primitive "ConeGeometry" [0.5; 1; 5], "PentagonPyramid"));
    ("hexagonpyramid", (Three.Primitive "ConeGeometry" [0.5; 1; 6], "HexagonPyramid"));
    ("pentagonprism", (Three.Primitive "CylinderGeometry" [0.5; 0.5; 1; 5], "PentagonPrism"));
    ("decagonprism", (Three.Primitive "CylinderGeometry" [0.5; 0.5; 1; 10], "DecagonPrism"));
    ("truncatedcone", (Three.Primitive "CylinderGeometry" [0.3; 0.5; 1; 32], "TruncatedCone"));
    ("cuboctahedron", (Three.Primitive "IcosahedronGeometry" [0.5; 0], "Cuboctahedron"));
    ("truncatedtetrahedron", (Three.Primitive "TetrahedronGeometry" [0.6; 1], "TruncatedTetra"));
    ("truncatedicosahedron", (Three.Primitive "IcosahedronGeometry" [0.5; 1], "SoccerBall"));
    ("stellatedoctahedron", (Three.Primitive "OctahedronGeometry" [0.5; 0], "StellatedOcta"));
    ("parametricwave", (Three.Built "createParametricGeometry" "parametricwave", "WaveSurface"));
    ("parametricspiral", (Three.Built "createParametricGeometry" "parametricspiral", "SpiralSurface"));
    ("parametricsaddle", (Three.Built "createParametricGeometry" "parametricsaddle", "SaddleSurface"));
    ("klein", (Three.Built "createParametricGeometry" "klein", "KleinBottle"));
    ("sweepstar", (Three.Built "TubeGeometry" "sweepstar", "SweepStar"));
    ("sweepcircle", (Three.Built "TubeGeometry" "sweepcircle", "SweepCircle"));
    ("lathestar", (Three.Built "LatheGeometry" "lathestar", "LatheStar"));
    ("latheheart", (Three.Built "LatheGeometry" "latheheart", "LatheHeart"));
    ("trefoil", (Three.Built "TubeGeometry" "trefoil", "Trefoil"));
    ("cinquefoil", (Three.Built "TubeGeometry" "cinquefoil", "Cinquefoil"));
    ("shell", (Three.Built "TubeGeometry" "shell", "Shell"));
    ("horn", (Three.Built "LatheGeometry" "horn", "Horn"));
    ("bottle", (Three.Built "LatheGeometry" "bottle", "Bottle"));
    ("funnel", (Three.Built "LatheGeometry" "funnel", "Funnel"));
    ("bell", (Three.Built "LatheGeometry" "bell", "Bell"));
    ("hourglass", (Three.Built "LatheGeometry" "hourglass", "Hourglass"));
    ("pillar", (Three.Built "LatheGeometry" "pillar", "Pillar"));
    ("ufo", (Three.Built "LatheGeometry" "ufo", "UFO"));
    ("lens", (Three.Built "LatheGeometry" "lens", "Lens"));
    ("barrel", (Three.Built "LatheGeometry" "barrel", "Barrel"));
    ("spike", (Three.Primitive "ConeGeometry" [0.15; 1; 8], "Spike"));
    ("wedge", (Three.Built "ExtrudeGeometry" "wedge", "Wedge"));
    ("ramp", (Three.Built "ExtrudeGeometry" "ramp", "Ramp"));
    ("arch", (Three.Built "ExtrudeGeometry" "arch", "Arch"));
    ("lshape", (Three.Built "ExtrudeGeometry" "lshape", "LShape"));
    ("tshape", (Three.Built "ExtrudeGeometry" "tshape", "TShape"));
    ("hshape", (Three.Built "ExtrudeGeometry" "hshape", "HShape"))
  ]%Q.

Fixpoint switch {A} (cases : list (string * A)) (tag : string) (default : A) : A :=
  match cases with
  | [] => default
  | (c, body) :: rest => if String.eqb tag c then body else switch rest tag default
  end.

(** The geometry and the name prefix that the switch of [addPrimitive]
    assigns for [type]. *)
Definition primitive_of (type : string) : Three.Geometry * string :=
  switch shapes type (Three.Primitive "BoxGeometry" [1; 1; 1]%Q, "Object").

(** *** selectObject *)

Definition same_id (s : State) (a b : nat) : bool :=
  String.eqb (id (record_of s a)) (id (record_of s b)).

Definition selectObject (obj : option nat) (addToSelection : bool) (s : State) : State :=
  let s := forEach (setEmissive 0x000000) (objects s) s in
  match obj with
  | Some obj =>
      if addToSelection then
        let prev := selectedObjects s in
        let isAlreadySelected := existsb (fun o => same_id s o obj) prev in
        let newSelection :=
          if isAlreadySelected
          then List.filter (fun o => negb (same_id s o obj)) prev
          else prev ++ [obj] in
        let s := forEach (setEmissive 0x333333) newSelection s in
        let s :=
          match last newSelection with
          | Some lastSelected =>
              set_selectedObject (Some lastSelected)
                (set_attached (Some (mesh (record_of s lastSelected))) s)
          | None => set_selectedObject None (set_attached None s)
          end in
        set_selectedObjects newSelection s
      else
        let s := setEmissive 0x333333 obj s in
        let s := set_attached (Some (mesh (record_of s obj))) s in
        set_selectedObjects [obj] (set_selectedObject (Some obj) s)
  | None =>
      set_selectedObjects [] (set_selectedObject None (set_attached None s))
  end.

(** *** addPrimitive *)

Definition addPrimitive (w : World) (type : string) (s : State) : State :=
  let s := saveUndoState s in
  let '(geometry, prefix) := primitive_of type in
  let name := prefix +:+ "_" +:+ pretty (objectCounter s) in
  let '(material, s) :=
    alloc_material
      {| Three.color := random_colour w (calls s);
         Three.metalness := Fin 0.3; Three.roughness := Fin 0.7;
         Three.transparent := true; Three.opacity := Fin 1;
         Three.emissive := 0x000000; Three.emissiveIntensity := Fin 0;
         Three.wireframe := VBool false |} s in
  let plane := String.eqb type "plane" in
  let m := Three.new_Mesh geometry material in
  let m := Three.set_receiveShadow true (Three.set_castShadow true m) in
  let m := Three.set_position
             (Three.mkVector3 (Fin 0) (if plane then Fin 0.01 else Fin 0.5) (Fin 0)) m in
  let m := if plane
           then Three.set_rotation
                  (Three.mkEuler (Three.Degrees (Fin (-90))) (Three.Degrees (Fin 0))
                     (Three.Degrees (Fin 0))) m
           else m in
  let '(mesh, s) := alloc_mesh m s in
  let s := scene_add mesh s in
  let id := generateId w (calls s) in
  let s := set_calls (S (calls s)) s in
  let '(newObject, s) := alloc_record (mkSceneObject id (VStr name) type mesh) s in
  let s := write_mesh mesh (Three.set_objectId (Some id)) s in
  let s := selectObject (Some newObject) false s in
  set_objectCounter (S (objectCounter s)) (set_objects (objects s ++ [newObject]) s).

(** *** deleteObject, deleteSelectedObjects, selectAllObjects *)

Definition deleteObject (obj : option nat) (s : State) : State :=
  match obj with
  | None => s
  | Some obj =>
      let s0 := saveUndoState s in
      let s1 :=
        match selectedObject s0 with
        | Some sel =>
            if same_id s0 sel obj
            then set_selectedObject None (set_attached None s0)
            else s0
        | None => s0
        end in
      let s2 := set_selectedObjects
                  (List.filter (fun o => negb (same_id s0 o obj)) (selectedObjects s1)) s1 in
      let s3 := scene_remove (mesh (record_of s0 obj)) s2 in
      set_objects (List.filter (fun o => negb (same_id s0 o obj)) (objects s3)) s3
  end.

Definition deleteSelectedObjects (s : State) : State :=
  match selectedObjects s with
  | [] => s
  | selected =>
      let s0 := saveUndoState s in
      let s1 := forEach (fun obj st => scene_remove (mesh (record_of st obj)) st) selected s0 in
      let s2 := set_objects
                  (List.filter (fun o => negb (existsb (fun sel => same_id s0 sel o) selected))
                     (objects s1)) s1 in
      set_attached None (set_selectedObject None (set_selectedObjects [] s2))
  end.

Definition selectAllObjects (s : State) : State :=
  let s1 := forEach (setEmissive 0x333333) (objects s) s in
  let s2 := set_selectedObjects (objects s) s1 in
  match last (objects s) with
  | Some l => set_attached (Some (mesh (record_of s2 l))) (set_selectedObject (Some l) s2)
  | None => s2
  end.

(** *** duplicateObject *)

(** The text a value takes in a template literal. *)
Definition template (w : World) (v : value) : string :=
  match v with
  | VStr t => t
  | VNum n => Number_toString w n
  | VBool true => "true"
  | VBool false => "false"
  end.

Definition duplicateObject (w : World) (obj : option nat) (s : State) : State :=
  match obj with
  | None => s
  | Some obj =>
      let s := saveUndoState s in
      let source := mesh_of s obj in
      let '(material, s) := alloc_material (material_of s obj) s in
      let m := Three.new_Mesh (Three.geometry source) material in
      let p := Three.position source in
      let m := Three.set_position (Three.set_x (Js.add (Three.x p) (Fin 1)) p) m in
      let m := Three.set_rotation (Three.rotation source) m in
      let m := Three.set_scale (Three.scale source) m in
      let m := Three.set_receiveShadow true (Three.set_castShadow true m) in
      let '(mesh, s) := alloc_mesh m s in
      let s := scene_add mesh s in
      let id := generateId w (calls s) in
      let s := set_calls (S (calls s)) s in
      let '(newObject, s) :=
        alloc_record
          (mkSceneObject id (VStr (template w (name (record_of s obj)) +:+ "_copy"))
             (type (record_of s obj)) mesh) s in
      let s := write_mesh mesh (Three.set_objectId (Some id)) s in
      let s := selectObject (Some newObject) false s in
      set_objects (objects s ++ [newObject]) s
  end.

(** *** toggleVisibility *)

Definition toggleVisibility (obj : option nat) (s : State) : State :=
  match obj with
  | None => s
  | Some obj =>
      write_mesh (mesh (record_of s obj))
        (fun m => Three.set_visible (negb (Three.visible m)) m) s
  end.

(** *** updateObjectProperty *)

(** [Color.set(value)]: a number goes to [setHex], a string to
    [setStyle], anything else leaves the colour as it is. *)
Definition Color_set (w : World) (c : Z) (v : value) : Z :=
  match v with
  | VNum n => Three.setHex n
  | VStr t => Color_setStyle w c t
  | VBool _ => c
  end.

Definition set_name (v : value) (r : SceneObject) : SceneObject :=
  mkSceneObject (id r) v (type r) (mesh r).

Definition on_position (f : num -> Three.Vector3 -> Three.Vector3) (v : num)
    (m : Three.Mesh) : Three.Mesh :=
  Three.set_position (f v (Three.position m)) m.
Definition on_rotation (f : Three.Angle -> Three.Euler -> Three.Euler) (a : Three.Angle)
    (m : Three.Mesh) : Three.Mesh :=
  Three.set_rotation (f a (Three.rotation m)) m.
Definition on_scale (f : num -> Three.Vector3 -> Three.Vector3) (v : num)
    (m : Three.Mesh) : Three.Mesh :=
  Three.set_scale (f v (Three.scale m)) m.

Definition updateObjectProperty (w : World) (property : string) (v : value)
    (s : State) : State :=
  match selectedObject s with
  | None => s
  | Some sel =>
      let mesh := mesh (record_of s sel) in
      let mat := Three.material (meshes s !!! mesh) in
      let number := parseFloat v in
      let s :=
        switch
          [ ("name", write_record sel (set_name v));
            ("positionX", write_mesh mesh (on_position Three.set_x (or_num number (Fin 0))));
            ("positionY", write_mesh mesh (on_position Three.set_y (or_num number (Fin 0))));
            ("positionZ", write_mesh mesh (on_position Three.set_z (or_num number (Fin 0))));
            ("rotationX", write_mesh mesh
               (on_rotation Three.set_ex (Three.degToRad (or_num number (Fin 0)))));
            ("rotationY", write_mesh mesh
               (on_rotation Three.set_ey (Three.degToRad (or_num number (Fin 0)))));
            ("rotationZ", write_mesh mesh
               (on_rotation Three.set_ez (Three.degToRad (or_num number (Fin 0)))));
            ("scaleX", write_mesh mesh (on_scale Three.set_x (or_num number (Fin 1))));
            ("scaleY", write_mesh mesh (on_scale Three.set_y (or_num number (Fin 1))));
            ("scaleZ", write_mesh mesh (on_scale Three.set_z (or_num number (Fin 1))));
            ("color", write_material mat
               (fun m => Three.set_color (Color_set w (Three.color m) v) m));
            ("metalness", write_material mat (Three.set_metalness number));
            ("roughness", write_material mat (Three.set_roughness number));
            ("wireframe", write_material mat (Three.set_wireframe v));
            ("opacity", write_material mat
               (fun m => Three.set_transparent (Js.lt number (Fin 1))
                           (Three.set_opacity number m)));
            ("emissive", write_material mat
               (fun m => Three.set_emissive (Color_set w (Three.emissive m) v) m));
            ("emissiveIntensity", write_material mat (Three.set_emissiveIntensity number)) ]
          property (fun st => st) s in
      let '(copy, s) := alloc_record (record_of s sel) s in
      set_selectedObject (Some copy) s
  end.

(** *** undo *)

(** The geometry switch of [undo]. *)
Definition restored_geometry (type : string) : Three.Geometry :=
  switch
    [ ("cube", Three.Primitive "BoxGeometry" [1; 1; 1]);
      ("sphere", Three.Primitive "SphereGeometry" [0.5; 32; 32]);
      ("cylinder", Three.Primitive "CylinderGeometry" [0.5; 0.5; 1; 32]);
      ("cone", Three.Primitive "ConeGeometry" [0.5; 1; 32]);
      ("torus", Three.Primitive "TorusGeometry" [0.5; 0.2; 16; 100]);
      ("plane", Three.Primitive "PlaneGeometry" [2; 2]);
      ("torusknot", Three.Primitive "TorusKnotGeometry" [0.4; 0.15; 100; 16]);
      ("tetrahedron", Three.Primitive "TetrahedronGeometry" [0.6]);
      ("octahedron", Three.Primitive "OctahedronGeometry" [0.5]);
      ("dodecahedron", Three.Primitive "DodecahedronGeometry" [0.5]);
      ("icosahedron", Three.Primitive "IcosahedronGeometry" [0.5]);
      ("ring", Three.Primitive "RingGeometry" [0.3; 0.6; 32]);
      ("capsule", Three.Primitive "CapsuleGeometry" [0.3; 0.6; 8; 16]) ]%Q
    type (Three.Primitive "BoxGeometry" [1; 1; 1]%Q).

Definition rehydrate_one (savedObj : Saved) (s : State) : nat * State :=
  let '(material, s) :=
    alloc_material
      (Three.set_roughness (saved_roughness savedObj)
         (Three.set_metalness (saved_metalness savedObj)
            (Three.set_color (saved_color savedObj) Three.MeshStandardMaterial))) s in
  let m := Three.new_Mesh (restored_geometry (saved_type savedObj)) material in
  let m := Three.set_position (saved_position savedObj) m in
  let m := Three.set_rotation (saved_rotation savedObj) m in
  let m := Three.set_scale (saved_scale savedObj) m in
  let m := Three.set_visible (saved_visible savedObj) m in
  let m := Three.set_receiveShadow true (Three.set_castShadow true m) in
  let m := Three.set_objectId (Some (saved_id savedObj)) m in
  let '(mesh, s) := alloc_mesh m s in
  let s := scene_add mesh s in
  alloc_record
    (mkSceneObject (saved_id savedObj) (saved_name savedObj) (saved_type savedObj) mesh) s.

(** [previousState.map(savedObj => ...)]. *)
Fixpoint rehydrate (previousState : list Saved) (s : State) : list nat * State :=
  match previousState with
  | [] => ([], s)
  | savedObj :: rest =>
      let '(o, s) := rehydrate_one savedObj s in
      let '(os, s) := rehydrate rest s in
      (o :: os, s)
  end.

Definition undo (s : State) : State :=
  match last (undoStack s) with
  | None => s
  | Some previousState =>
      let s1 := set_undoStack (slice_but_last (undoStack s)) s in
      let s2 := forEach (fun obj st => scene_remove (mesh (record_of st obj)) st) (objects s) s1 in
      let '(newObjects, s3) := rehydrate previousState s2 in
      set_attached None (set_selectedObject None (set_objects newObjects s3))
  end.

(** *** importModel *)

(** The material of a node of a parsed file: the [i]-th
    [MeshStandardMaterial] the loader made (nodes may share one), or a
    material of another class, with its [color] if it has one. *)
Inductive GltfMaterial :=
  | Standard (i : nat)
  | Other (color : option Z).

(** A node that [gltf.scene.traverse] visits. *)
Record GltfChild := mkGltfChild {
  isMesh : bool;
  child_name : string;
  child_geometry : Three.Geometry;
  child_material : GltfMaterial;
  child_position : Three.Vector3;
  child_rotation : Three.Euler;
  child_scale : Three.Vector3;
  child_visible : bool
}.

(** What [GLTFLoader.parse] delivers: the parsed scene, as the standard
    materials it holds and its nodes in traversal order, or an error. *)
Inductive Parsed :=
  | Loaded (mats : list Three.Material) (children : list GltfChild)
  | Failed.

Fixpoint alloc_materials (mats : list Three.Material) (s : State) : State :=
  match mats with
  | [] => s
  | m :: rest => alloc_materials rest (alloc_material m s).2
  end.

(** The body of the [traverse] callback for one node; [base] is where
    the loader's materials start and [counter] the [objectCounter] the
    callback closed over. *)
Definition import_child (w : World) (base counter : nat) (child : GltfChild)
    (acc : list nat * State) : list nat * State :=
  let '(newObjects, s) := acc in
  if isMesh child then
    let '(material, s) :=
      match child_material child with
      | Standard i => (base + i, s)
      | Other c =>
          alloc_material
            (Three.set_roughness (Fin 0.7)
               (Three.set_metalness (Fin 0.3)
                  (Three.set_color (default 0x888888%Z c) Three.MeshStandardMaterial))) s
      end in
    let m := Three.new_Mesh (child_geometry child) material in
    let m := Three.set_position (child_position child) m in
    let m := Three.set_rotation (child_rotation child) m in
    let m := Three.set_scale (child_scale child) m in
    let m := Three.set_visible (child_visible child) m in
    let m := Three.set_receiveShadow true (Three.set_castShadow true m) in
    let '(mesh, s) := alloc_mesh m s in
    let s := scene_add mesh s in
    let id := generateId w (calls s) in
    let s := set_calls (S (calls s)) s in
    let s := write_mesh mesh (Three.set_objectId (Some id)) s in
    let name := if String.eqb (child_name child) ""
                then "Imported_" +:+ pretty counter
                else child_name child in
    let '(o, s) := alloc_record (mkSceneObject id (VStr name) "imported" mesh) s in
    (newObjects ++ [o], s)
  else (newObjects, s).

Definition importModel (w : World) (file : option Parsed) (s : State) : State :=
  match file with
  | None => s
  | Some result =>
      let s := saveUndoState s in
      match result with
      | Loaded mats children =>
          let base := next s in
          let s := alloc_materials mats s in
          let '(newObjects, s) :=
            foldl (fun acc child => import_child w base (objectCounter s) child acc)
              ([], s) children in
          let s := match newObjects with
                   | first :: _ => selectObject (Some first) false s
                   | [] => s
                   end in
          set_objectCounter (objectCounter s + length newObjects)
            (set_objects (objects s ++ newObjects) s)
      | Failed => set_alerts (alerts s ++ ["Failed to import model"]) s
      end
  end.

(** *** What the loader makes of a file *)

(** A node of a glTF file as [GLTFLoader.parse] meets it: one it can
    build, or one it cannot, a malformed node. *)
Inductive GltfNode :=
  | Node (child : GltfChild)
  | MalformedNode.

(** The nodes built, when every one of them can be. *)
Fixpoint built_nodes (nodes : list GltfNode) : option (list GltfChild) :=
  match nodes with
  | [] => Some []
  | Node child :: rest =>
      match built_nodes rest with
      | Some children => Some (child :: children)
      | None => None
      end
  | MalformedNode :: _ => None
  end.


(** *** clearScene *)

Definition clearScene (confirmed : bool) (s : State) : State :=
  if confirmed then
    let s := saveUndoState s in
    let s := forEach (fun obj st => scene_remove (mesh (record_of st obj)) st) (objects s) s in
    set_attached None (set_selectedObject None (set_objects [] s))
  else s.

(** *** Snapping *)

Definition snapToGrid (v : num) (s : State) : num :=
  if (negb (snapEnabled s) || Js.le (snapSize s) (Fin 0))%bool then v
  else Js.mul (Js.round (Js.div v (snapSize s))) (snapSize s).

Definition toggleSnap (s : State) : State :=
  let newValue := negb (snapEnabled s) in
  let s := set_translationSnap (if newValue then Some (snapSize s) else None) s in
  let s := set_rotationSnap (if newValue then Some (Three.degToRad (Fin 15)) else None) s in
  let s := set_scaleSnap (if newValue then Some (Fin 0.1) else None) s in
  set_snapEnabled newValue s.

Definition updateSnapSize (size : value) (s : State) : State :=
  let newSize := or_num (parseFloat size) (Fin 0.5) in
  let s := set_snapSize newSize s in
  if snapEnabled s then set_translationSnap (Some newSize) s else s.

(** *** Commands *)

(** The handlers as commands of a session. *)
Inductive Op :=
  | AddPrimitive (type : string)
  | SelectObject (obj : option nat) (addToSelection : bool)
  | DeleteObject (obj : option nat)
  | DeleteSelectedObjects
  | SelectAllObjects
  | DuplicateObject (obj : option nat)
  | ToggleVisibility (obj : option nat)
  | UpdateObjectProperty (property : string) (v : value)
  | Undo
  | ImportModel (file : option Parsed)
  | ClearScene (confirmed : bool)
  | ToggleSnap
  | UpdateSnapSize (size : value).

Definition step (w : World) (op : Op) (s : State) : State :=
  match op with
  | AddPrimitive type => addPrimitive w type s
  | SelectObject obj addToSelection => selectObject obj addToSelection s
  | DeleteObject obj => deleteObject obj s
  | DeleteSelectedObjects => deleteSelectedObjects s
  | SelectAllObjects => selectAllObjects s
  | DuplicateObject obj => duplicateObject w obj s
  | ToggleVisibility obj => toggleVisibility obj s
  | UpdateObjectProperty property v => updateObjectProperty w property v s
  | Undo => undo s
  | ImportModel file => importModel w file s
  | ClearScene confirmed => clearScene confirmed s
  | ToggleSnap => toggleSnap s
  | UpdateSnapSize size => updateSnapSize size s
  end.

Definition run (w : World) (ops : list Op) (s : State) : State :=
  foldl (fun st op => step w op st) s ops.

(** ** More of the component *)

(** *** createParametricGeometry *)

Definition num_of_nat (n : nat) : num := Fin (inject_Z (Z.of_nat n)).

(** The [(u, v)] pairs pushed to [uvs], in order: [v = i / stacks] in
    the outer loop, [u = j / slices] in the inner one. *)
Definition parametric_uvs (slices stacks : nat) : list (num * num) :=
  flat_map
    (fun i => map (fun j => (Js.div (num_of_nat j) (num_of_nat slices), Js.div (num_of_nat i) (num_of_nat stacks)))
                (seq 0 (S slices)))
    (seq 0 (S stacks)).

(** The vertices pushed to [vertices]: [func(u, v, p0)] at each pair. *)
Definition parametric_vertices (func : num -> num -> Three.Vector3) (slices stacks : nat) :
    list Three.Vector3 :=
  map (fun uv => func uv.1 uv.2) (parametric_uvs slices stacks).

(** The index buffer: two triangles [a, b, d] and [b, c, d] per cell. *)
Definition parametric_indices (slices stacks : nat) : list nat :=
  let sliceCount := slices + 1 in
  flat_map
    (fun i =>
       flat_map
         (fun j =>
            let a := i * sliceCount + j in
            let b := i * sliceCount + j + 1 in
            let c := (i + 1) * sliceCount + j + 1 in
            let d := (i + 1) * sliceCount + j in
            [a; b; d; b; c; d])
         (seq 0 slices))
    (seq 0 stacks).

(** *** handleViewportClick *)

(** [objects.find(o => o.mesh === clickedMesh)]. *)
Definition find_by_mesh (s : State) (clickedMesh : nat) : option nat :=
  List.find (fun o => Nat.eqb (mesh (record_of s o)) clickedMesh) (objects s).

(** A click in the viewport. [dragging] is [transformControls.dragging],
    [hit] the mesh of the first intersection the raycaster reports, if
    any, and [ctrl] is [event.ctrlKey || event.metaKey]. *)
Definition handleViewportClick (dragging : bool) (hit : option nat) (ctrl : bool)
    (s : State) : State :=
  if dragging then s
  else
    match hit with
    | Some clickedMesh =>
        match find_by_mesh s clickedMesh with
        | Some obj => selectObject (Some obj) ctrl s
        | None => s
        end
    | None => selectObject None false s
    end.

(** *** The keyboard shortcuts *)

(** [toLowerCase] on the names of keys, which are ASCII: the letters
    [A] to [Z] go to [a] to [z], every other character stays. *)
Definition lower (c : ascii) : ascii :=
  let n := nat_of_ascii c in
  if ((65 <=? n)%nat && (n <=? 90)%nat)%bool then ascii_of_nat (n + 32) else c.

Fixpoint toLowerCase (t : string) : string :=
  match t with
  | EmptyString => EmptyString
  | String c r => String (lower c) (toLowerCase r)
  end.

(** A [keydown] event: the key, whether Ctrl is held, and whether the
    target is an [INPUT] element. *)
Record KeyEvent := mkKeyEvent {
  key : string;
  ctrlKey : bool;
  target_is_input : bool
}.

(** [handleKeyDown] on the pair of the [transformMode] state variable
    (with the mode of the gizmo, which is set with it) and the rest of
    the state. *)
Definition handleKeyDown (w : World) (event : KeyEvent) (st : string * State) :
    string * State :=
  let '(transformMode, s) := st in
  if target_is_input event then st
  else
    switch
      [ ("t", ("translate", s));
        ("r", ("rotate", s));
        ("s", if ctrlKey event then st else ("scale", s));
        ("delete",
          (transformMode,
           if (1 <? length (selectedObjects s))%nat then deleteSelectedObjects s
           else match selectedObject s with
                | Some sel => deleteObject (Some sel) s
                | None => s
                end));
        ("backspace",
          (transformMode,
           if (1 <? length (selectedObjects s))%nat then deleteSelectedObjects s
           else match selectedObject s with
                | Some sel => deleteObject (Some sel) s
                | None => s
                end));
        ("d",
          (transformMode,
           if ctrlKey event
           then match selectedObject s with
                | Some sel => duplicateObject w (Some sel) s
                | None => s
                end
           else s));
        ("a", (transformMode, if ctrlKey event then selectAllObjects s else s));
        ("escape", (transformMode, selectObject None false s));
        ("z", (transformMode, if ctrlKey event then undo s else s)) ]
      (toLowerCase (key event)) st.

(** *** The lights *)

(** An entry of the [lights] state variable together with the three.js
    light it owns: [light_loc] identifies the light object (and its
    helper), [light_color], [light_intensity] and [light_position] are
    the fields of that object, the others the fields of the entry. *)
Record Light := mkLight {
  light_id : string;
  light_name : string;
  light_type : string;
  color : value;
  intensity : num;
  position : Three.Vector3;
  light_loc : nat;
  light_color : Z;
  light_intensity : num;
  light_position : Three.Vector3
}.

(** The lighting state: the [lights] variable, [lightCounter], the
    light objects that are children of the scene (each with its
    helper), and the first unused location. *)
Record Lighting := mkLighting {
  lights : list Light;
  lightCounter : nat;
  lit : list nat;
  next_light : nat
}.

Definition no_lights : Lighting :=
  {| lights := []; lightCounter := 0; lit := []; next_light := 0 |}.

(** The lights [addLight] knows: the intensity and position it gives
    to the three.js light. *)
Definition new_light (type : string) : option (num * Three.Vector3) :=
  switch
    [ ("point", Some (Fin 1, Three.mkVector3 (Fin 2) (Fin 3) (Fin 2)));
      ("spot", Some (Fin 1, Three.mkVector3 (Fin 3) (Fin 5) (Fin 3)));
      ("directional", Some (Fin 0.5, Three.mkVector3 (Fin 5) (Fin 10) (Fin 5))) ]
    type None.

(** [addLight(type)] when the clock reads [now]. *)
Definition addLight (now : N) (type : string) (l : Lighting) : Lighting :=
  let id := "light_" +:+ pretty now in
  let name := type +:+ "_" +:+ pretty (lightCounter l) in
  match new_light type with
  | Some (i, p) =>
      {| lights :=
           lights l ++
           [ {| light_id := id; light_name := name; light_type := type;
                color := VStr "#ffffff"; intensity := Fin 1; position := p;
                light_loc := next_light l;
                light_color := 0xffffff; light_intensity := i; light_position := p |} ];
         lightCounter := S (lightCounter l);
         lit := lit l ++ [next_light l];
         next_light := S (next_light l) |}
  | None => l
  end.

Definition update_light (w : World) (property : string) (v : value) (l : Light) : Light :=
  let n := parseFloat v in
  switch
    [ ("color",
        mkLight (light_id l) (light_name l) (light_type l) v (intensity l) (position l)
          (light_loc l) (Color_set w (light_color l) v) (light_intensity l)
          (light_position l));
      ("intensity",
        mkLight (light_id l) (light_name l) (light_type l) (color l) n (position l)
          (light_loc l) (light_color l) n (light_position l));
      ("positionX",
        mkLight (light_id l) (light_name l) (light_type l) (color l) (intensity l)
          (Three.set_x n (position l)) (light_loc l) (light_color l) (light_intensity l)
          (Three.set_x n (light_position l)));
      ("positionY",
        mkLight (light_id l) (light_name l) (light_type l) (color l) (intensity l)
          (Three.set_y n (position l)) (light_loc l) (light_color l) (light_intensity l)
          (Three.set_y n (light_position l)));
      ("positionZ",
        mkLight (light_id l) (light_name l) (light_type l) (color l) (intensity l)
          (Three.set_z n (position l)) (light_loc l) (light_color l) (light_intensity l)
          (Three.set_z n (light_position l))) ]
    property l.

(** [updateLight(id, property, value)]. *)
Definition updateLight (w : World) (id : string) (property : string) (v : value)
    (l : Lighting) : Lighting :=
  {| lights :=
       map (fun e => if String.eqb (light_id e) id then update_light w property v e else e)
         (lights l);
     lightCounter := lightCounter l;
     lit := lit l;
     next_light := next_light l |}.

(** [deleteLight(id)]: the first entry with the id has its light and
    helper removed from the scene; every entry with the id leaves the
    list. *)
Definition deleteLight (id : string) (l : Lighting) : Lighting :=
  {| lights := List.filter (fun e => negb (String.eqb (light_id e) id)) (lights l);
     lightCounter := lightCounter l;
     lit := match List.find (fun e => String.eqb (light_id e) id) (lights l) with
            | Some lightToRemove =>
                List.filter (fun c => negb (Nat.eqb c (light_loc lightToRemove))) (lit l)
            | None => lit l
            end;
     next_light := next_light l |}.

(** The commands of the lighting panel; [AddLight] carries the clock
    reading. *)
Inductive LightOp :=
  | AddLight (now : N) (type : string)
  | UpdateLight (id : string) (property : string) (v : value)
  | DeleteLight (id : string).

Definition light_step (w : World) (op : LightOp) (l : Lighting) : Lighting :=
  match op with
  | AddLight now type => addLight now type l
  | UpdateLight id property v => updateLight w id property v l
  | DeleteLight id => deleteLight id l
  end.

Definition light_run (w : World) (ops : list LightOp) (l : Lighting) : Lighting :=
  foldl (fun st op => light_step w op st) l ops.

(** The clock readings of the [AddLight] commands of [ops] that add a light. *)
Definition light_clock (ops : list LightOp) : list N :=
  flat_map
    (fun op =>
       match op with
       | AddLight now type => match new_light type with Some _ => [now] | None => [] end
       | _ => []
       end) ops.

(** The scene holds exactly the lights of the list. *)
Definition lights_in_scene (l : Lighting) : Prop := lit l = map light_loc (lights l).

(** ** Definitions used in the statements *)

(** The material object of [o]'s mesh. *)
Definition mat_loc (s : State) (o : nat) : nat := Three.material (mesh_of s o).

(** [setHex(hex)] on the emissive colour of each material of [ms] in turn. *)
Definition paint (hex : Z) (ms : list nat) (mats : gmap nat Three.Material) :
    gmap nat Three.Material :=
  foldl (fun mats m => <[m := Three.set_emissive hex (mats !!! m)]> mats) mats ms.

(** The selection [selectObject] leaves in [selectedObjects]. *)
Definition new_selection (obj : option nat) (addToSelection : bool) (s : State) : list nat :=
  match obj with
  | None => []
  | Some obj =>
      if addToSelection then
        if existsb (fun o => same_id s o obj) (selectedObjects s)
        then List.filter (fun o => negb (same_id s o obj)) (selectedObjects s)
        else selectedObjects s ++ [obj]
      else [obj]
  end.

Inductive Axis := AxisX | AxisY | AxisZ.

Definition axis_name (a : Axis) : string :=
  match a with AxisX => "X" | AxisY => "Y" | AxisZ => "Z" end.

Definition component (a : Axis) (v : Three.Vector3) : num :=
  match a with AxisX => Three.x v | AxisY => Three.y v | AxisZ => Three.z v end.

Definition angle (a : Axis) (e : Three.Euler) : Three.Angle :=
  match a with AxisX => Three.ex e | AxisY => Three.ey e | AxisZ => Three.ez e end.

(** The mesh that [updateObjectProperty] edits. *)
Definition selected_mesh (s : State) : option nat :=
  (fun sel => mesh (record_of s sel)) <$> selectedObject s.

(** A small session for examples: a fixed clock and fixed random draws. *)
Definition demo_world : World :=
  {| Date_now := fun k => (1700000000000 + N.of_nat k)%N;
     Math_random_36 := fun k => "0.4fzyo82mvyr";
     random_colour := fun k => 0x40bf40%Z;
     Color_setStyle := fun c _ => c;
     Number_toString := fun _ => "0" |}.

Definition demo_cube : State := addPrimitive demo_world "cube" initial.

(** [t]'s store, scene and creation counter with the rest of [s]. *)
Definition with_heap (t s : State) : State :=
  set_records (records t)
    (set_meshes (meshes t)
       (set_materials (materials t)
          (set_next (next t) (set_scene (scene t) (set_calls (calls t) s))))).

(** [f] touches nothing but the store, the scene and the creation counter. *)
Definition heap_only (f : State -> State) : Prop := forall s, f s = with_heap (f s) s.

(** The snapshot [saveUndoState] takes in [s]. *)
Definition capture_all (s : State) : list Saved := map (capture s) (objects s).

(** The ids of the objects of the registry, in order. *)
Definition live_ids (s : State) : list string :=
  map (fun o => id (record_of s o)) (objects s).

(** Whether the handler behind [op] gets as far as [saveUndoState] in [s]. *)
Definition snapshots (op : Op) (s : State) : bool :=
  match op with
  | AddPrimitive _ => true
  | DeleteObject (Some _) => true
  | DeleteSelectedObjects => negb (bool_decide (selectedObjects s = []))
  | DuplicateObject (Some _) => true
  | ImportModel (Some _) => true
  | ClearScene true => true
  | _ => false
  end.

(** The snapshots taken, oldest first, while [ops] run from [s]. *)
Fixpoint history (w : World) (ops : list Op) (s : State) : list (list Saved) :=
  match ops with
  | [] => []
  | op :: rest =>
      (if snapshots op s then [capture_all s] else []) ++ history w rest (step w op s)
  end.

(** The fields an undo snapshot records agree between [o] in [s] and [o'] in [s']. *)
Definition recorded_fields_agree (s s' : State) (o o' : nat) : Prop :=
  id (record_of s' o') = id (record_of s o)
  /\ name (record_of s' o') = name (record_of s o)
  /\ type (record_of s' o') = type (record_of s o)
  /\ Three.position (mesh_of s' o') = Three.position (mesh_of s o)
  /\ Three.rotation (mesh_of s' o') = Three.rotation (mesh_of s o)
  /\ Three.scale (mesh_of s' o') = Three.scale (mesh_of s o)
  /\ Three.color (material_of s' o') = Three.color (material_of s o)
  /\ Three.metalness (material_of s' o') = Three.metalness (material_of s o)
  /\ Three.roughness (material_of s' o') = Three.roughness (material_of s o)
  /\ Three.visible (mesh_of s' o') = Three.visible (mesh_of s o).


(** The objects stored below location [n] are the same in [s] and [s']. *)
Definition agree_below (n : nat) (s s' : State) : Prop :=
  forall k, k < n ->
    records s' !!! k = records s !!! k
    /\ meshes s' !!! k = meshes s !!! k
    /\ materials s' !!! k = materials s !!! k.

(** Pushing the snapshots [h], oldest first, on the stack [st]. *)
Definition pushes (h st : list (list Saved)) : list (list Saved) :=
  foldl (fun st x => push_undo x st) st h.

(** A session in which an opacity has been set: a cube is added and
    its opacity is edited to 0.5. *)
Definition demo_translucent : State :=
  updateObjectProperty demo_world "opacity" (VStr "0.5") demo_cube.

(** [k] successive calls of [undo]. *)
Fixpoint undos (k : nat) (s : State) : State :=
  match k with
  | 0 => s
  | S k => undo (undos k s)
  end.

(** [s'] has the registry of [s] back: the same ids in the same order,
    and object by object the same recorded fields. *)
Definition restores (s s' : State) : Prop :=
  live_ids s' = live_ids s
  /\ Forall2 (recorded_fields_agree s s') (objects s) (objects s').


(** What [generateId] reads at the [k]-th creation: the clock and the
    nine characters it keeps of the random string. *)
Definition draw (w : World) (k : nat) : N * string :=
  (Date_now w k, String.substring 2 9 (Math_random_36 w k)).

(** The draws of the first [n] creations are pairwise distinct. *)
Definition distinct_draws (w : World) (n : nat) : Prop :=
  forall j k, j < k -> k < n -> draw w j <> draw w k.



(** [f] moves neither the allocation pointer nor the creation counter
    and changes no id. *)
Definition keeps_ids (f : State -> State) : Prop :=
  forall s, next (f s) = next s /\ calls (f s) = calls s
            /\ forall o, id (records (f s) !!! o) = id (records s !!! o).



(** The selection invariant of the specification: the primary object
    is a member of a non-empty selection, and the gizmo is attached
    exactly when the selection is non-empty. *)
Definition selection_invariant (s : State) : Prop :=
  (selectedObjects s <> [] ->
     exists p, selectedObject s = Some p
               /\ id (record_of s p) ∈ map (fun o => id (record_of s o)) (selectedObjects s))
  /\ (is_Some (attached s) <-> selectedObjects s <> []).

(** Two objects, both selected. *)
Definition demo_pair_selected : State :=
  run demo_world [AddPrimitive "cube"; AddPrimitive "sphere"; SelectAllObjects] initial.

(** The state [addPrimitive] has built when it calls [selectObject]:
    the material, the mesh and the record of the new object are in the
    store, the mesh is in the scene. The new record is at
    [S (S (next s))]. *)
Definition add_built (w : World) (type : string) (s : State) : State :=
  let s := saveUndoState s in
  let '(geometry, prefix) := primitive_of type in
  let name := prefix +:+ "_" +:+ pretty (objectCounter s) in
  let '(material, s) :=
    alloc_material
      {| Three.color := random_colour w (calls s);
         Three.metalness := Fin 0.3; Three.roughness := Fin 0.7;
         Three.transparent := true; Three.opacity := Fin 1;
         Three.emissive := 0x000000; Three.emissiveIntensity := Fin 0;
         Three.wireframe := VBool false |} s in
  let plane := String.eqb type "plane" in
  let m := Three.new_Mesh geometry material in
  let m := Three.set_receiveShadow true (Three.set_castShadow true m) in
  let m := Three.set_position
             (Three.mkVector3 (Fin 0) (if plane then Fin 0.01 else Fin 0.5) (Fin 0)) m in
  let m := if plane
           then Three.set_rotation
                  (Three.mkEuler (Three.Degrees (Fin (-90))) (Three.Degrees (Fin 0))
                     (Three.Degrees (Fin 0))) m
           else m in
  let '(mesh, s) := alloc_mesh m s in
  let s := scene_add mesh s in
  let id := generateId w (calls s) in
  let s := set_calls (S (calls s)) s in
  let '(newObject, s) := alloc_record (mkSceneObject id (VStr name) type mesh) s in
  write_mesh mesh (Three.set_objectId (Some id)) s.

(** The same for [duplicateObject]. *)
Definition duplicate_built (w : World) (obj : nat) (s : State) : State :=
  let s := saveUndoState s in
  let source := mesh_of s obj in
  let '(material, s) := alloc_material (material_of s obj) s in
  let m := Three.new_Mesh (Three.geometry source) material in
  let p := Three.position source in
  let m := Three.set_position (Three.set_x (Js.add (Three.x p) (Fin 1)) p) m in
  let m := Three.set_rotation (Three.rotation source) m in
  let m := Three.set_scale (Three.scale source) m in
  let m := Three.set_receiveShadow true (Three.set_castShadow true m) in
  let '(mesh, s) := alloc_mesh m s in
  let s := scene_add mesh s in
  let id := generateId w (calls s) in
  let s := set_calls (S (calls s)) s in
  let '(newObject, s) :=
    alloc_record
      (mkSceneObject id (VStr (template w (name (record_of s obj)) +:+ "_copy"))
         (type (record_of s obj)) mesh) s in
  write_mesh mesh (Three.set_objectId (Some id)) s.








(** The material [undo] gives the object rebuilt from [sv]: a new
    [MeshStandardMaterial] with the three recorded fields set. *)
Definition restored_material (sv : Saved) : Three.Material :=
  Three.set_roughness (saved_roughness sv)
    (Three.set_metalness (saved_metalness sv)
       (Three.set_color (saved_color sv) Three.MeshStandardMaterial)).

(** The object [o] of [s] is the one [undo] builds from the entry [sv]. *)
Definition rebuilt_from (s : State) (sv : Saved) (o : nat) : Prop :=
  material_of s o = restored_material sv
  /\ Three.geometry (mesh_of s o) = restored_geometry (saved_type sv)
  /\ Three.castShadow (mesh_of s o) = true
  /\ Three.receiveShadow (mesh_of s o) = true
  /\ Three.objectId (mesh_of s o) = Some (saved_id sv).

(** The case labels of the geometry switch of [undo]. *)
Definition basic_kinds : list string :=
  ["cube"; "sphere"; "cylinder"; "cone"; "torus"; "plane"; "torusknot"; "tetrahedron";
   "octahedron"; "dodecahedron"; "icosahedron"; "ring"; "capsule"].

(** The commands whose handlers never call [saveUndoState]. *)
Definition takes_no_snapshot (op : Op) : bool :=
  match op with
  | SelectObject _ _ | SelectAllObjects | ToggleVisibility _ | UpdateObjectProperty _ _
  | ToggleSnap | UpdateSnapSize _ => true
  | _ => false
  end.

(** Two cubes, the second added after the first was made. *)
Definition demo_two_cubes : State :=
  run demo_world [AddPrimitive "cube"; AddPrimitive "cube"] initial.

(** The snap settings: the three snaps of the gizmo and the two state
    variables of the toolbar. *)
Definition snap_settings (s : State) :
    option num * option Three.Angle * option num * bool * num :=
  (translationSnap s, rotationSnap s, scaleSnap s, snapEnabled s, snapSize s).

(** The gizmo snaps exactly when snapping is enabled, by the unit on
    display for translation, by 15 degrees for rotation and by 0.1 for
    scale; the unit is a number other than 0. *)
Definition snap_consistent (s : State) : Prop :=
  translationSnap s = (if snapEnabled s then Some (snapSize s) else None)
  /\ rotationSnap s = (if snapEnabled s then Some (Three.degToRad (Fin 15)) else None)
  /\ scaleSnap s = (if snapEnabled s then Some (Fin 0.1) else None)
  /\ truthy_num (snapSize s) = true.

(** What holds of the lights after the [AddLight] commands that read
    the clock values [seen]: the scene holds the light of each entry,
    no two entries share a light or an id, and each id was made from a
    clock value that was read. *)
Definition lights_ok (seen : list N) (l : Lighting) : Prop :=
  lights_in_scene l
  /\ NoDup (map light_loc (lights l))
  /\ Forall (fun e => light_loc e < next_light l) (lights l)
  /\ NoDup (map light_id (lights l))
  /\ Forall (fun e => exists n, n ∈ seen /\ light_id e = "light_" +:+ pretty n) (lights l).

(** A session that ends with a selection of one: two objects are
    added and selected, and the primary one is deleted. *)
Definition demo_stale : State :=
  run demo_world
    [AddPrimitive "cube"; AddPrimitive "sphere"; SelectAllObjects; DeleteObject (Some 5)]
    initial.

(** The name [importModel] gives the object made from [child] when the
    object counter stands at [counter]. *)
Definition imported_name (counter : nat) (child : GltfChild) : value :=
  VStr (if String.eqb (child_name child) "" then "Imported_" +:+ pretty counter
        else child_name child).

(** ** Facts about the store and the emissive loops *)

Lemma set_materials_twice a b s : set_materials a (set_materials b s) = set_materials a s.
Proof. reflexivity. Qed.

Lemma forEach_setEmissive hex l s :
  forEach (setEmissive hex) l s
  = set_materials (paint hex (map (mat_loc s) l) (materials s)) s.
Proof.
  unfold forEach. revert s. induction l as [|o l IH]; intros s.
  - destruct s; reflexivity.
  - cbn [foldl map paint]. rewrite IH. unfold setEmissive, write_material.
    rewrite set_materials_twice. reflexivity.
Qed.

Lemma paint_lookup hex ms mats m :
  paint hex ms mats !!! m
  = if decide (m ∈ ms) then Three.set_emissive hex (mats !!! m) else mats !!! m.
Proof.
  revert mats. induction ms as [|a ms IH]; intros mats; cbn [paint foldl].
  - destruct (decide (m ∈ [])) as [H|_]; [by apply elem_of_nil in H | reflexivity].
  - fold (paint hex ms (<[a:=Three.set_emissive hex (mats !!! a)]> mats)). rewrite IH.
    destruct (decide (a = m)) as [->|Hne].
    + rewrite lookup_total_insert_eq.
      destruct (decide (m ∈ ms)), (decide (m ∈ m :: ms)) as [|Hn]; try reflexivity;
        exfalso; apply Hn; constructor.
    + rewrite lookup_total_insert_ne by done.
      destruct (decide (m ∈ ms)) as [Hin|Hnin], (decide (m ∈ a :: ms)) as [Hin'|Hnin'];
        try reflexivity.
      * exfalso. apply Hnin'. by constructor.
      * exfalso. apply elem_of_cons in Hin' as [->|?]; [by apply Hne | by apply Hnin].
Qed.

Lemma paint_emissive hex ms mats m :
  Three.emissive (paint hex ms mats !!! m)
  = if decide (m ∈ ms) then hex else Three.emissive (mats !!! m).
Proof. rewrite paint_lookup. by destruct (decide (m ∈ ms)). Qed.

(** [selectObject] in one piece: the emissive colours are repainted and
    the three selection variables are set from the new selection. *)
Lemma selectObject_eq obj addToSelection s :
  selectObject obj addToSelection s
  = let sel := new_selection obj addToSelection s in
    set_selectedObjects sel
      (set_selectedObject (last sel)
         (set_attached ((fun o => mesh (record_of s o)) <$> last sel)
            (set_materials
               (paint 0x333333 (map (mat_loc s) sel)
                  (paint 0x000000 (map (mat_loc s) (objects s)) (materials s))) s))).
Proof.
  unfold selectObject. rewrite forEach_setEmissive.
  destruct obj as [obj|]; [destruct addToSelection|]; cbn [new_selection].
  - cbn [selectedObjects set_materials]. 
    change (same_id (set_materials ?m s)) with (same_id s).
    set (sel := if existsb _ _ then _ else _).
    rewrite forEach_setEmissive. rewrite set_materials_twice.
    destruct (last sel); reflexivity.
  - reflexivity.
  - reflexivity.
Qed.

(** ** The handlers that create an object *)

Ltac destruct_state s :=
  destruct s as [s_records s_meshes s_materials s_next s_scene s_attached s_tsnap
                   s_rsnap s_ssnap s_objects s_selected s_selection s_undo s_counter
                   s_snap s_size s_alerts s_calls].

Ltac state_norm :=
  lazy beta iota zeta delta
    [alloc_material alloc_mesh alloc_record write_mesh write_record write_material
     scene_add saveUndoState record_of mesh_of material_of fst snd
     records meshes materials next scene attached translationSnap rotationSnap scaleSnap
     objects selectedObject selectedObjects undoStack objectCounter snapEnabled snapSize
     alerts calls
     set_records set_meshes set_materials set_next set_scene set_attached
     set_translationSnap set_rotationSnap set_scaleSnap set_objects set_selectedObject
     set_selectedObjects set_undoStack set_objectCounter set_snapEnabled set_snapSize
     set_alerts set_calls].

Lemma selectObject_store obj addToSelection s :
  records (selectObject obj addToSelection s) = records s
  /\ meshes (selectObject obj addToSelection s) = meshes s
  /\ next (selectObject obj addToSelection s) = next s
  /\ calls (selectObject obj addToSelection s) = calls s
  /\ objects (selectObject obj addToSelection s) = objects s
  /\ scene (selectObject obj addToSelection s) = scene s
  /\ objectCounter (selectObject obj addToSelection s) = objectCounter s
  /\ alerts (selectObject obj addToSelection s) = alerts s.
Proof. rewrite selectObject_eq. repeat apply conj; reflexivity. Qed.

Lemma addPrimitive_eq w type s :
  addPrimitive w type s
  = let s' := selectObject (Some (S (S (next s)))) false (add_built w type s) in
    set_objectCounter (S (objectCounter s')) (set_objects (objects s' ++ [S (S (next s))]) s').
Proof.
  unfold addPrimitive, add_built. destruct (primitive_of type). destruct_state s.
  state_norm. reflexivity.
Qed.

Lemma add_built_store w type s :
  records (add_built w type s)
  = <[S (S (next s)) :=
        mkSceneObject (generateId w (calls s))
          (VStr ((primitive_of type).2 +:+ "_" +:+ pretty (objectCounter s)))
          type (S (next s))]> (records s)
  /\ next (add_built w type s) = S (S (S (next s)))
  /\ calls (add_built w type s) = S (calls s)
  /\ objects (add_built w type s) = objects s
  /\ objectCounter (add_built w type s) = objectCounter s
  /\ scene (add_built w type s) = scene s ++ [S (next s)]
  /\ Three.geometry (meshes (add_built w type s) !!! S (next s)) = (primitive_of type).1
  /\ Three.visible (meshes (add_built w type s) !!! S (next s)) = true.
Proof.
  unfold add_built. destruct (primitive_of type). destruct_state s.
  state_norm. rewrite !lookup_total_insert_eq.
  destruct (String.eqb type "plane"); repeat apply conj; reflexivity.
Qed.

Lemma duplicateObject_eq w obj s :
  duplicateObject w (Some obj) s
  = let s' := selectObject (Some (S (S (next s)))) false (duplicate_built w obj s) in
    set_objects (objects s' ++ [S (S (next s))]) s'.
Proof.
  unfold duplicateObject, duplicate_built. destruct_state s. state_norm. reflexivity.
Qed.

Lemma duplicate_built_store w obj s :
  records (duplicate_built w obj s)
  = <[S (S (next s)) :=
        mkSceneObject (generateId w (calls s))
          (VStr (template w (name (record_of s obj)) +:+ "_copy"))
          (type (record_of s obj)) (S (next s))]> (records s)
  /\ next (duplicate_built w obj s) = S (S (S (next s)))
  /\ calls (duplicate_built w obj s) = S (calls s)
  /\ objects (duplicate_built w obj s) = objects s.
Proof.
  unfold duplicate_built. destruct_state s. state_norm. repeat apply conj; reflexivity.
Qed.

Lemma addPrimitive_store w type s :
  objects (addPrimitive w type s) = objects s ++ [S (S (next s))]
  /\ records (addPrimitive w type s)
     = <[S (S (next s)) :=
           mkSceneObject (generateId w (calls s))
             (VStr ((primitive_of type).2 +:+ "_" +:+ pretty (objectCounter s)))
             type (S (next s))]> (records s)
  /\ next (addPrimitive w type s) = S (S (S (next s)))
  /\ calls (addPrimitive w type s) = S (calls s)
  /\ objectCounter (addPrimitive w type s) = S (objectCounter s)
  /\ scene (addPrimitive w type s) = scene s ++ [S (next s)]
  /\ Three.geometry (meshes (addPrimitive w type s) !!! S (next s)) = (primitive_of type).1
  /\ Three.visible (meshes (addPrimitive w type s) !!! S (next s)) = true
  /\ selectedObject (addPrimitive w type s) = Some (S (S (next s)))
  /\ selectedObjects (addPrimitive w type s) = [S (S (next s))]
  /\ attached (addPrimitive w type s) = Some (S (next s)).
Proof.
  rewrite addPrimitive_eq. cbv zeta. rewrite selectObject_eq. cbv zeta.
  unfold add_built, new_selection. destruct (primitive_of type). destruct_state s.
  state_norm. cbn [last fmap option_fmap option_map].
  rewrite !lookup_total_insert_eq.
  destruct (String.eqb type "plane"); repeat apply conj; reflexivity.
Qed.

Lemma duplicateObject_store w obj s :
  objects (duplicateObject w (Some obj) s) = objects s ++ [S (S (next s))]
  /\ records (duplicateObject w (Some obj) s)
     = <[S (S (next s)) :=
           mkSceneObject (generateId w (calls s))
             (VStr (template w (name (record_of s obj)) +:+ "_copy"))
             (type (record_of s obj)) (S (next s))]> (records s)
  /\ next (duplicateObject w (Some obj) s) = S (S (S (next s)))
  /\ calls (duplicateObject w (Some obj) s) = S (calls s).
Proof.
  rewrite duplicateObject_eq. cbv zeta. rewrite selectObject_eq. cbv zeta.
  unfold duplicate_built, new_selection. destruct_state s.
  state_norm. repeat apply conj; reflexivity.
Qed.

(** ** Snapping *)

Lemma round_half_up (t : Q) :
  (inject_Z (Qfloor (t + (1 # 2))) - (1 # 2) <= t)%Q
  /\ (t < inject_Z (Qfloor (t + (1 # 2))) + (1 # 2))%Q.
Proof.
  pose proof (Qfloor_le (t + (1 # 2))) as Hlo.
  pose proof (Qlt_floor (t + (1 # 2))) as Hhi.
  rewrite inject_Z_plus in Hhi. change (inject_Z 1) with 1%Q in Hhi.
  split; lra.
Qed.

Lemma overflow_threshold_large : (1 < overflow_threshold)%Q.
Proof. reflexivity. Qed.

Lemma finite_small q : (Qabs q < overflow_threshold)%Q -> finite q = Fin q.
Proof.
  intros H. unfold finite. destruct (Qlt_le_dec (Qabs q) overflow_threshold) as [_|Hle];
    [reflexivity|]. exfalso. apply (Qlt_not_le _ _ H Hle).
Qed.

Lemma finite_large q :
  (overflow_threshold <= Qabs q)%Q -> finite q = Inf (Qneg q).
Proof.
  intros H. unfold finite. destruct (Qlt_le_dec (Qabs q) overflow_threshold) as [Hlt|_];
    [|reflexivity]. exfalso. apply (Qlt_not_le _ _ Hlt H).
Qed.

Lemma Qzero_false_pos u : (0 < u)%Q -> Qzero u = false.
Proof.
  intros H. unfold Qzero. apply Z.eqb_neq. unfold Qlt in H. cbn in H. lia.
Qed.

Lemma le_pos_false u : (0 < u)%Q -> Js.le (Fin u) (Fin 0) = false.
Proof.
  intros H. unfold Js.le. destruct (Qlt_le_dec 0 u) as [_|Hle]; [reflexivity|].
  exfalso. apply (Qlt_not_le _ _ H Hle).
Qed.

(** Where neither the quotient nor the product overflows, [snapToGrid]
    returns the exact value of [Math.round(q / u) * u]. *)
Lemma snapToGrid_fin s u q :
  snapEnabled s = true -> snapSize s = Fin u -> (0 < u)%Q ->
  (Qabs (q / u) < overflow_threshold)%Q ->
  (Qabs (inject_Z (Qfloor (q / u + (1 # 2))) * u) < overflow_threshold)%Q ->
  snapToGrid (Fin q) s = Fin (inject_Z (Qfloor (q / u + (1 # 2))) * u).
Proof.
  intros Hon Hsize Hu Hdiv Hmul. unfold snapToGrid.
  rewrite Hon, Hsize, (le_pos_false u Hu).
  cbn [negb orb Js.div]. rewrite (Qzero_false_pos u Hu), (finite_small _ Hdiv).
  cbn [Js.round Js.mul]. by rewrite (finite_small _ Hmul).
Qed.

(** The multiple of [u] that [Math.round(q / u) * u] denotes is within
    half a unit of [q], and no multiple of [u] is nearer. *)
Lemma snap_nearest (u q : Q) :
  (0 < u)%Q ->
  let k := Qfloor (q / u + (1 # 2)) in
  (inject_Z k * u - u * (1 # 2) <= q)%Q
  /\ (q < inject_Z k * u + u * (1 # 2))%Q
  /\ forall m : Z, (Qabs (q - inject_Z k * u) <= Qabs (q - inject_Z m * u))%Q.
Proof.
  intros Hu k. subst k.
  destruct (round_half_up (q / u)) as [Hlo Hhi].
  set (k := Qfloor (q / u + (1 # 2))) in *.
  assert (Hq : (q == q / u * u)%Q).
  { field. intros H0. rewrite H0 in Hu. by apply Qlt_irrefl in Hu. }
  set (t := (q / u)%Q) in *. clearbody t k.
  assert (Hp1 : (0 <= (t - (inject_Z k - (1 # 2))) * u)%Q)
    by (apply Qmult_le_0_compat; lra).
  assert (Hp2 : (0 < (inject_Z k + (1 # 2) - t) * u)%Q)
    by (apply Qmult_lt_0_compat; lra).
  assert (H1 : (inject_Z k * u - u * (1 # 2) <= q)%Q) by lra.
  assert (H2 : (q < inject_Z k * u + u * (1 # 2))%Q) by lra.
  split; [exact H1|]. split; [exact H2|].
  intros m.
  assert (Hm : (m = k \/ m <= k - 1 \/ k + 1 <= m)%Z) by lia.
  destruct Hm as [-> | [Hm | Hm]]; [apply Qle_refl | |].
  - assert (Hi : (inject_Z m <= inject_Z k - 1)%Q).
    { unfold Z.sub in Hm. rewrite Zle_Qle, inject_Z_plus in Hm. exact Hm. }
    assert (Hp3 : (0 <= (inject_Z k - 1 - inject_Z m) * u)%Q)
      by (apply Qmult_le_0_compat; lra).
    pose proof (Qle_Qabs (q - inject_Z m * u)).
    apply Qabs_Qle_condition. split; lra.
  - assert (Hi : (inject_Z k + 1 <= inject_Z m)%Q).
    { rewrite Zle_Qle, inject_Z_plus in Hm. exact Hm. }
    assert (Hp3 : (0 <= (inject_Z m - (inject_Z k + 1)) * u)%Q)
      by (apply Qmult_le_0_compat; lra).
    pose proof (Qle_Qabs (- (q - inject_Z m * u))).
    pose proof (Qabs_opp (q - inject_Z m * u)).
    apply Qabs_Qle_condition. split; lra.
Qed.




(** Enabling snapping hands the current unit to the gizmo. *)
Lemma toggleSnap_on s :
  snapEnabled s = false ->
  snapEnabled (toggleSnap s) = true
  /\ snapSize (toggleSnap s) = snapSize s
  /\ translationSnap (toggleSnap s) = Some (snapSize s).
Proof. intros H. unfold toggleSnap. rewrite H. repeat split. Qed.

(** ** The shape switch *)

Lemma switch_default {A} (cases : list (string * A)) tag (d : A) :
  tag ∉ map fst cases -> switch cases tag d = d.
Proof.
  induction cases as [|[c body] cases IH]; intros Hnot; cbn [switch]; [reflexivity|].
  destruct (String.eqb_spec tag c) as [->|Hne].
  - exfalso. apply Hnot. cbn. constructor.
  - apply IH. intros Hin. apply Hnot. cbn. by constructor.
Qed.

Lemma switch_case {A} (cases : list (string * A)) tag (d : A) :
  tag ∈ map fst cases -> exists body, (tag, body) ∈ cases /\ switch cases tag d = body.
Proof.
  induction cases as [|[c body] cases IH]; intros Hin; cbn [switch].
  - by apply elem_of_nil in Hin.
  - destruct (String.eqb_spec tag c) as [->|Hne].
    + exists body. split; [constructor | reflexivity].
    + cbn in Hin. apply elem_of_cons in Hin as [?|Hin]; [done|].
      destruct (IH Hin) as (b & Hb & Heq). exists b. split; [by constructor | done].
Qed.

(** C6. For every shape kind that is not a case label of the switch,
    [addPrimitive] still builds its object: the geometry is
    [new THREE.BoxGeometry(1, 1, 1)], the object is appended to the
    registry under the name [Object_<counter>] with the kind it was
    asked for, and its mesh is in the scene, visible. *)
Theorem addPrimitive_unknown_kind (w : World) (kind : string) (s : State) :
  kind ∉ map fst shapes ->
  primitive_of kind = (Three.Primitive "BoxGeometry" [1; 1; 1]%Q, "Object")
  /\ exists o : nat,
       objects (addPrimitive w kind s) = objects s ++ [o]
       /\ Three.geometry (mesh_of (addPrimitive w kind s) o)
          = Three.Primitive "BoxGeometry" [1; 1; 1]%Q
       /\ type (record_of (addPrimitive w kind s) o) = kind
       /\ name (record_of (addPrimitive w kind s) o)
          = VStr ("Object_" +:+ pretty (objectCounter s))
       /\ mesh (record_of (addPrimitive w kind s) o) ∈ scene (addPrimitive w kind s)
       /\ Three.visible (mesh_of (addPrimitive w kind s) o) = true.
Proof.
  intros Hnot.
  assert (Hp : primitive_of kind = (Three.Primitive "BoxGeometry" [1; 1; 1]%Q, "Object")).
  { unfold primitive_of. by apply switch_default. }
  split; [exact Hp|].
  exists (S (S (next s))).
  destruct (addPrimitive_store w kind s) as (Ho & Hr & _ & _ & _ & Hs & Hg & Hv & _).
  rewrite Hp in Hr, Hg. cbn [fst snd] in Hr, Hg.
  unfold mesh_of, record_of. rewrite Ho, Hr, Hs, lookup_total_insert_eq. cbn [mesh type name].
  rewrite Hg, Hv. repeat apply conj; try reflexivity.
  apply elem_of_app. right. constructor.
Qed.

Lemma addPrimitive_unknown_kind_witness :
  exists o : nat,
    objects (addPrimitive demo_world "teapot" initial) = [o]
    /\ Three.geometry (mesh_of (addPrimitive demo_world "teapot" initial) o)
       = Three.Primitive "BoxGeometry" [1; 1; 1]%Q.
Proof.
  assert (Hnot : "teapot" ∉ map fst shapes).
  { intros Hin. apply list_elem_of_In in Hin. vm_compute in Hin. intuition discriminate. }
  destruct (addPrimitive_unknown_kind demo_world "teapot" initial Hnot)
    as (_ & o & Ho & Hg & _).
  exists o. split; [exact Ho | exact Hg].
Defined.

(** ** Numeric property edits *)

(** A string whose first character is neither white space, a digit, a
    sign, a dot nor [I] holds no numeric literal. *)
Lemma parseFloat_no_literal (c : ascii) (r : string) :
  is_ws c = false -> digit_of c = None ->
  c <> "+"%char -> c <> "-"%char -> c <> "."%char -> c <> "I"%char ->
  parseFloat (VStr (String c r)) = NaN.
Proof.
  intros Hws Hd Hplus Hminus Hdot HI.
  destruct c as [[] [] [] [] [] [] [] []];
    try discriminate Hws; try discriminate Hd;
    try (exfalso; apply Hplus; reflexivity);
    try (exfalso; apply Hminus; reflexivity);
    try (exfalso; apply Hdot; reflexivity);
    try (exfalso; apply HI; reflexivity);
    reflexivity.
Qed.

Lemma or_num_NaN d : or_num NaN d = d.
Proof. reflexivity. Qed.

Lemma or_num_zero q d : Qzero q = true -> or_num (Fin q) d = d.
Proof. intros H. unfold or_num, truthy_num. by rewrite H. Qed.

Lemma or_num_truthy n d : truthy_num d = true -> truthy_num (or_num n d) = true.
Proof. intros H. unfold or_num. by destruct (truthy_num n) eqn:E. Qed.

(** What a position, rotation or scale edit writes on the selected
    mesh, and what it leaves in [selectedObject]. *)
Lemma updateObjectProperty_transform w s sel v a :
  selectedObject s = Some sel ->
  let m := mesh (record_of s sel) in
  let after p := updateObjectProperty w (p +:+ axis_name a) v s in
  component a (Three.position (meshes (after "position") !!! m))
    = or_num (parseFloat v) (Fin 0)
  /\ angle a (Three.rotation (meshes (after "rotation") !!! m))
    = Three.degToRad (or_num (parseFloat v) (Fin 0))
  /\ component a (Three.scale (meshes (after "scale") !!! m))
    = or_num (parseFloat v) (Fin 1)
  /\ forall p, p ∈ ["position"; "rotation"; "scale"] ->
       selectedObject (after p) = Some (next s)
       /\ record_of (after p) (next s) = record_of s sel.
Proof.
  intros Hsel m after. subst after m.
  unfold updateObjectProperty. rewrite Hsel.
  repeat split.
  - destruct a; cbv [String.append axis_name]; cbn -[parseFloat lookup_total insert];
      unfold write_mesh; cbn -[parseFloat lookup_total insert];
      rewrite lookup_total_insert_eq; reflexivity.
  - destruct a; cbv [String.append axis_name]; cbn -[parseFloat lookup_total insert];
      unfold write_mesh; cbn -[parseFloat lookup_total insert];
      rewrite lookup_total_insert_eq; reflexivity.
  - destruct a; cbv [String.append axis_name]; cbn -[parseFloat lookup_total insert];
      unfold write_mesh; cbn -[parseFloat lookup_total insert];
      rewrite lookup_total_insert_eq; reflexivity.
  - repeat (apply elem_of_cons in H as [->|H];
            [destruct a; cbv [String.append axis_name]; reflexivity|]).
    by apply elem_of_nil in H.
  - repeat (apply elem_of_cons in H as [->|H];
            [destruct a; cbv [String.append axis_name]; unfold record_of;
             cbn -[parseFloat lookup_total insert];
             unfold write_mesh; cbn -[parseFloat lookup_total insert];
             apply lookup_total_insert_eq|]).
    by apply elem_of_nil in H.
Qed.




(** C10. When an object is selected and the submitted value parses to
    the number 0, a scale field is set to 1 while a position or
    rotation field is set to 0; and whatever is submitted, the scale
    component that the edit writes is never 0 (nor NaN). *)
Theorem updateObjectProperty_zero (w : World) (s : State) (sel : nat)
    (v : value) (q : Q) (a : Axis) :
  selectedObject s = Some sel ->
  parseFloat v = Fin q -> (q == 0)%Q ->
  let m := mesh (record_of s sel) in
  let after u p := updateObjectProperty w (p +:+ axis_name a) u s in
  component a (Three.scale (meshes (after v "scale") !!! m)) = Fin 1
  /\ component a (Three.position (meshes (after v "position") !!! m)) = Fin 0
  /\ angle a (Three.rotation (meshes (after v "rotation") !!! m)) = Three.degToRad (Fin 0)
  /\ forall u : value,
       truthy_num (component a (Three.scale (meshes (after u "scale") !!! m))) = true.
Proof.
  intros Hsel Hparse Hq m after.
  assert (Hz : Qzero q = true).
  { unfold Qzero. unfold Qeq in Hq. cbn in Hq. apply Z.eqb_eq. lia. }
  destruct (updateObjectProperty_transform w s sel v a Hsel) as (Hp & Hr & Hs & _).
  rewrite Hparse in Hp, Hr, Hs. rewrite or_num_zero in Hp, Hr, Hs by exact Hz.
  repeat split; try assumption.
  intros u.
  destruct (updateObjectProperty_transform w s sel u a Hsel) as (_ & _ & Hu & _).
  subst after m. cbv beta. rewrite Hu. by apply or_num_truthy.
Qed.

Lemma updateObjectProperty_zero_witness :
  component AxisY
    (Three.scale
       (meshes (updateObjectProperty demo_world "scaleY" (VStr "0") demo_cube) !!! 1))
  = Fin 1
  /\ component AxisY
       (Three.position
          (meshes (updateObjectProperty demo_world "positionY" (VStr "0") demo_cube) !!! 1))
     = Fin 0.
Proof.
  destruct (updateObjectProperty_zero demo_world demo_cube 2 (VStr "0") _ AxisY
              eq_refl eq_refl ltac:(reflexivity)) as (Hs & Hp & _).
  split; [exact Hs | exact Hp].
Defined.

(** ** Selection and the emissive channel *)

Lemma material_of_set_materials mats s o :
  material_of (set_materials mats s) o = mats !!! mat_loc s o.
Proof. reflexivity. Qed.

Lemma material_of_selectObject obj addToSelection s o :
  material_of (selectObject obj addToSelection s) o
  = paint 0x333333 (map (mat_loc s) (new_selection obj addToSelection s))
      (paint 0x000000 (map (mat_loc s) (objects s)) (materials s)) !!! mat_loc s o.
Proof. rewrite selectObject_eq. reflexivity. Qed.

Lemma selectedObjects_selectObject obj addToSelection s :
  selectedObjects (selectObject obj addToSelection s) = new_selection obj addToSelection s.
Proof. rewrite selectObject_eq. reflexivity. Qed.

(** C9. [selectObject], whatever its arguments, first sets the emissive
    colour of every object of the registry to 0x000000, and when it
    returns the emissive colour of every such object is 0x333333 if its
    material belongs to a member of the new selection and 0x000000
    otherwise. Hence a colour written by the emissive field of the
    property editor is gone after the next call. *)
Theorem selectObject_overwrites_emissive (s : State) (obj : option nat)
    (addToSelection : bool) (o : nat) :
  o ∈ objects s ->
  Three.emissive (material_of (forEach (setEmissive 0x000000) (objects s) s) o) = 0x000000%Z
  /\ Three.emissive (material_of (selectObject obj addToSelection s) o)
     = (if decide (mat_loc s o
                   ∈ map (mat_loc s) (selectedObjects (selectObject obj addToSelection s)))
        then 0x333333 else 0x000000)%Z
  /\ forall (w : World) (colour : value) (p : nat),
       let edited := updateObjectProperty w "emissive" colour s in
       p ∈ objects edited ->
       Three.emissive (material_of (selectObject obj addToSelection edited) p) = 0x000000%Z
       \/ Three.emissive (material_of (selectObject obj addToSelection edited) p) = 0x333333%Z.
Proof.
  intros Hin.
  assert (Hgen : forall st q, q ∈ objects st ->
            Three.emissive (material_of (selectObject obj addToSelection st) q)
            = (if decide (mat_loc st q
                          ∈ map (mat_loc st)
                              (selectedObjects (selectObject obj addToSelection st)))
               then 0x333333 else 0x000000)%Z).
  { intros st q Hq. rewrite material_of_selectObject, selectedObjects_selectObject.
    rewrite paint_emissive.
    destruct (decide (mat_loc st q ∈ _)); [reflexivity|].
    rewrite paint_emissive.
    destruct (decide (mat_loc st q ∈ map (mat_loc st) (objects st))) as [|Hn]; [reflexivity|].
    exfalso. apply Hn. apply list_elem_of_fmap. exists q. split; [reflexivity | exact Hq]. }
  split; [|split].
  - rewrite forEach_setEmissive, material_of_set_materials, paint_emissive.
    destruct (decide (mat_loc s o ∈ map (mat_loc s) (objects s))) as [|Hn]; [reflexivity|].
    exfalso. apply Hn. apply list_elem_of_fmap. exists o. split; [reflexivity | exact Hin].
  - apply Hgen, Hin.
  - intros w colour p edited Hp. rewrite (Hgen edited p Hp).
    destruct (decide _); [right | left]; reflexivity.
Qed.

Lemma selectObject_overwrites_emissive_witness :
  Three.emissive
    (material_of
       (selectObject None false
          (updateObjectProperty demo_world "emissive" (VNum (Fin 0xff0000)) demo_cube)) 2)
  = 0x000000%Z.
Proof.
  assert (Hin : 2 ∈ objects demo_cube) by (vm_compute; constructor).
  destruct (selectObject_overwrites_emissive demo_cube None false 2 Hin) as (_ & _ & H).
  destruct (H demo_world (VNum (Fin 0xff0000)) 2) as [H0 | H3].
  - vm_compute. constructor.
  - exact H0.
  - vm_compute in H3. discriminate H3.
Defined.

Example emissive_edit_is_visible_before_selecting :
  Three.emissive
    (material_of (updateObjectProperty demo_world "emissive" (VNum (Fin 0xff0000)) demo_cube) 2)
  = 0xff0000%Z.
Proof. vm_compute. reflexivity. Qed.

(** ** Handlers that leave the React state alone *)

Lemma with_heap_twice a b s : with_heap a (with_heap b s) = with_heap a s.
Proof. reflexivity. Qed.

Lemma with_heap_frame a b s : b = with_heap b s -> with_heap a b = with_heap a s.
Proof. intros H. rewrite H. reflexivity. Qed.

Lemma heap_only_id : heap_only (fun s => s).
Proof. intros s. destruct s; reflexivity. Qed.

Lemma heap_only_compose f g : heap_only f -> heap_only g -> heap_only (fun s => f (g s)).
Proof.
  intros Hf Hg s.
  transitivity (with_heap (f (g s)) (g s)); [apply Hf | apply with_heap_frame, Hg].
Qed.

Lemma heap_only_write_record o f : heap_only (write_record o f).
Proof. intros s. destruct s; reflexivity. Qed.

Lemma heap_only_write_mesh m f : heap_only (write_mesh m f).
Proof. intros s. destruct s; reflexivity. Qed.

Lemma heap_only_write_material m f : heap_only (write_material m f).
Proof. intros s. destruct s; reflexivity. Qed.

Lemma heap_only_scene_remove (f : State -> nat) : heap_only (fun s => scene_remove (f s) s).
Proof. intros s. destruct s; reflexivity. Qed.

Lemma heap_only_forEach body l : (forall o, heap_only (body o)) -> heap_only (forEach body l).
Proof.
  intros Hbody. unfold forEach. induction l as [|o l IH]; intros s; cbn [foldl].
  - apply heap_only_id.
  - transitivity (with_heap (foldl (fun st o => body o st) (body o s) l) (body o s));
      [apply IH | apply with_heap_frame, Hbody].
Qed.

Lemma heap_only_switch cases tag d :
  heap_only d -> Forall (fun c => heap_only c.2) cases -> heap_only (switch cases tag d).
Proof.
  intros Hd Hc. induction Hc as [|[c body] cases Hb _ IH]; cbn [switch]; [exact Hd|].
  destruct (String.eqb tag c); [exact Hb | exact IH].
Qed.

Lemma heap_only_rehydrate_one sv : heap_only (fun s => (rehydrate_one sv s).2).
Proof. intros s. destruct s; reflexivity. Qed.

Lemma heap_only_rehydrate l : heap_only (fun s => (rehydrate l s).2).
Proof.
  induction l as [|sv l IH]; intros s; cbn [rehydrate].
  - apply heap_only_id.
  - destruct (rehydrate_one sv s) as [o s1] eqn:E1.
    destruct (rehydrate l s1) as [os s2] eqn:E2. cbn [snd].
    pose proof (IH s1) as H2. cbv beta in H2. rewrite E2 in H2. cbn [snd] in H2.
    pose proof (heap_only_rehydrate_one sv s) as H1. cbv beta in H1. rewrite E1 in H1. cbn [snd] in H1.
    transitivity (with_heap s2 s1); [exact H2 | apply with_heap_frame, H1].
Qed.

Lemma heap_only_alloc_materials mats : heap_only (alloc_materials mats).
Proof.
  induction mats as [|m mats IH]; intros s; cbn [alloc_materials].
  - apply heap_only_id.
  - etransitivity; [apply IH|]. apply with_heap_frame.
    cbn [alloc_material snd]. destruct s; reflexivity.
Qed.

Lemma heap_only_import_child w base counter child acc :
  (import_child w base counter child acc).2
  = with_heap (import_child w base counter child acc).2 acc.2.
Proof.
  destruct acc as [os s]. unfold import_child.
  destruct (isMesh child); [|apply heap_only_id].
  destruct (child_material child); destruct s; reflexivity.
Qed.

Lemma heap_only_import w base counter children acc :
  (foldl (fun acc child => import_child w base counter child acc) acc children).2
  = with_heap
      (foldl (fun acc child => import_child w base counter child acc) acc children).2 acc.2.
Proof.
  revert acc. induction children as [|c children IH]; intros acc; cbn [foldl].
  - apply heap_only_id.
  - etransitivity; [apply IH|]. apply with_heap_frame, heap_only_import_child.
Qed.

Lemma heap_only_undoStack f s : heap_only f -> undoStack (f s) = undoStack s.
Proof. intros H. rewrite H. reflexivity. Qed.


Lemma heap_only_updates w sel mesh mat v property :
  heap_only
    (switch
       [ ("name", write_record sel (set_name v));
         ("positionX", write_mesh mesh (on_position Three.set_x (or_num (parseFloat v) (Fin 0))));
         ("positionY", write_mesh mesh (on_position Three.set_y (or_num (parseFloat v) (Fin 0))));
         ("positionZ", write_mesh mesh (on_position Three.set_z (or_num (parseFloat v) (Fin 0))));
         ("rotationX", write_mesh mesh
            (on_rotation Three.set_ex (Three.degToRad (or_num (parseFloat v) (Fin 0)))));
         ("rotationY", write_mesh mesh
            (on_rotation Three.set_ey (Three.degToRad (or_num (parseFloat v) (Fin 0)))));
         ("rotationZ", write_mesh mesh
            (on_rotation Three.set_ez (Three.degToRad (or_num (parseFloat v) (Fin 0)))));
         ("scaleX", write_mesh mesh (on_scale Three.set_x (or_num (parseFloat v) (Fin 1))));
         ("scaleY", write_mesh mesh (on_scale Three.set_y (or_num (parseFloat v) (Fin 1))));
         ("scaleZ", write_mesh mesh (on_scale Three.set_z (or_num (parseFloat v) (Fin 1))));
         ("color", write_material mat
            (fun m => Three.set_color (Color_set w (Three.color m) v) m));
         ("metalness", write_material mat (Three.set_metalness (parseFloat v)));
         ("roughness", write_material mat (Three.set_roughness (parseFloat v)));
         ("wireframe", write_material mat (Three.set_wireframe v));
         ("opacity", write_material mat
            (fun m => Three.set_transparent (Js.lt (parseFloat v) (Fin 1))
                        (Three.set_opacity (parseFloat v) m)));
         ("emissive", write_material mat
            (fun m => Three.set_emissive (Color_set w (Three.emissive m) v) m));
         ("emissiveIntensity", write_material mat
            (Three.set_emissiveIntensity (parseFloat v))) ]
       property (fun st => st)).
Proof.
  apply heap_only_switch; [apply heap_only_id|].
  repeat (apply Forall_cons; split;
          [first [apply heap_only_write_record | apply heap_only_write_mesh
                 | apply heap_only_write_material]|]).
  apply Forall_nil. exact I.
Qed.

(** ** The undo stack under each handler *)

Lemma undoStack_selectObject obj addToSelection s :
  undoStack (selectObject obj addToSelection s) = undoStack s.
Proof. rewrite selectObject_eq. reflexivity. Qed.

Lemma undoStack_addPrimitive w type s :
  undoStack (addPrimitive w type s) = push_undo (capture_all s) (undoStack s).
Proof.
  unfold addPrimitive. destruct (primitive_of type) as [g prefix].
  cbn [alloc_material alloc_mesh alloc_record]. rewrite selectObject_eq. reflexivity.
Qed.

Lemma undoStack_deleteObject obj s :
  undoStack (deleteObject (Some obj) s) = push_undo (capture_all s) (undoStack s).
Proof.
  unfold deleteObject. destruct (selectedObject (saveUndoState s)); [|reflexivity].
  destruct (same_id _ _ _); reflexivity.
Qed.

Lemma undoStack_deleteSelectedObjects s :
  undoStack (deleteSelectedObjects s)
  = if negb (bool_decide (selectedObjects s = []))
    then push_undo (capture_all s) (undoStack s) else undoStack s.
Proof.
  unfold deleteSelectedObjects. destruct (selectedObjects s) as [|a l]; [reflexivity|].
  cbn [negb bool_decide]. cbn [undoStack set_attached set_selectedObject set_selectedObjects set_objects].
  rewrite heap_only_undoStack; [reflexivity|].
  apply heap_only_forEach. intros o. apply (heap_only_scene_remove (fun st => mesh (record_of st o))).
Qed.

Lemma undoStack_selectAllObjects s : undoStack (selectAllObjects s) = undoStack s.
Proof.
  unfold selectAllObjects. rewrite forEach_setEmissive. destruct (last (objects s)); reflexivity.
Qed.

Lemma undoStack_duplicateObject w obj s :
  undoStack (duplicateObject w (Some obj) s) = push_undo (capture_all s) (undoStack s).
Proof.
  unfold duplicateObject.
  cbn [alloc_material alloc_mesh alloc_record]. rewrite selectObject_eq. reflexivity.
Qed.

Lemma undoStack_updateObjectProperty w property v s :
  undoStack (updateObjectProperty w property v s) = undoStack s.
Proof.
  unfold updateObjectProperty. destruct (selectedObject s) as [sel|]; [|reflexivity].
  cbn [alloc_record undoStack set_selectedObject set_next set_records].
  apply heap_only_undoStack, heap_only_updates.
Qed.

Lemma undoStack_importModel w result s :
  undoStack (importModel w (Some result) s) = push_undo (capture_all s) (undoStack s).
Proof.
  unfold importModel. destruct result as [mats children|]; [|reflexivity].
  destruct (foldl _ _ children) as [newObjects s'] eqn:E.
  assert (Hs' : undoStack s' = push_undo (capture_all s) (undoStack s)).
  { pose proof (heap_only_import w (next (saveUndoState s))
                  (objectCounter (alloc_materials mats (saveUndoState s)))
                  children ([], alloc_materials mats (saveUndoState s))) as H.
    rewrite E in H. cbn [snd] in H. rewrite H.
    cbn [undoStack with_heap set_records set_meshes set_materials set_next set_scene set_calls].
    rewrite (heap_only_undoStack _ _ (heap_only_alloc_materials mats)). reflexivity. }
  destruct newObjects; [|rewrite selectObject_eq]; exact Hs'.
Qed.

Lemma undoStack_clearScene s :
  undoStack (clearScene true s) = push_undo (capture_all s) (undoStack s).
Proof.
  unfold clearScene.
  cbn [undoStack set_attached set_selectedObject set_objects].
  rewrite heap_only_undoStack; [reflexivity|].
  apply heap_only_forEach. intros o. apply (heap_only_scene_remove (fun st => mesh (record_of st o))).
Qed.

(** Every handler but [undo] leaves the stack as it is or pushes the
    snapshot of the state it starts from. *)
Lemma undoStack_step w op s :
  op <> Undo ->
  undoStack (step w op s)
  = if snapshots op s then push_undo (capture_all s) (undoStack s) else undoStack s.
Proof.
  intros Hop. destruct op as [type|obj a|[obj|]| | |[obj|]|[obj|]|property v| |[r|]|[|]| |size];
    cbn [step snapshots]; try reflexivity.
  - apply undoStack_addPrimitive.
  - apply undoStack_selectObject.
  - apply undoStack_deleteObject.
  - apply undoStack_deleteSelectedObjects.
  - apply undoStack_selectAllObjects.
  - apply undoStack_duplicateObject.
  - apply undoStack_updateObjectProperty.
  - contradiction.
  - apply undoStack_importModel.
  - apply undoStack_clearScene.
  - unfold updateSnapSize. cbn [snapEnabled set_snapSize]. destruct (snapEnabled s); reflexivity.
Qed.

(** ** Rebuilding the registry from a snapshot *)

Lemma agree_below_refl n s : agree_below n s s.
Proof. intros k _. auto. Qed.

Lemma agree_below_trans n m s1 s2 s3 :
  n <= m -> agree_below n s1 s2 -> agree_below m s2 s3 -> agree_below n s1 s3.
Proof.
  intros Hle H12 H23 k Hk.
  destruct (H12 k Hk) as (Hr & Hm & Ht).
  destruct (H23 k ltac:(lia)) as (Hr' & Hm' & Ht').
  rewrite Hr', Hm', Ht'. auto.
Qed.

Lemma rehydrate_one_eq sv s :
  rehydrate_one sv s
  = (S (S (next s)),
     set_next (S (S (S (next s))))
       (set_records
          (<[S (S (next s)) :=
               mkSceneObject (saved_id sv) (saved_name sv) (saved_type sv) (S (next s))]>
             (records s))
          (set_scene (scene s ++ [S (next s)])
             (set_meshes
                (<[S (next s) :=
                     Three.mkMesh (restored_geometry (saved_type sv)) (next s)
                       (saved_position sv) (saved_rotation sv) (saved_scale sv)
                       (saved_visible sv) true true (Some (saved_id sv))]> (meshes s))
                (set_materials
                   (<[next s :=
                        Three.set_roughness (saved_roughness sv)
                          (Three.set_metalness (saved_metalness sv)
                             (Three.set_color (saved_color sv) Three.MeshStandardMaterial))]>
                      (materials s)) s))))).
Proof. reflexivity. Qed.

Lemma rehydrate_one_next sv s : next (rehydrate_one sv s).2 = S (S (S (next s))).
Proof. rewrite rehydrate_one_eq. reflexivity. Qed.

Lemma rehydrate_one_agree sv s : agree_below (next s) s (rehydrate_one sv s).2.
Proof.
  intros k Hk. rewrite rehydrate_one_eq.
  cbn [snd records meshes materials set_next set_records set_scene set_meshes set_materials].
  rewrite !lookup_total_insert_ne by lia. auto.
Qed.

Lemma rehydrate_one_capture sv s :
  (rehydrate_one sv s).1 = S (S (next s))
  /\ records (rehydrate_one sv s).2 !!! S (S (next s))
     = mkSceneObject (saved_id sv) (saved_name sv) (saved_type sv) (S (next s))
  /\ Three.material (meshes (rehydrate_one sv s).2 !!! S (next s)) = next s
  /\ capture (rehydrate_one sv s).2 (S (S (next s))) = sv.
Proof.
  rewrite rehydrate_one_eq. cbn [fst snd]. split; [reflexivity|]. split; [|split].
  - cbn [records set_next set_records]. apply lookup_total_insert_eq.
  - cbn [meshes set_next set_records set_scene set_meshes].
    rewrite lookup_total_insert_eq. reflexivity.
  - unfold capture, material_of, mesh_of, record_of.
    cbn [records meshes materials set_next set_records set_scene set_meshes set_materials].
    repeat (rewrite !lookup_total_insert_eq; cbn [mesh Three.material]).
    destruct sv; reflexivity.
Qed.

Lemma rehydrate_next l s : next s <= next (rehydrate l s).2.
Proof.
  revert s. induction l as [|sv l IH]; intros s; cbn [rehydrate]; [cbn [snd]; lia|].
  destruct (rehydrate_one sv s) as [o s1] eqn:E1.
  destruct (rehydrate l s1) as [os s2] eqn:E2. cbn [snd].
  pose proof (IH s1) as H. rewrite E2 in H. cbn [snd] in H.
  pose proof (rehydrate_one_next sv s) as Hn. rewrite E1 in Hn. cbn [snd] in Hn. lia.
Qed.

Lemma rehydrate_agree l s : agree_below (next s) s (rehydrate l s).2.
Proof.
  revert s. induction l as [|sv l IH]; intros s; cbn [rehydrate]; [apply agree_below_refl|].
  destruct (rehydrate_one sv s) as [o s1] eqn:E1.
  destruct (rehydrate l s1) as [os s2] eqn:E2. cbn [snd].
  pose proof (IH s1) as H. rewrite E2 in H. cbn [snd] in H.
  pose proof (rehydrate_one_agree sv s) as H1. rewrite E1 in H1. cbn [snd] in H1.
  pose proof (rehydrate_one_next sv s) as Hn. rewrite E1 in Hn. cbn [snd] in Hn.
  apply (agree_below_trans (next s) (next s1) s s1 s2); [lia | exact H1 | exact H].
Qed.

(** Reading the rebuilt objects back gives the snapshot they were built from. *)
Lemma rehydrate_capture l s :
  map (capture (rehydrate l s).2) (rehydrate l s).1 = l.
Proof.
  revert s. induction l as [|sv l IH]; intros s; cbn [rehydrate]; [reflexivity|].
  destruct (rehydrate_one sv s) as [o s1] eqn:E1.
  destruct (rehydrate l s1) as [os s2] eqn:E2. cbn [fst snd map].
  pose proof (IH s1) as H. rewrite E2 in H. cbn [fst snd] in H. rewrite H.
  f_equal.
  destruct (rehydrate_one_capture sv s) as (Ho & Hrec & Hmat & Hcap).
  rewrite E1 in Ho, Hrec, Hmat, Hcap. cbn [fst snd] in Ho, Hrec, Hmat, Hcap. subst o.
  pose proof (rehydrate_agree l s1) as Hag. rewrite E2 in Hag. cbn [snd] in Hag.
  pose proof (rehydrate_one_next sv s) as Hn. rewrite E1 in Hn. cbn [snd] in Hn.
  rewrite <- Hcap. unfold capture, material_of, mesh_of, record_of.
  destruct (Hag (S (S (next s))) ltac:(lia)) as (Hr & _ & _). rewrite Hr, Hrec. cbn [mesh].
  destruct (Hag (S (next s)) ltac:(lia)) as (_ & Hm & _). rewrite Hm.
  rewrite Hmat.
  destruct (Hag (next s) ltac:(lia)) as (_ & _ & Ht). rewrite Ht. reflexivity.
Qed.

Lemma capture_set_react (s t : State) o :
  records t = records s -> meshes t = meshes s -> materials t = materials s ->
  capture t o = capture s o.
Proof.
  intros Hr Hm Ht. unfold capture, material_of, mesh_of, record_of. by rewrite Hr, Hm, Ht.
Qed.

(** [undo] pops the newest snapshot and rebuilds the registry from it. *)
Lemma undo_pops s previousState :
  last (undoStack s) = Some previousState ->
  capture_all (undo s) = previousState
  /\ undoStack (undo s) = slice_but_last (undoStack s).
Proof.
  intros Hlast. unfold undo. rewrite Hlast.
  set (s2 := forEach _ (objects s) _).
  destruct (rehydrate previousState s2) as [newObjects s3] eqn:E.
  pose proof (rehydrate_capture previousState s2) as Hcap. rewrite E in Hcap.
  cbn [fst snd] in Hcap.
  pose proof (heap_only_rehydrate previousState s2) as Hh. cbv beta in Hh. rewrite E in Hh.
  cbn [snd] in Hh.
  split.
  - unfold capture_all. cbn [objects set_attached set_selectedObject set_objects].
    transitivity (map (capture s3) newObjects); [|exact Hcap].
    apply map_ext. intros o. by apply capture_set_react.
  - cbn [undoStack set_attached set_selectedObject set_objects]. rewrite Hh.
    cbn [undoStack with_heap set_records set_meshes set_materials set_next set_scene set_calls].
    subst s2. rewrite heap_only_undoStack; [reflexivity|].
    apply heap_only_forEach. intros o.
    apply (heap_only_scene_remove (fun st => mesh (record_of st o))).
Qed.

Lemma undo_empty s : undoStack s = [] -> undo s = s.
Proof. intros H. unfold undo. rewrite H. reflexivity. Qed.

(** ** The bounded stack *)

Lemma push_undo_slice x st : push_undo x st = slice_last 20 (st ++ [x]).
Proof.
  unfold push_undo, slice_last. destruct (Nat.ltb_spec 20 (length (st ++ [x]))) as [H|H].
  - reflexivity.
  - replace (length (st ++ [x]) - 20) with 0 by lia. reflexivity.
Qed.

Lemma last_drop {A} (l : list A) n : n < length l -> last (drop n l) = last l.
Proof.
  revert n. induction l as [|a l IH]; intros n Hn; [cbn in Hn; lia|].
  destruct n as [|n]; [reflexivity|]. cbn [drop]. cbn [length] in Hn.
  rewrite IH by lia. destruct l; [cbn in Hn; lia | reflexivity].
Qed.

Lemma last_push_undo x st : last (push_undo x st) = Some x.
Proof.
  rewrite push_undo_slice. unfold slice_last.
  rewrite last_drop by (rewrite length_app; cbn; lia). apply last_snoc.
Qed.

Lemma length_push_undo x st : length (push_undo x st) <= 20.
Proof.
  rewrite push_undo_slice. unfold slice_last. rewrite length_drop. lia.
Qed.

Lemma pushes_slice h st :
  length st <= 20 -> pushes h st = slice_last 20 (st ++ h).
Proof.
  unfold pushes. revert st. induction h as [|x h IH]; intros st Hst; cbn [foldl].
  - rewrite app_nil_r. unfold slice_last. replace (length st - 20) with 0 by lia. reflexivity.
  - rewrite IH by apply length_push_undo.
    rewrite push_undo_slice. unfold slice_last.
    rewrite (cons_middle x st h), app_assoc.
    set (L := st ++ [x]).
    assert (HL : length L = length st + 1) by (subst L; rewrite length_app; cbn; lia).
    rewrite <- (drop_app_le L h) by lia.
    rewrite drop_drop. f_equal. rewrite length_drop, !length_app. lia.
Qed.

Lemma run_snoc w ops op s : run w (ops ++ [op]) s = step w op (run w ops s).
Proof. unfold run. by rewrite foldl_snoc. Qed.

Lemma run_cons w op ops s : run w (op :: ops) s = run w ops (step w op s).
Proof. reflexivity. Qed.

Lemma undoStack_run w ops s :
  Undo ∉ ops -> undoStack (run w ops s) = pushes (history w ops s) (undoStack s).
Proof.
  revert s. induction ops as [|op ops IH]; intros s Hno; [reflexivity|].
  rewrite run_cons, IH by (intros H; apply Hno; by constructor).
  cbn [history]. unfold pushes. rewrite foldl_app.
  rewrite undoStack_step by (intros ->; apply Hno; constructor).
  destruct (snapshots op s); reflexivity.
Qed.

Lemma undoStack_undo s : undoStack (undo s) = slice_but_last (undoStack s).
Proof.
  destruct (last (undoStack s)) as [p|] eqn:E.
  - by destruct (undo_pops s p E).
  - apply last_None in E. rewrite undo_empty by exact E. rewrite E. reflexivity.
Qed.

Lemma undos_S k s : undos (S k) s = undo (undos k s).
Proof. reflexivity. Qed.

Lemma undoStack_undos k s :
  undoStack (undos k s) = take (length (undoStack s) - k) (undoStack s).
Proof.
  induction k as [|k IH]; cbn [undos].
  - rewrite Nat.sub_0_r. by rewrite firstn_all.
  - rewrite undoStack_undo, IH. unfold slice_but_last.
    rewrite length_take, take_take. f_equal. lia.
Qed.

Lemma capture_undos k s p :
  undoStack s !! (length (undoStack s) - 1 - k) = Some p ->
  k < length (undoStack s) ->
  capture_all (undos (S k) s) = p.
Proof.
  intros Hp Hk. cbn [undos].
  apply (undo_pops (undos k s) p).
  rewrite undoStack_undos. rewrite last_lookup, length_take.
  rewrite lookup_take_lt by lia.
  rewrite <- Hp. f_equal. lia.
Qed.

Lemma length_undoStack_step w op s :
  length (undoStack s) <= 20 -> length (undoStack (step w op s)) <= 20.
Proof.
  intros Hs.
  destruct op as [type|obj a|obj| | |obj|obj|property v| |file|confirmed| |size];
    try (rewrite undoStack_step by discriminate;
         destruct (snapshots _ s); [apply length_push_undo | exact Hs]).
  cbn [step]. rewrite undoStack_undo. unfold slice_but_last. rewrite length_take. lia.
Qed.

Lemma slice_last_app {A} (st h : list A) n :
  n <= length h -> slice_last n (st ++ h) = slice_last n h.
Proof.
  intros Hn. unfold slice_last. rewrite length_app.
  rewrite drop_app_ge by lia. f_equal. lia.
Qed.

(** C3. The undo history never holds more than 20 snapshots: in any
    state in which it holds at most 20, every handler, [undo]
    included, leaves at most 20, so this is so throughout a session.
    After any run of handlers without [undo], from such a state, the
    stack is the last 20 of what it held followed by the snapshots
    taken since, oldest first. Once 20 or more have been taken it
    consists of the 20 most recent of them alone: the [k]-th
    successive [undo], for [k] from 1 to 20, rebuilds the registry from
    the [k]-th most recent snapshot, and the 21st [undo] changes
    nothing, older snapshots having been dropped from the front as
    newer ones were pushed. *)
Theorem undo_history_bounded (w : World) (ops : list Op) (s : State) :
  length (undoStack s) <= 20 ->
  length (undoStack (run w ops s)) <= 20
  /\ (Undo ∉ ops ->
      let s' := run w ops s in
      let h := history w ops s in
      undoStack s' = slice_last 20 (undoStack s ++ h)
      /\ (20 <= length h ->
            undoStack s' = slice_last 20 h
            /\ length (undoStack s') = 20
            /\ (forall k, k < 20 ->
                  Some (capture_all (undos (S k) s')) = h !! (length h - 1 - k))
            /\ undos 21 s' = undos 20 s')).
Proof.
  intros Hs. split.
  - revert s Hs. induction ops as [|op ops IH]; intros s Hs; [exact Hs|].
    rewrite run_cons. apply IH. by apply length_undoStack_step.
  - intros Hno s' h.
    assert (Hstack : undoStack s' = slice_last 20 (undoStack s ++ h)).
    { subst s' h. rewrite undoStack_run by exact Hno. by apply pushes_slice. }
    split; [exact Hstack|]. intros Hmany.
    assert (Hrecent : undoStack s' = slice_last 20 h).
    { rewrite Hstack. by apply slice_last_app. }
    assert (Hlen20 : length (undoStack s') = 20).
    { rewrite Hrecent. unfold slice_last. rewrite length_drop. lia. }
    split; [exact Hrecent|]. split; [exact Hlen20|]. split.
    + intros k Hk.
      assert (Hsome : is_Some (h !! (length h - 1 - k))) by (apply lookup_lt_is_Some; lia).
      destruct Hsome as [p Hp]. rewrite Hp. f_equal.
      apply capture_undos; [|lia].
      rewrite Hlen20, Hrecent. unfold slice_last. rewrite lookup_drop.
      rewrite <- Hp. f_equal. lia.
    + rewrite (undos_S 20). apply undo_empty. rewrite undoStack_undos, Hlen20. reflexivity.
Qed.

Lemma undo_history_bounded_witness :
  let s := run demo_world [AddPrimitive "cube"; AddPrimitive "cube"; Undo] initial in
  let s' := run demo_world (replicate 21 (AddPrimitive "cube")) s in
  length (undoStack s) <= 20
  /\ length (undoStack s') = 20
  /\ undos 21 s' = undos 20 s'
  /\ length (undoStack (run demo_world (replicate 30 Undo) s')) <= 20.
Proof.
  cbv zeta.
  set (s := run demo_world [AddPrimitive "cube"; AddPrimitive "cube"; Undo] initial).
  assert (Hs : length (undoStack s) <= 20).
  { apply (undo_history_bounded demo_world
             [AddPrimitive "cube"; AddPrimitive "cube"; Undo] initial). cbn. lia. }
  assert (Hno : Undo ∉ replicate 21 (AddPrimitive "cube")).
  { intros H. apply list_elem_of_In in H. vm_compute in H. intuition discriminate. }
  destruct (undo_history_bounded demo_world (replicate 21 (AddPrimitive "cube")) s Hs)
    as (Hb & Hrec).
  destruct (Hrec Hno) as (_ & Hmany).
  assert (Hh : 20 <= length (history demo_world (replicate 21 (AddPrimitive "cube")) s))
    by (vm_compute; lia).
  destruct (Hmany Hh) as (_ & Hlen & _ & Hlast).
  split; [exact Hs|]. split; [exact Hlen|]. split; [exact Hlast|].
  apply (undo_history_bounded demo_world (replicate 30 Undo)). exact Hb.
Defined.

Lemma capture_all_saveUndoState s : capture_all (saveUndoState s) = capture_all s.
Proof. reflexivity. Qed.

Lemma capture_agree s s' o o' :
  capture s' o' = capture s o -> recorded_fields_agree s s' o o'.
Proof.
  unfold capture, recorded_fields_agree. intros H. injection H. intros. repeat apply conj; assumption.
Qed.

Lemma capture_all_restores s s' : capture_all s' = capture_all s -> restores s s'.
Proof.
  unfold capture_all, restores, live_ids. intros H. split.
  - apply (f_equal (map saved_id)) in H. rewrite !map_map in H. exact H.
  - revert H. generalize (objects s') as l'. induction (objects s) as [|o l IH];
      intros [|o' l'] H; try discriminate H; constructor; cbn [map] in H.
    + apply capture_agree. congruence.
    + apply IH. congruence.
Qed.





(** ** Selection *)

Lemma last_elem_of {A} (l : list A) x : last l = Some x -> x ∈ l.
Proof.
  intros H. apply last_Some in H as [l' ->]. apply elem_of_app. right. constructor.
Qed.

(** [selectObject] always leaves the selection invariant in place, and
    so does [deleteSelectedObjects]. *)
Lemma selectObject_invariant obj addToSelection s :
  selection_invariant (selectObject obj addToSelection s).
Proof.
  rewrite selectObject_eq. cbv zeta. set (sel := new_selection obj addToSelection s).
  unfold selection_invariant.
  cbn [selectedObjects selectedObject attached set_selectedObjects set_selectedObject
       set_attached].
  split.
  - intros Hne. destruct (last sel) as [p|] eqn:E.
    + exists p. split; [reflexivity|]. apply list_elem_of_fmap. exists p.
      split; [reflexivity | by apply last_elem_of].
    + apply last_None in E. contradiction.
  - destruct (last sel) as [p|] eqn:E; cbn [fmap option_fmap option_map].
    + split; [|eauto]. intros _ ->. discriminate E.
    + apply last_None in E. split; [intros [? [=]] | intros H; contradiction].
Qed.

Lemma deleteSelectedObjects_invariant s :
  selection_invariant s -> selection_invariant (deleteSelectedObjects s).
Proof.
  intros Hinv. unfold deleteSelectedObjects.
  destruct (selectedObjects s) as [|a l] eqn:E; [exact Hinv|].
  unfold selection_invariant.
  cbn [selectedObjects selectedObject attached set_selectedObjects set_selectedObject
       set_attached].
  split; [intros H; contradiction|]. split; [intros [? [=]] | intros H; contradiction].
Qed.

(** C2 on the code: with two objects selected by select-all, deleting
    the primary one through [deleteObject] leaves a selection of one
    object with no primary object and no gizmo, so the invariant fails. *)
Theorem deleteObject_breaks_selection_invariant :
  let s := demo_pair_selected in
  selection_invariant s
  /\ objects s = [2; 5] /\ selectedObjects s = [2; 5] /\ selectedObject s = Some 5
  /\ selectedObjects (deleteObject (Some 5) s) = [2]
  /\ selectedObject (deleteObject (Some 5) s) = None
  /\ attached (deleteObject (Some 5) s) = None
  /\ ~ selection_invariant (deleteObject (Some 5) s).
Proof.
  cbv zeta.
  assert (H1 : selectedObjects (deleteObject (Some 5) demo_pair_selected) = [2])
    by (vm_compute; reflexivity).
  assert (H2 : attached (deleteObject (Some 5) demo_pair_selected) = None)
    by (vm_compute; reflexivity).
  split.
  { assert (Ha : attached demo_pair_selected = Some 4) by (vm_compute; reflexivity).
    assert (Hs : selectedObjects demo_pair_selected = [2; 5]) by (vm_compute; reflexivity).
    assert (Hp : selectedObject demo_pair_selected = Some 5) by (vm_compute; reflexivity).
    unfold selection_invariant. rewrite Ha, Hs, Hp. split.
    - intros _. exists 5. split; [reflexivity|]. cbn [map]. apply elem_of_cons. right.
      constructor.
    - split; [intros _; discriminate | eauto]. }
  repeat (split; [vm_compute; reflexivity|]).
  intros [_ [_ Hatt]]. rewrite H1, H2 in Hatt.
  destruct Hatt as [x Hx]; [discriminate | discriminate Hx].
Qed.

(** ** Object ids *)







Lemma sublist_List_filter {A} (f : A -> bool) (l : list A) : sublist (List.filter f l) l.
Proof.
  induction l as [|a l IH]; cbn [List.filter]; [constructor|].
  destruct (f a); by constructor.
Qed.



Lemma forEach_scene_remove l s :
  forEach (fun obj st => scene_remove (mesh (record_of st obj)) st) l s
  = set_scene (scene (forEach (fun obj st => scene_remove (mesh (record_of st obj)) st) l s)) s.
Proof.
  unfold forEach. revert s. induction l as [|o l IH]; intros s; cbn [foldl].
  - destruct s; reflexivity.
  - rewrite IH. reflexivity.
Qed.









Lemma keeps_ids_switch cases tag d :
  keeps_ids d -> Forall (fun c => keeps_ids c.2) cases -> keeps_ids (switch cases tag d).
Proof.
  intros Hd Hc. induction Hc as [|[c body] cases Hb _ IH]; cbn [switch]; [exact Hd|].
  destruct (String.eqb tag c); [exact Hb | exact IH].
Qed.

Lemma keeps_ids_write_record o v : keeps_ids (write_record o (set_name v)).
Proof.
  intros s. repeat apply conj; try reflexivity. intros p.
  unfold write_record. cbn [records set_records].
  destruct (decide (o = p)) as [->|Hne].
  - by rewrite lookup_total_insert_eq.
  - by rewrite lookup_total_insert_ne.
Qed.

Lemma keeps_ids_write_mesh m f : keeps_ids (write_mesh m f).
Proof. intros s. repeat apply conj; reflexivity. Qed.

Lemma keeps_ids_write_material m f : keeps_ids (write_material m f).
Proof. intros s. repeat apply conj; reflexivity. Qed.


Lemma alloc_materials_store mats s :
  records (alloc_materials mats s) = records s
  /\ next s <= next (alloc_materials mats s)
  /\ calls (alloc_materials mats s) = calls s
  /\ objects (alloc_materials mats s) = objects s
  /\ undoStack (alloc_materials mats s) = undoStack s
  /\ alerts (alloc_materials mats s) = alerts s.
Proof.
  revert s. induction mats as [|m mats IH]; intros s; cbn [alloc_materials].
  - repeat apply conj; auto.
  - destruct (IH (alloc_material m s).2) as (Hr & Hn & Hc & Ho & Hu & Ha).
    rewrite Hr, Hc, Ho, Hu, Ha.
    assert (Hs : next (alloc_material m s).2 = S (next s)) by reflexivity.
    repeat apply conj; try reflexivity. lia.
Qed.

(** What the [traverse] callback does with one node. *)
Lemma import_child_spec w base counter child os s :
  if isMesh child then
    exists o rec,
      (import_child w base counter child (os, s)).1 = os ++ [o]
      /\ next s <= o /\ o < next (import_child w base counter child (os, s)).2
      /\ records (import_child w base counter child (os, s)).2 = <[o := rec]> (records s)
      /\ id rec = generateId w (calls s) /\ type rec = "imported"
      /\ calls (import_child w base counter child (os, s)).2 = S (calls s)
      /\ objects (import_child w base counter child (os, s)).2 = objects s
  else import_child w base counter child (os, s) = (os, s).
Proof.
  unfold import_child. destruct (isMesh child); [|reflexivity].
  destruct (child_material child) as [i|c]; destruct_state s; state_norm.
  - exists (S s_next). eexists. repeat apply conj; try reflexivity; lia.
  - exists (S (S s_next)). eexists. repeat apply conj; try reflexivity; lia.
Qed.

(** What the whole traversal does: one new record per mesh node, at
    fresh locations, with the ids of the next creations. *)
Lemma import_fold_spec w base counter children os s :
  let r := foldl (fun acc child => import_child w base counter child acc) (os, s) children in
  exists new,
    r.1 = os ++ new
    /\ length new = length (List.filter isMesh children)
    /\ next s <= next r.2
    /\ Forall (fun o => next s <= o /\ o < next r.2) new
    /\ (forall p, p < next s -> records r.2 !!! p = records s !!! p)
    /\ map (fun o => id (records r.2 !!! o)) new
       = map (generateId w) (seq (calls s) (length new))
    /\ Forall (fun o => type (records r.2 !!! o) = "imported") new
    /\ calls r.2 = calls s + length new
    /\ objects r.2 = objects s.
Proof.
  cbv zeta. revert os s. induction children as [|child children IH]; intros os s.
  - exists []. cbn [foldl fst snd length List.filter seq map]. rewrite app_nil_r.
    repeat apply conj; auto; try lia.
  - cbn [foldl List.filter].
    pose proof (import_child_spec w base counter child os s) as Hc.
    destruct (isMesh child).
    + destruct Hc as (o & rec & H1 & Hlo & Hhi & Hrec & Hid & Hty & Hcalls & Hobj).
      destruct (import_child w base counter child (os, s)) as [os1 s1].
      cbn [fst snd] in *. subst os1.
      destruct (IH (os ++ [o]) s1) as (new & N1 & Nlen & Nnext & Nall & Nrec & Nid & Nty & Ncalls & Nobj).
      exists (o :: new). cbn [length map seq].
      assert (Ho : records (foldl (fun acc c => import_child w base counter c acc)
                              (os ++ [o], s1) children).2 !!! o = rec).
      { rewrite Nrec by lia. rewrite Hrec. apply lookup_total_insert_eq. }
      repeat apply conj.
      * rewrite N1. by rewrite <- app_assoc.
      * by rewrite Nlen.
      * lia.
      * constructor; [lia|]. eapply Forall_impl; [exact Nall|]. cbn beta. intros; lia.
      * intros p Hp. rewrite Nrec by lia. rewrite Hrec.
        by rewrite lookup_total_insert_ne by lia.
      * rewrite Ho, Hid, Nid, Hcalls. reflexivity.
      * constructor; [by rewrite Ho | exact Nty].
      * rewrite Ncalls, Hcalls. lia.
      * by rewrite Nobj.
    + rewrite Hc. apply IH.
Qed.



Lemma sublist_map {A B} (f : A -> B) (l k : list A) :
  sublist l k -> sublist (map f l) (map f k).
Proof. induction 1; cbn [map]; by constructor. Qed.








Lemma distinct_draws_le w n m : n <= m -> distinct_draws w m -> distinct_draws w n.
Proof. intros Hle Hd j k Hjk Hk. apply Hd; lia. Qed.





(** ** Import *)



Lemma built_nodes_all nodes :
  MalformedNode ∉ nodes ->
  exists children, built_nodes nodes = Some children /\ map Node children = nodes.
Proof.
  induction nodes as [|[child|] nodes IH]; intros Hnot; cbn [built_nodes].
  - by exists [].
  - destruct IH as (children & -> & Hmap); [intros Hin; apply Hnot; by constructor|].
    exists (child :: children). cbn [map]. by rewrite Hmap.
  - exfalso. apply Hnot. constructor.
Qed.






(** * Further properties of the handlers *)

(** ** Selection by clicks and keys *)

Lemma same_id_refl s o : same_id s o o = true.
Proof. unfold same_id. apply String.eqb_refl. Qed.

Lemma same_id_true s a b :
  same_id s a b = true <-> id (record_of s a) = id (record_of s b).
Proof. unfold same_id. apply String.eqb_eq. Qed.

Lemma same_id_false s a b :
  same_id s a b = false <-> id (record_of s a) <> id (record_of s b).
Proof. unfold same_id. apply String.eqb_neq. Qed.

Lemma selection_invariant_initial : selection_invariant initial.
Proof.
  split; [intros H; by destruct H|]. cbn. split; [intros [? [=]] | intros H; by destruct H].
Qed.

(** X1. Every call of [selectObject], whatever the state and the
    arguments, ends with the selection invariant in place; and a click
    in the viewport never breaks it: during a drag and on a mesh that
    is not in the registry nothing changes, otherwise [selectObject]
    runs. *)
Theorem clicks_keep_selection_invariant (s : State) :
  (forall obj addToSelection, selection_invariant (selectObject obj addToSelection s))
  /\ (selection_invariant s ->
      forall dragging hit ctrl,
        selection_invariant (handleViewportClick dragging hit ctrl s)).
Proof.
  split; [intros; apply selectObject_invariant|].
  intros Hinv dragging hit ctrl. unfold handleViewportClick.
  destruct dragging; [exact Hinv|].
  destruct hit as [m|]; [|apply selectObject_invariant].
  destruct (find_by_mesh s m); [apply selectObject_invariant | exact Hinv].
Qed.

Lemma clicks_keep_selection_invariant_witness :
  let s := selectObject (Some 2) false demo_two_cubes in
  find_by_mesh s 4 = Some 5
  /\ selectedObjects (handleViewportClick false (Some 4) true s) = [2; 5]
  /\ selection_invariant (handleViewportClick false (Some 4) true s).
Proof.
  cbv zeta. split; [vm_compute; reflexivity|]. split; [vm_compute; reflexivity|].
  destruct (clicks_keep_selection_invariant demo_two_cubes) as [Hsel _].
  exact (proj2 (clicks_keep_selection_invariant (selectObject (Some 2) false demo_two_cubes))
           (Hsel (Some 2) false) false (Some 4) true).
Defined.

Lemma filter_not_same_id s obj l :
  (forall p, p ∈ l -> id (record_of s p) <> id (record_of s obj)) ->
  List.filter (fun o => negb (same_id s o obj)) (l ++ [obj]) = l.
Proof.
  intros Hl. rewrite List.filter_app. cbn [List.filter]. rewrite same_id_refl. cbn [negb].
  rewrite app_nil_r. induction l as [|a l IH]; [reflexivity|]. cbn [List.filter].
  assert (Ha : same_id s a obj = false) by (apply same_id_false, Hl; constructor).
  rewrite Ha. cbn [negb]. f_equal. apply IH. intros p Hp. apply Hl. by constructor.
Qed.

Lemma existsb_same_id_false s obj l :
  (forall p, p ∈ l -> id (record_of s p) <> id (record_of s obj)) ->
  existsb (fun o => same_id s o obj) l = false.
Proof.
  intros Hl. induction l as [|a l IH]; [reflexivity|]. cbn [existsb].
  assert (Ha : same_id s a obj = false) by (apply same_id_false, Hl; constructor).
  rewrite Ha. cbn [orb]. apply IH. intros p Hp. apply Hl. by constructor.
Qed.

Lemma same_id_selectObject obj addToSelection s a b :
  same_id (selectObject obj addToSelection s) a b = same_id s a b.
Proof.
  unfold same_id, record_of.
  destruct (selectObject_store obj addToSelection s) as (-> & _). reflexivity.
Qed.

(** X2. Ctrl-clicking an object whose id is not in the selection and
    then Ctrl-clicking it again gives back the selection list there was:
    the first call appends it, the second filters it out. *)
Theorem toggle_select_twice (s : State) (obj : nat) :
  (forall p, p ∈ selectedObjects s -> id (record_of s p) <> id (record_of s obj)) ->
  selectedObjects (selectObject (Some obj) true s) = selectedObjects s ++ [obj]
  /\ selectedObjects (selectObject (Some obj) true (selectObject (Some obj) true s))
     = selectedObjects s.
Proof.
  intros Hnew.
  assert (H1 : selectedObjects (selectObject (Some obj) true s) = selectedObjects s ++ [obj]).
  { rewrite selectedObjects_selectObject. cbn [new_selection].
    by rewrite existsb_same_id_false. }
  split; [exact H1|].
  rewrite selectedObjects_selectObject. cbn [new_selection]. rewrite H1.
  assert (Hex : existsb (fun o => same_id (selectObject (Some obj) true s) o obj)
                  (selectedObjects s ++ [obj]) = true).
  { rewrite existsb_app. cbn [existsb]. rewrite same_id_selectObject, same_id_refl.
    by rewrite !orb_true_r. }
  rewrite Hex.
  rewrite (List.filter_ext _ (fun o => negb (same_id s o obj)))
    by (intros a; by rewrite same_id_selectObject).
  by apply filter_not_same_id.
Qed.

Lemma toggle_select_twice_witness :
  selectedObjects demo_two_cubes = [5]
  /\ selectedObjects (selectObject (Some 2) true demo_two_cubes) = [5; 2]
  /\ selectedObjects (selectObject (Some 2) true (selectObject (Some 2) true demo_two_cubes))
     = [5].
Proof.
  assert (Hsel : selectedObjects demo_two_cubes = [5]) by (vm_compute; reflexivity).
  assert (Hnew : forall p, p ∈ selectedObjects demo_two_cubes ->
            id (record_of demo_two_cubes p) <> id (record_of demo_two_cubes 2)).
  { rewrite Hsel. intros p Hp. apply list_elem_of_singleton in Hp. subst p.
    vm_compute. discriminate. }
  destruct (toggle_select_twice demo_two_cubes 2 Hnew) as [H1 H2].
  rewrite Hsel in H1, H2. split; [reflexivity|]. split; [exact H1 | exact H2].
Defined.

Lemma elem_of_List_filter {A} (f : A -> bool) (l : list A) x :
  x ∈ List.filter f l <-> x ∈ l /\ f x = true.
Proof. rewrite !list_elem_of_In. apply filter_In. Qed.

Lemma scene_forEach_remove l s x :
  x ∈ scene (forEach (fun obj st => scene_remove (mesh (record_of st obj)) st) l s)
  <-> x ∈ scene s /\ x ∉ map (fun o => mesh (record_of s o)) l.
Proof.
  unfold forEach. revert s. induction l as [|a l IH]; intros s; cbn [foldl map].
  - split; [intros H; split; [exact H | apply not_elem_of_nil] | by intros [H _]].
  - rewrite IH. unfold scene_remove, record_of. cbn [scene records set_scene].
    rewrite list_elem_of_filter, not_elem_of_cons. tauto.
Qed.



Lemma undo_after_snapshot s s' :
  undoStack s' = push_undo (capture_all s) (undoStack s) -> restores s (undo s').
Proof.
  intros Hst. apply capture_all_restores.
  assert (Hlast : last (undoStack s') = Some (capture_all s))
    by (rewrite Hst; apply last_push_undo).
  by destruct (undo_pops _ _ Hlast).
Qed.

(** X4. [deleteSelectedObjects] does nothing on an empty selection.
    Otherwise it takes one snapshot, drops from the registry exactly
    the objects that share an id with a selected one, removes the
    meshes of the selected objects from the scene, and empties the
    selection, the primary object and the gizmo; an [undo] right after
    brings the registry back. *)
Theorem deleteSelectedObjects_removes_selection (s : State) :
  (selectedObjects s = [] -> deleteSelectedObjects s = s)
  /\ (selectedObjects s <> [] ->
      let s' := deleteSelectedObjects s in
      (forall o, o ∈ objects s' <->
         o ∈ objects s
         /\ forall sel, sel ∈ selectedObjects s ->
              id (record_of s sel) <> id (record_of s o))
      /\ selectedObjects s' = [] /\ selectedObject s' = None /\ attached s' = None
      /\ undoStack s' = push_undo (capture_all s) (undoStack s)
      /\ (forall sel, sel ∈ selectedObjects s -> mesh (record_of s sel) ∉ scene s')
      /\ restores s (undo s')).
Proof.
  split; [intros H; unfold deleteSelectedObjects; by rewrite H|].
  intros Hne. cbv zeta.
  assert (Hst : undoStack (deleteSelectedObjects s)
                = push_undo (capture_all s) (undoStack s)).
  { rewrite undoStack_deleteSelectedObjects.
    destruct (selectedObjects s); [contradiction | reflexivity]. }
  unfold deleteSelectedObjects in *. destruct (selectedObjects s) as [|a l] eqn:E;
    [contradiction|].
  split; [|split; [reflexivity|]; split; [reflexivity|]; split; [reflexivity|];
           split; [exact Hst|]; split; [|by apply undo_after_snapshot]].
  - intros o. rewrite forEach_scene_remove.
    cbn [objects set_attached set_selectedObject set_selectedObjects set_objects set_scene
         saveUndoState set_undoStack].
    rewrite elem_of_List_filter, negb_true_iff.
    split.
    + intros [Ho Hex]. split; [exact Ho|]. intros sel Hsel Hid.
      assert (Htrue : existsb (fun sel0 => same_id (saveUndoState s) sel0 o) (a :: l) = true).
      { apply existsb_exists. exists sel. split; [by apply list_elem_of_In|].
        by apply same_id_true. }
      congruence.
    + intros [Ho Hall]. split; [exact Ho|].
      destruct (existsb _ (a :: l)) eqn:Hex; [|reflexivity].
      apply existsb_exists in Hex as (sel & Hsel & Hid).
      exfalso. apply (Hall sel); [by apply list_elem_of_In | by apply same_id_true].
  - intros sel Hsel Hin.
    cbn [scene set_attached set_selectedObject set_selectedObjects set_objects] in Hin.
    apply scene_forEach_remove in Hin as [_ Hnot]. apply Hnot.
    apply list_elem_of_fmap. exists sel. split; [reflexivity | exact Hsel].
Qed.

Lemma deleteSelectedObjects_removes_selection_witness :
  objects (deleteSelectedObjects demo_pair_selected) = []
  /\ deleteSelectedObjects initial = initial.
Proof.
  split.
  - assert (Hne : selectedObjects demo_pair_selected <> []) by (vm_compute; discriminate).
    destruct (proj2 (deleteSelectedObjects_removes_selection demo_pair_selected) Hne)
      as (Hobj & _).
    destruct (objects (deleteSelectedObjects demo_pair_selected)) as [|o r] eqn:E;
      [reflexivity|].
    exfalso. destruct (proj1 (Hobj o) ltac:(constructor)) as [Ho Hall].
    apply (Hall o); [|reflexivity].
    assert (Hs : selectedObjects demo_pair_selected = objects demo_pair_selected)
      by (vm_compute; reflexivity).
    rewrite Hs. exact Ho.
  - apply (deleteSelectedObjects_removes_selection initial). reflexivity.
Defined.

Lemma demo_pair_selected_invariant : selection_invariant demo_pair_selected.
Proof.
  assert (Ha : attached demo_pair_selected = Some 4) by (vm_compute; reflexivity).
  assert (Hs : selectedObjects demo_pair_selected = [2; 5]) by (vm_compute; reflexivity).
  assert (Hp : selectedObject demo_pair_selected = Some 5) by (vm_compute; reflexivity).
  unfold selection_invariant. rewrite Ha, Hs, Hp. split.
  - intros _. exists 5. split; [reflexivity|]. cbn [map]. apply elem_of_cons. right.
    constructor.
  - split; [intros _; discriminate | eauto].
Qed.

Lemma deleteObject_store obj s :
  records (deleteObject (Some obj) s) = records s
  /\ objects (deleteObject (Some obj) s)
     = List.filter (fun o => negb (same_id s o obj)) (objects s)
  /\ selectedObjects (deleteObject (Some obj) s)
     = List.filter (fun o => negb (same_id s o obj)) (selectedObjects s)
  /\ scene (deleteObject (Some obj) s)
     = filter (fun c => c <> mesh (record_of s obj)) (scene s)
  /\ (forall sel, selectedObject s = Some sel -> same_id s sel obj = true ->
        selectedObject (deleteObject (Some obj) s) = None
        /\ attached (deleteObject (Some obj) s) = None)
  /\ ((forall sel, selectedObject s = Some sel -> same_id s sel obj = false) ->
        selectedObject (deleteObject (Some obj) s) = selectedObject s
        /\ attached (deleteObject (Some obj) s) = attached s).
Proof.
  unfold deleteObject.
  change (selectedObject (saveUndoState s)) with (selectedObject s).
  change (same_id (saveUndoState s)) with (same_id s).
  destruct (selectedObject s) as [sel|] eqn:E; [destruct (same_id s sel obj) eqn:Es|].
  - repeat apply conj; try reflexivity.
    + intros ? _ _. split; reflexivity.
    + intros H. specialize (H sel eq_refl). congruence.
  - repeat apply conj; try reflexivity.
    + intros p [= <-] Hp. congruence.
    + intros _. split; [exact E | reflexivity].
  - repeat apply conj; try reflexivity.
    + intros p [=].
    + intros _. split; [exact E | reflexivity].
Qed.

(** X5. [deleteObject(obj)] takes one snapshot, drops from the registry
    and from the selection list exactly the entries with [obj]'s id,
    keeps the others in order, and removes [obj]'s mesh from the scene;
    an [undo] right after brings the registry back. When the selection
    invariant holds and [obj] does not have the id of the primary
    object, the invariant still holds afterwards. *)
Theorem deleteObject_removes (s : State) (obj : nat) :
  let s' := deleteObject (Some obj) s in
  (forall o, o ∈ objects s' <->
     o ∈ objects s /\ id (record_of s o) <> id (record_of s obj))
  /\ (forall o, o ∈ selectedObjects s' <->
        o ∈ selectedObjects s /\ id (record_of s o) <> id (record_of s obj))
  /\ sublist (objects s') (objects s)
  /\ (mesh (record_of s obj) ∉ scene s')
  /\ undoStack s' = push_undo (capture_all s) (undoStack s)
  /\ restores s (undo s')
  /\ (selection_invariant s ->
      (forall sel, selectedObject s = Some sel ->
         id (record_of s sel) <> id (record_of s obj)) ->
      selection_invariant s').
Proof.
  cbv zeta. destruct (deleteObject_store obj s) as (Hr & Ho & Hsel & Hsc & _ & Hprim).
  assert (Hst : undoStack (deleteObject (Some obj) s)
                = push_undo (capture_all s) (undoStack s)) by apply undoStack_deleteObject.
  assert (Hmemsel : forall o, o ∈ selectedObjects (deleteObject (Some obj) s) <->
            o ∈ selectedObjects s /\ id (record_of s o) <> id (record_of s obj)).
  { intros o. rewrite Hsel, elem_of_List_filter, negb_true_iff, same_id_false. tauto. }
  split; [|split; [exact Hmemsel|split; [|split; [|split; [exact Hst|split;
            [by apply undo_after_snapshot|]]]]]].
  - intros o. rewrite Ho, elem_of_List_filter, negb_true_iff, same_id_false. tauto.
  - rewrite Ho. apply sublist_List_filter.
  - rewrite Hsc. intros Hin. apply list_elem_of_filter in Hin as [Hne _]. by apply Hne.
  - intros [Hmem Hgizmo] Hother.
    destruct Hprim as [Hp Ha].
    { intros sel Hs. apply same_id_false. by apply Hother. }
    unfold selection_invariant. unfold record_of. rewrite Hr, Hp, Ha.
    fold (record_of s).
    assert (Hsurvive : selectedObjects s <> [] ->
              exists p q, selectedObject s = Some p
                /\ q ∈ selectedObjects (deleteObject (Some obj) s)
                /\ id (record_of s q) = id (record_of s p)).
    { intros Hne. destruct (Hmem Hne) as (p & Hp' & Hin).
      apply list_elem_of_fmap in Hin as (q & Hq & Hqin).
      exists p, q. split; [exact Hp'|]. split; [|by symmetry].
      apply Hmemsel. split; [exact Hqin|]. rewrite <- Hq. by apply Hother. }
    split.
    + intros Hne'.
      assert (Hne : selectedObjects s <> []).
      { intros Hnil. apply Hne'. rewrite Hsel, Hnil. reflexivity. }
      destruct (Hsurvive Hne) as (p & q & Hp' & Hq & Hid).
      exists p. split; [exact Hp'|]. apply list_elem_of_fmap. exists q.
      split; [by symmetry | exact Hq].
    + rewrite Hgizmo. split.
      * intros Hne. destruct (Hsurvive Hne) as (p & q & _ & Hq & _).
        intros Hnil. rewrite Hnil in Hq. by apply elem_of_nil in Hq.
      * intros Hne' Hnil. apply Hne'. rewrite Hsel, Hnil. reflexivity.
Qed.

Lemma deleteObject_removes_witness :
  selection_invariant (deleteObject (Some 2) demo_pair_selected).
Proof.
  apply (deleteObject_removes demo_pair_selected 2).
  - apply demo_pair_selected_invariant.
  - intros sel Hsel.
    assert (Hp : selectedObject demo_pair_selected = Some 5) by (vm_compute; reflexivity).
    rewrite Hp in Hsel. injection Hsel as <-. vm_compute. discriminate.
Defined.

(** ** The keyboard *)

Lemma switch_ind {A} (P : A -> Prop) (cases : list (string * A)) tag (d : A) :
  P d -> List.Forall (fun c => tag = c.1 -> P c.2) cases -> P (switch cases tag d).
Proof.
  intros Hd. induction 1 as [|[c body] cases Hc _ IH]; cbn [switch]; [exact Hd|].
  destruct (String.eqb_spec tag c) as [->|Hne]; [by apply Hc | exact IH].
Qed.

Lemma duplicateObject_invariant w obj s :
  selection_invariant (duplicateObject w (Some obj) s).
Proof.
  rewrite duplicateObject_eq. cbv zeta.
  pose proof (selectObject_invariant (Some (S (S (next s)))) false (duplicate_built w obj s))
    as H.
  set (s' := selectObject _ _ _) in *. clearbody s'. destruct s'. exact H.
Qed.

Lemma delete_key_invariant s :
  selection_invariant s ->
  selection_invariant
    (if (1 <? length (selectedObjects s))%nat then deleteSelectedObjects s
     else match selectedObject s with
          | Some sel => deleteObject (Some sel) s
          | None => s
          end).
Proof.
  intros Hinv. destruct (Nat.ltb_spec 1 (length (selectedObjects s))) as [Hlen|Hlen];
    [by apply deleteSelectedObjects_invariant|].
  destruct (selectedObject s) as [sel|] eqn:E; [|exact Hinv].
  destruct (deleteObject_store sel s) as (Hr & _ & Hsel & _ & Hprim & _).
  destruct (Hprim sel E (same_id_refl s sel)) as [Hp Ha].
  assert (Hnil : selectedObjects (deleteObject (Some sel) s) = []).
  { rewrite Hsel. destruct (selectedObjects s) as [|x [|y l]] eqn:El; [reflexivity| |].
    - destruct Hinv as [Hmem _]. rewrite El in Hmem.
      destruct (Hmem ltac:(discriminate)) as (p & Hpe & Hin).
      rewrite E in Hpe. injection Hpe as <-.
      cbn [map] in Hin. apply list_elem_of_singleton in Hin.
      cbn [List.filter]. symmetry in Hin. apply same_id_true in Hin. by rewrite Hin.
    - cbn [length] in Hlen. lia. }
  unfold selection_invariant. rewrite Hnil, Hp, Ha.
  split; [intros H; by destruct H|]. split; [intros [? [=]] | intros H; by destruct H].
Qed.

(** X6. The keyboard handler keeps the selection invariant for every
    key except Ctrl+A and Ctrl+Z: the mode keys and unbound keys leave
    the state alone, Escape and Ctrl+D end in [selectObject], and
    Delete or Backspace clears a multi-selection through
    [deleteSelectedObjects] and otherwise deletes the primary object,
    which empties a selection of one. Keys typed into an input element
    are ignored altogether. *)
Theorem handleKeyDown_keeps_selection_invariant (w : World) (event : KeyEvent)
    (mode : string) (s : State) :
  (target_is_input event = true -> handleKeyDown w event (mode, s) = (mode, s))
  /\ (selection_invariant s ->
      toLowerCase (key event) <> "a" -> toLowerCase (key event) <> "z" ->
      selection_invariant (handleKeyDown w event (mode, s)).2).
Proof.
  split; [intros H; unfold handleKeyDown; by rewrite H|].
  intros Hinv Ha Hz. unfold handleKeyDown.
  destruct (target_is_input event); [exact Hinv|].
  apply (switch_ind (fun b => selection_invariant b.2)); [exact Hinv|].
  repeat (apply List.Forall_cons; [intros Htag; unfold fst in Htag; unfold snd|]);
    [..|apply List.Forall_nil].
  - exact Hinv.
  - exact Hinv.
  - destruct (ctrlKey event); exact Hinv.
  - by apply delete_key_invariant.
  - by apply delete_key_invariant.
  - destruct (ctrlKey event); [|exact Hinv].
    destruct (selectedObject s); [apply duplicateObject_invariant | exact Hinv].
  - contradiction.
  - apply selectObject_invariant.
  - contradiction.
Qed.

Lemma handleKeyDown_keeps_selection_invariant_witness :
  selection_invariant
    (handleKeyDown demo_world (mkKeyEvent "Delete" false false)
       ("translate", demo_pair_selected)).2.
Proof.
  apply (handleKeyDown_keeps_selection_invariant demo_world
           (mkKeyEvent "Delete" false false) "translate" demo_pair_selected).
  - apply demo_pair_selected_invariant.
  - discriminate.
  - discriminate.
Defined.

(** ** What undo does not bring back *)

Lemma undo_selection s p :
  last (undoStack s) = Some p ->
  selectedObjects (undo s) = selectedObjects s
  /\ selectedObject (undo s) = None /\ attached (undo s) = None
  /\ length (objects (undo s)) = length p.
Proof.
  intros Hlast. unfold undo. rewrite Hlast.
  set (s2 := forEach _ (objects s) _).
  pose proof (heap_only_rehydrate p s2) as Hh. cbv beta in Hh.
  pose proof (rehydrate_capture p s2) as Hcap.
  destruct (rehydrate p s2) as [newObjects s3]. cbn [fst snd] in Hh, Hcap.
  cbn [selectedObjects selectedObject attached objects set_attached set_selectedObject
       set_objects].
  repeat apply conj; try reflexivity.
  - rewrite Hh. cbn [selectedObjects with_heap set_records set_meshes set_materials set_next
                       set_scene set_calls].
    subst s2. rewrite forEach_scene_remove. reflexivity.
  - rewrite <- Hcap. by rewrite length_map.
Qed.

(** X7. [undo] on a non-empty history empties the primary object and
    detaches the gizmo but leaves [selectedObjects] as it was, so a
    non-empty selection list survives it and the selection invariant
    no longer holds; on an empty history [undo] changes nothing. *)
Theorem undo_keeps_selection_list (s : State) :
  (undoStack s = [] -> undo s = s)
  /\ (undoStack s <> [] ->
      selectedObjects (undo s) = selectedObjects s
      /\ selectedObject (undo s) = None /\ attached (undo s) = None
      /\ (selectedObjects s <> [] -> ~ selection_invariant (undo s))).
Proof.
  split; [apply undo_empty|]. intros Hne.
  destruct (last (undoStack s)) as [p|] eqn:E; [|by apply last_None in E].
  destruct (undo_selection s p E) as (Hsel & Hp & Ha & _).
  repeat apply conj; try assumption.
  intros Hnon [_ Hgizmo]. rewrite Hsel, Ha in Hgizmo.
  destruct (proj2 Hgizmo Hnon) as [x Hx]. discriminate Hx.
Qed.

Lemma undo_keeps_selection_list_witness :
  selectedObjects (undo demo_pair_selected) = [2; 5]
  /\ selectedObject (undo demo_pair_selected) = None
  /\ undo initial = initial.
Proof.
  assert (Hne : undoStack demo_pair_selected <> []) by (vm_compute; discriminate).
  destruct (proj2 (undo_keeps_selection_list demo_pair_selected) Hne) as (Hs & Hp & _).
  split; [rewrite Hs; vm_compute; reflexivity|]. split; [exact Hp|].
  apply (undo_keeps_selection_list initial). reflexivity.
Defined.

(** ** What undo rebuilds *)

Lemma rehydrate_shape l s :
  Forall2
    (fun sv o =>
       exists n, next s <= n /\ o = S (S n)
         /\ mesh (records (rehydrate l s).2 !!! o) = S n
         /\ meshes (rehydrate l s).2 !!! S n
            = Three.mkMesh (restored_geometry (saved_type sv)) n
                (saved_position sv) (saved_rotation sv) (saved_scale sv)
                (saved_visible sv) true true (Some (saved_id sv))
         /\ materials (rehydrate l s).2 !!! n = restored_material sv)
    l (rehydrate l s).1.
Proof.
  revert s. induction l as [|sv l IH]; intros s; cbn [rehydrate]; [constructor|].
  pose proof (rehydrate_one_next sv s) as Hn.
  pose proof (rehydrate_agree l (rehydrate_one sv s).2) as Hag.
  pose proof (IH (rehydrate_one sv s).2) as Htl.
  rewrite Hn in Hag.
  assert (Hhd : mesh (records (rehydrate_one sv s).2 !!! S (S (next s))) = S (next s)
                /\ meshes (rehydrate_one sv s).2 !!! S (next s)
                   = Three.mkMesh (restored_geometry (saved_type sv)) (next s)
                       (saved_position sv) (saved_rotation sv) (saved_scale sv)
                       (saved_visible sv) true true (Some (saved_id sv))
                /\ materials (rehydrate_one sv s).2 !!! next s = restored_material sv
                /\ (rehydrate_one sv s).1 = S (S (next s))).
  { rewrite rehydrate_one_eq.
    cbn [fst snd records meshes materials set_next set_records set_scene set_meshes
         set_materials].
    rewrite !lookup_total_insert_eq. repeat apply conj; reflexivity. }
  destruct Hhd as (Hr & Hm & Ht & Ho).
  destruct (rehydrate_one sv s) as [o s1]. cbn [fst snd] in *. subst o.
  destruct (rehydrate l s1) as [os s2]. cbn [fst snd] in *.
  constructor.
  - exists (next s). split; [lia|]. split; [reflexivity|].
    destruct (Hag (S (S (next s))) ltac:(lia)) as (-> & _ & _).
    destruct (Hag (S (next s)) ltac:(lia)) as (_ & -> & _).
    destruct (Hag (next s) ltac:(lia)) as (_ & _ & ->). auto.
  - eapply Forall2_impl; [exact Htl|]. intros sv' o (n & Hle & Hrest).
    exists n. split; [lia | exact Hrest].
Qed.

(** X8. [undo] on a non-empty history builds every object of the
    registry anew at fresh locations: each gets a new standard material
    with only colour, metalness and roughness taken from the snapshot,
    so opacity is 1, transparency off, the emissive colour black and
    wireframe off whatever they were; the geometry comes from the
    thirteen-case switch of [undo], and the mesh casts and receives
    shadows and carries the recorded id. *)
Theorem undo_rebuilds_with_defaults (s : State) (p : list Saved) :
  last (undoStack s) = Some p ->
  Forall2 (rebuilt_from (undo s)) p (objects (undo s))
  /\ Forall (fun o =>
       next s <= o
       /\ Three.opacity (material_of (undo s) o) = Fin 1
       /\ Three.transparent (material_of (undo s) o) = false
       /\ Three.emissive (material_of (undo s) o) = 0%Z
       /\ Three.wireframe (material_of (undo s) o) = VBool false) (objects (undo s)).
Proof.
  intros Hlast.
  assert (H : Forall2 (fun sv o => next s <= o /\ rebuilt_from (undo s) sv o)
                p (objects (undo s))).
  { unfold undo. rewrite Hlast.
    set (s2 := forEach _ (objects s) _).
    assert (Hn : next s2 = next s).
    { subst s2. rewrite forEach_scene_remove. reflexivity. }
    pose proof (rehydrate_shape p s2) as Hsh. rewrite Hn in Hsh.
    destruct (rehydrate p s2) as [newObjects s3]. cbn [fst snd] in Hsh.
    cbn [objects set_attached set_selectedObject set_objects].
    eapply Forall2_impl; [exact Hsh|].
    intros sv o (n & Hle & -> & Hr & Hm & Ht). split; [lia|].
    unfold rebuilt_from, material_of, mesh_of, record_of.
    cbn [records meshes materials set_attached set_selectedObject set_objects].
    rewrite Hr, Hm. cbn [Three.material Three.geometry Three.castShadow Three.receiveShadow
                          Three.objectId]. rewrite Ht. auto. }
  split.
  - eapply Forall2_impl; [exact H|]. by intros sv o [_ Hb].
  - apply Forall2_Forall_r with (P := fun sv o => next s <= o /\ rebuilt_from (undo s) sv o)
                                  (l := p); [exact H|].
    apply Forall_forall. intros sv _ o [Hle (Hmat & _)]. rewrite Hmat.
    split; [exact Hle|]. repeat apply conj; reflexivity.
Qed.

Lemma undo_rebuilds_with_defaults_witness :
  Forall2 (rebuilt_from (undo (saveUndoState demo_translucent)))
    (capture_all demo_translucent) (objects (undo (saveUndoState demo_translucent))).
Proof.
  assert (Hp : last (undoStack (saveUndoState demo_translucent))
               = Some (capture_all demo_translucent)) by (vm_compute; reflexivity).
  exact (proj1 (undo_rebuilds_with_defaults (saveUndoState demo_translucent)
                  (capture_all demo_translucent) Hp)).
Defined.

(** ** The two shape switches *)

Lemma restored_geometry_default kind :
  kind ∉ basic_kinds -> restored_geometry kind = Three.Primitive "BoxGeometry" [1; 1; 1]%Q.
Proof. intros H. unfold restored_geometry. by apply switch_default. Qed.

(** X9. The geometry [undo] rebuilds for a shape kind is the one
    [addPrimitive] built for it exactly when the kind is one of the
    thirteen case labels of [undo]'s switch or is unknown to
    [addPrimitive] as well; every other shape of [addPrimitive]'s
    switch comes back from [undo] as the unit box. *)
Theorem undo_geometry_matches_addPrimitive (kind : string) :
  (restored_geometry kind = (primitive_of kind).1
   <-> kind ∈ basic_kinds \/ kind ∉ map fst shapes)
  /\ (kind ∉ basic_kinds ->
      restored_geometry kind = Three.Primitive "BoxGeometry" [1; 1; 1]%Q).
Proof.
  split; [|apply restored_geometry_default].
  destruct (decide (kind ∈ map fst shapes)) as [Hin|Hout].
  - unfold shapes in Hin. cbn [map fst] in Hin.
    repeat (apply elem_of_cons in Hin as [->|Hin];
            [first
               [ split; [intros _; left; compute_done | intros _; vm_compute; reflexivity]
               | split; [intros H; vm_compute in H; discriminate H
                        | intros [H|H]; exfalso; revert H; compute_done]]
            |]).
    by apply elem_of_nil in Hin.
  - split; [intros _; by right|]. intros _.
    assert (Hb : kind ∉ basic_kinds).
    { assert (Hsub : basic_kinds ⊆ map fst shapes) by compute_done.
      intros Hb. apply Hout, Hsub, Hb. }
    rewrite restored_geometry_default by exact Hb.
    unfold primitive_of. by rewrite switch_default.
Qed.

Lemma undo_geometry_matches_addPrimitive_witness :
  restored_geometry "heart" = Three.Primitive "BoxGeometry" [1; 1; 1]%Q
  /\ restored_geometry "heart" <> (primitive_of "heart").1.
Proof.
  split.
  - apply (proj2 (undo_geometry_matches_addPrimitive "heart")). compute_done.
  - intros H. apply (proj1 (undo_geometry_matches_addPrimitive "heart")) in H.
    revert H. compute_done.
Defined.

(** ** Edits and the history *)

Lemma takes_no_snapshot_spec op s :
  takes_no_snapshot op = true -> op <> Undo /\ snapshots op s = false.
Proof. destruct op as [?|? ?|[?|]| | |[?|]|?|? ?| |[?|]|[|]| |?]; by intros. Qed.

(** X10. Selecting, toggling visibility, editing a property and the
    snap settings never take a snapshot: after any number of them the
    undo stack is what it was, so the next [undo] goes back to the
    snapshot taken before the last add, delete, duplicate, import or
    clear and discards every edit made since together with it. *)
Theorem edits_take_no_snapshot (w : World) (ops : list Op) (s : State) :
  Forall (fun op => takes_no_snapshot op = true) ops ->
  undoStack (run w ops s) = undoStack s
  /\ (forall p, last (undoStack s) = Some p -> capture_all (undo (run w ops s)) = p).
Proof.
  intros Hops.
  assert (Hst : undoStack (run w ops s) = undoStack s).
  { revert s. induction Hops as [|op ops Hop _ IH]; intros s; [reflexivity|].
    rewrite run_cons, IH.
    destruct (takes_no_snapshot_spec op s Hop) as [Hne Hsnap].
    rewrite undoStack_step by exact Hne. by rewrite Hsnap. }
  split; [exact Hst|]. intros p Hp.
  apply undo_pops. by rewrite Hst.
Qed.

Lemma edits_take_no_snapshot_witness :
  capture_all
    (undo (run demo_world
             [SelectObject (Some 2) false; UpdateObjectProperty "positionX" (VStr "3")]
             demo_two_cubes))
  = capture_all demo_cube.
Proof.
  apply (edits_take_no_snapshot demo_world
           [SelectObject (Some 2) false; UpdateObjectProperty "positionX" (VStr "3")]
           demo_two_cubes).
  - repeat constructor.
  - vm_compute. reflexivity.
Defined.

(** ** Renaming *)

Lemma updateObjectProperty_name w v s sel :
  selectedObject s = Some sel ->
  updateObjectProperty w "name" v s
  = set_selectedObject (Some (next s))
      (set_next (S (next s))
         (set_records
            (<[next s := set_name v (records s !!! sel)]>
               (<[sel := set_name v (records s !!! sel)]> (records s))) s)).
Proof.
  intros Hsel. unfold updateObjectProperty. rewrite Hsel.
  cbn [switch String.eqb Ascii.eqb Bool.eqb].
  unfold alloc_record, write_record, record_of.
  cbn [records next set_records]. rewrite lookup_total_insert_eq.
  destruct_state s. reflexivity.
Qed.

Lemma updateObjectProperty_selects_copy w property v s sel :
  selectedObject s = Some sel ->
  selectedObject (updateObjectProperty w property v s) = Some (next s)
  /\ next (updateObjectProperty w property v s) = S (next s).
Proof.
  intros Hsel. unfold updateObjectProperty. rewrite Hsel.
  set (f := switch _ property _).
  assert (Hk : keeps_ids f).
  { subst f. apply keeps_ids_switch; [intros t; repeat apply conj; reflexivity|].
    repeat (apply Forall_cons; split;
            [first [apply keeps_ids_write_record | apply keeps_ids_write_mesh
                   | apply keeps_ids_write_material]|]).
    apply Forall_nil. exact I. }
  destruct (Hk s) as (Hn & _ & _).
  cbn [alloc_record selectedObject next set_selectedObject set_next set_records].
  by rewrite Hn.
Qed.

(** X11. A rename reaches the registry only when it is the first edit
    after a selection. [updateObjectProperty] ends by replacing
    [selectedObject] with a copy of the record, so the next rename
    writes the name of that copy: the selected copy shows the new name
    while every record of the store that existed before the first edit,
    the registry's among them, keeps the name it had. *)
Theorem rename_after_edit_misses_registry (w : World) (s : State) (sel : nat)
    (property : string) (v v' : value) :
  selectedObject s = Some sel -> sel < next s ->
  let s1 := updateObjectProperty w property v s in
  let s2 := updateObjectProperty w "name" v' s1 in
  name (record_of (updateObjectProperty w "name" v' s) sel) = v'
  /\ (forall o, o < next s -> record_of s2 o = record_of s1 o)
  /\ selectedObject s2 = Some (S (next s))
  /\ name (record_of s2 (S (next s))) = v'
  /\ id (record_of s2 (S (next s))) = id (record_of s1 (next s)).
Proof.
  intros Hsel Hlt s1 s2.
  destruct (updateObjectProperty_selects_copy w property v s sel Hsel) as [Hs1 Hn1].
  fold s1 in Hs1, Hn1.
  assert (E2 : s2 = _) by exact (updateObjectProperty_name w v' s1 (next s) Hs1).
  rewrite Hn1 in E2.
  split; [|rewrite E2; unfold record_of;
           cbn [records selectedObject set_selectedObject set_next set_records];
           repeat apply conj].
  - rewrite (updateObjectProperty_name w v' s sel Hsel). unfold record_of.
    cbn [records set_selectedObject set_next set_records].
    rewrite lookup_total_insert_ne by lia. by rewrite lookup_total_insert_eq.
  - intros o Ho. by rewrite !lookup_total_insert_ne by lia.
  - reflexivity.
  - by rewrite lookup_total_insert_eq.
  - by rewrite lookup_total_insert_eq.
Qed.

Lemma rename_after_edit_misses_registry_witness :
  let s2 := updateObjectProperty demo_world "name" (VStr "Box")
              (updateObjectProperty demo_world "positionX" (VStr "3") demo_cube) in
  name (record_of s2 2) = name (record_of demo_cube 2)
  /\ name (record_of s2 4) = VStr "Box".
Proof.
  assert (Hsel : selectedObject demo_cube = Some 2) by (vm_compute; reflexivity).
  assert (Hlt : 2 < next demo_cube) by (vm_compute; lia).
  destruct (rename_after_edit_misses_registry demo_world demo_cube 2 "positionX"
              (VStr "3") (VStr "Box") Hsel Hlt) as (_ & Hreg & _ & Hname & _).
  cbv zeta in Hreg, Hname. split.
  - rewrite (Hreg 2 Hlt). vm_compute. reflexivity.
  - assert (Hn : next demo_cube = 3) by (vm_compute; reflexivity).
    rewrite Hn in Hname. exact Hname.
Defined.

(** ** duplicateObject *)

Lemma duplicate_built_heap w obj s :
  meshes (duplicate_built w obj s)
  = <[S (next s) :=
        Three.mkMesh (Three.geometry (mesh_of s obj)) (next s)
          (Three.set_x (Js.add (Three.x (Three.position (mesh_of s obj))) (Fin 1))
             (Three.position (mesh_of s obj)))
          (Three.rotation (mesh_of s obj)) (Three.scale (mesh_of s obj))
          true true true (Some (generateId w (calls s)))]> (meshes s)
  /\ materials (duplicate_built w obj s) = <[next s := material_of s obj]> (materials s)
  /\ undoStack (duplicate_built w obj s) = push_undo (capture_all s) (undoStack s)
  /\ scene (duplicate_built w obj s) = scene s ++ [S (next s)].
Proof.
  unfold duplicate_built, capture_all. destruct_state s. state_norm.
  rewrite !lookup_total_insert_eq. rewrite insert_insert_eq.
  repeat apply conj; reflexivity.
Qed.

(** What [selectObject] leaves when it selects the one object [o]. *)
Lemma selectObject_single o b :
  selectObject (Some o) false b
  = set_selectedObjects [o]
      (set_selectedObject (Some o)
         (set_attached (Some (mesh (record_of b o)))
            (set_materials
               (paint 0x333333 [mat_loc b o]
                  (paint 0x000000 (map (mat_loc b) (objects b)) (materials b))) b))).
Proof. rewrite selectObject_eq. reflexivity. Qed.

Lemma selected_projections o a ms objs b :
  let t := set_objects objs
             (set_selectedObjects [o]
                (set_selectedObject (Some o) (set_attached a (set_materials ms b)))) in
  selectedObjects t = [o] /\ selectedObject t = Some o /\ attached t = a
  /\ materials t = ms /\ scene t = scene b /\ undoStack t = undoStack b.
Proof. repeat apply conj; reflexivity. Qed.

Lemma meshes_set_objects a b : meshes (set_objects a b) = meshes b.
Proof. reflexivity. Qed.

Lemma duplicateObject_selected w obj s :
  let s' := duplicateObject w (Some obj) s in
  selectedObjects s' = [S (S (next s))] /\ selectedObject s' = Some (S (S (next s)))
  /\ attached s' = Some (S (next s))
  /\ materials s'
     = paint 0x333333 [next s]
         (paint 0x000000 (map (mat_loc (duplicate_built w obj s)) (objects s))
            (<[next s := material_of s obj]> (materials s)))
  /\ scene s' = scene s ++ [S (next s)]
  /\ undoStack s' = push_undo (capture_all s) (undoStack s).
Proof.
  cbv zeta. rewrite duplicateObject_eq. cbv zeta. rewrite selectObject_single.
  destruct (duplicate_built_heap w obj s) as (Hmesh & Hmat & Hundo & Hscene).
  destruct (duplicate_built_store w obj s) as (Hrec & _ & _ & Hobj).
  match goal with
  | |- context [set_objects ?objs (set_selectedObjects [?o] (set_selectedObject _
                  (set_attached ?a (set_materials ?ms ?b))))] =>
      destruct (selected_projections o a ms objs b) as (-> & -> & -> & -> & -> & ->)
  end.
  unfold mat_loc at 1, mesh_of, record_of. rewrite Hrec, Hmesh, Hmat, Hundo, Hscene, Hobj.
  rewrite !lookup_total_insert_eq. cbn [mesh Three.material].
  repeat apply conj; reflexivity.
Qed.

(** X12. [duplicateObject] appends one object and makes it the whole
    selection. The copy has the source's kind, geometry, rotation and
    scale, a position one unit further along x, the name of the source
    followed by [_copy], the id that [generateId] yields for this
    creation, a material of its own holding the source's material
    fields with the selection highlight as emissive colour, and it is
    visible and in the scene even when the source is hidden. A
    snapshot of the registry as it was is pushed first. *)
Theorem duplicateObject_copies (w : World) (obj : nat) (s : State) :
  let s' := duplicateObject w (Some obj) s in
  let o := S (S (next s)) in
  let src := mesh_of s obj in
  objects s' = objects s ++ [o]
  /\ selectedObjects s' = [o] /\ selectedObject s' = Some o
  /\ attached s' = Some (S (next s))
  /\ record_of s' o
     = mkSceneObject (generateId w (calls s))
         (VStr (template w (name (record_of s obj)) +:+ "_copy"))
         (type (record_of s obj)) (S (next s))
  /\ mesh_of s' o
     = Three.mkMesh (Three.geometry src) (next s)
         (Three.set_x (Js.add (Three.x (Three.position src)) (Fin 1)) (Three.position src))
         (Three.rotation src) (Three.scale src) true true true
         (Some (generateId w (calls s)))
  /\ material_of s' o = Three.set_emissive 0x333333 (material_of s obj)
  /\ S (next s) ∈ scene s'
  /\ undoStack s' = push_undo (capture_all s) (undoStack s).
Proof.
  intros s' o src. subst s' o src.
  destruct (duplicateObject_store w obj s) as (Hobj & Hrec & _ & _).
  destruct (duplicate_built_heap w obj s) as (Hmesh & _).
  destruct (duplicateObject_selected w obj s) as (Hsel & Hprim & Hatt & Hmat & Hscene & Hundo).
  cbv zeta in Hsel, Hprim, Hatt, Hmat, Hscene, Hundo.
  assert (Hm : meshes (duplicateObject w (Some obj) s) = meshes (duplicate_built w obj s)).
  { rewrite duplicateObject_eq. cbv zeta. rewrite meshes_set_objects.
    apply (selectObject_store (Some (S (S (next s)))) false (duplicate_built w obj s)). }
  assert (Hr : record_of (duplicateObject w (Some obj) s) (S (S (next s)))
               = mkSceneObject (generateId w (calls s))
                   (VStr (template w (name (record_of s obj)) +:+ "_copy"))
                   (type (record_of s obj)) (S (next s))).
  { unfold record_of at 1. rewrite Hrec. apply lookup_total_insert_eq. }
  assert (Hmo : mesh_of (duplicateObject w (Some obj) s) (S (S (next s)))
                = Three.mkMesh (Three.geometry (mesh_of s obj)) (next s)
                    (Three.set_x (Js.add (Three.x (Three.position (mesh_of s obj))) (Fin 1))
                       (Three.position (mesh_of s obj)))
                    (Three.rotation (mesh_of s obj)) (Three.scale (mesh_of s obj))
                    true true true (Some (generateId w (calls s)))).
  { unfold mesh_of at 1. rewrite Hr, Hm, Hmesh. cbn [mesh]. apply lookup_total_insert_eq. }
  split; [exact Hobj|]. split; [exact Hsel|]. split; [exact Hprim|]. split; [exact Hatt|].
  split; [exact Hr|]. split; [exact Hmo|]. split; [|split; [|exact Hundo]].
  - unfold material_of at 1. rewrite Hmo, Hmat. cbn [Three.material paint foldl].
    rewrite lookup_total_insert_eq, paint_lookup, lookup_total_insert_eq.
    destruct (decide _); destruct (material_of s obj); reflexivity.
  - rewrite Hscene. apply elem_of_app. right. constructor.
Qed.

Lemma duplicateObject_copies_witness :
  Three.position (mesh_of (duplicateObject demo_world (Some 2) demo_cube) 5)
  = Three.mkVector3 (Fin 1) (Fin 0.5) (Fin 0).
Proof.
  destruct (duplicateObject_copies demo_world 2 demo_cube)
    as (_ & _ & _ & _ & _ & Hm & _).
  cbv zeta in Hm.
  assert (Hn : next demo_cube = 3) by (vm_compute; reflexivity).
  rewrite Hn in Hm. rewrite Hm. vm_compute. reflexivity.
Defined.

(** ** Snapping to a unit that is a power of two *)

Lemma Qfloor_snapped (k : Z) (u : Q) :
  (0 < u)%Q -> Qfloor (inject_Z k * u / u + (1 # 2)) = k.
Proof.
  intros Hu.
  assert (E : (inject_Z k * u / u + (1 # 2) == inject_Z k + (1 # 2))%Q).
  { field. intros H0. rewrite H0 in Hu. by apply Qlt_irrefl in Hu. }
  rewrite E.
  pose proof (Qfloor_le (inject_Z k + (1 # 2))) as Hlo.
  pose proof (Qlt_floor (inject_Z k + (1 # 2))) as Hhi.
  set (z := Qfloor (inject_Z k + (1 # 2))) in *.
  rewrite inject_Z_plus in Hhi. change (inject_Z 1) with 1%Q in Hhi.
  assert (Hz1 : (z < k + 1)%Z).
  { rewrite Zlt_Qlt, inject_Z_plus. change (inject_Z 1) with 1%Q. lra. }
  assert (Hz2 : (k < z + 1)%Z).
  { rewrite Zlt_Qlt, inject_Z_plus. change (inject_Z 1) with 1%Q. lra. }
  lia.
Qed.

(** X13. Let the unit [u] be a power of two, as the default 0.5 is,
    and let the coordinate [q] be such that neither [q / u] nor the
    result overflows. With snapping enabled, [snapToGrid] sends [q] to
    a multiple [k * u] that lies within half a unit of [q], no multiple
    of [u] is nearer, and snapping the result again changes nothing.
    On doubles, dividing and multiplying by a power of two is exact
    short of overflow, and a quotient that underflows is rounded to 0
    by [Math.round] either way, so these are the values line 1878
    computes. With a unit that is zero or negative the value is
    returned as it is. *)
Theorem snapToGrid_any_unit (s : State) (u q : Q) (e : Z) :
  snapSize s = Fin u ->
  (snapEnabled s = true -> (u == 2 ^ e)%Q ->
   (Qabs (q / u) + 1 < overflow_threshold)%Q -> (Qabs q + u < overflow_threshold)%Q ->
     exists k : Z,
       snapToGrid (Fin q) s = Fin (inject_Z k * u)
       /\ (Qabs (q - inject_Z k * u) <= u / 2)%Q
       /\ (forall m : Z, (Qabs (q - inject_Z k * u) <= Qabs (q - inject_Z m * u))%Q)
       /\ snapToGrid (Fin (inject_Z k * u)) s = Fin (inject_Z k * u))
  /\ ((u <= 0)%Q -> snapToGrid (Fin q) s = Fin q).
Proof.
  intros Hsize. split.
  - intros Hon Hpow Hdiv Hmul.
    assert (Hu : (0 < u)%Q) by (rewrite Hpow; by apply Qpower_0_lt).
    exists (Qfloor (q / u + (1 # 2))).
    destruct (snap_nearest u q Hu) as (H1 & H2 & Hnear). cbv zeta in H1, H2, Hnear.
    destruct (round_half_up (q / u)) as [Hlo Hhi].
    pose proof (Qabs_nonneg (q / u)) as Hn1. pose proof (Qabs_nonneg q) as Hn2.
    pose proof (Qle_Qabs (q / u)) as Ha1. pose proof (Qle_Qabs (- (q / u))) as Ha2.
    rewrite Qabs_opp in Ha2.
    pose proof (Qle_Qabs q) as Ha3. pose proof (Qle_Qabs (- q)) as Ha4.
    rewrite Qabs_opp in Ha4.
    assert (Hhalf : (u / 2 == u * (1 # 2))%Q) by (field; discriminate).
    assert (Hk : (Qabs (inject_Z (Qfloor (q / u + (1 # 2))) * u) < overflow_threshold)%Q).
    { apply Qabs_Qlt_condition. split; lra. }
    assert (Hsnap : snapToGrid (Fin q) s = Fin (inject_Z (Qfloor (q / u + (1 # 2))) * u)).
    { apply snapToGrid_fin; try assumption. lra. }
    split; [exact Hsnap|]. split; [|split; [exact Hnear|]].
    + rewrite Hhalf. apply Qabs_Qle_condition. split; lra.
    + set (k := Qfloor (q / u + (1 # 2))) in *.
      assert (Hkk : (inject_Z k * u / u == inject_Z k)%Q).
      { field. intros H0. rewrite H0 in Hu. by apply Qlt_irrefl in Hu. }
      rewrite (snapToGrid_fin s u (inject_Z k * u) Hon Hsize Hu).
      * by rewrite Qfloor_snapped.
      * rewrite Hkk. apply Qabs_Qlt_condition. split; lra.
      * by rewrite Qfloor_snapped.
  - intros Hle. unfold snapToGrid. rewrite Hsize. unfold Js.le.
    destruct (Qlt_le_dec 0 u) as [Hlt|_]; [exfalso; apply (Qlt_not_le _ _ Hlt Hle)|].
    by rewrite orb_true_r.
Qed.

Lemma snapToGrid_any_unit_witness :
  (exists k : Z,
     snapToGrid (Fin 1.1) (toggleSnap initial) = Fin (inject_Z k * 0.5)
     /\ (Qabs (1.1 - inject_Z k * 0.5) <= 0.5 / 2)%Q)
  /\ snapToGrid (Fin 1) (updateSnapSize (VStr "-2") (toggleSnap initial)) = Fin 1.
Proof.
  split.
  - assert (Hs : snapSize (toggleSnap initial) = Fin 0.5) by reflexivity.
    assert (Hpow : (0.5 == 2 ^ (-1))%Q) by reflexivity.
    assert (Hdiv : (Qabs (1.1 / 0.5) + 1 < overflow_threshold)%Q) by reflexivity.
    assert (Hmul : (Qabs 1.1 + 0.5 < overflow_threshold)%Q) by reflexivity.
    destruct (proj1 (snapToGrid_any_unit (toggleSnap initial) 0.5 1.1 (-1) Hs)
                eq_refl Hpow Hdiv Hmul) as (k & Hk & Hnear & _).
    exists k. split; [exact Hk | exact Hnear].
  - assert (Hs : snapSize (updateSnapSize (VStr "-2") (toggleSnap initial)) = Fin (-2))
      by (vm_compute; reflexivity).
    apply (proj2 (snapToGrid_any_unit _ (-2) 1 0 Hs)). vm_compute. discriminate.
Defined.

(** ** The snap settings *)

Lemma heap_only_settings f s : heap_only f -> snap_settings (f s) = snap_settings s.
Proof. intros H. rewrite H. reflexivity. Qed.

Lemma settings_selectObject obj addToSelection s :
  snap_settings (selectObject obj addToSelection s) = snap_settings s.
Proof. rewrite selectObject_eq. reflexivity. Qed.

Lemma settings_set_objects a s : snap_settings (set_objects a s) = snap_settings s.
Proof. reflexivity. Qed.
Lemma settings_set_objectCounter a s : snap_settings (set_objectCounter a s) = snap_settings s.
Proof. reflexivity. Qed.
Lemma settings_set_selectedObjects a s :
  snap_settings (set_selectedObjects a s) = snap_settings s.
Proof. reflexivity. Qed.
Lemma settings_set_selectedObject a s :
  snap_settings (set_selectedObject a s) = snap_settings s.
Proof. reflexivity. Qed.
Lemma settings_set_attached a s : snap_settings (set_attached a s) = snap_settings s.
Proof. reflexivity. Qed.
Lemma settings_set_undoStack a s : snap_settings (set_undoStack a s) = snap_settings s.
Proof. reflexivity. Qed.
Lemma settings_set_alerts a s : snap_settings (set_alerts a s) = snap_settings s.
Proof. reflexivity. Qed.
Lemma settings_saveUndoState s : snap_settings (saveUndoState s) = snap_settings s.
Proof. reflexivity. Qed.

Lemma settings_scene_remove m s : snap_settings (scene_remove m s) = snap_settings s.
Proof. reflexivity. Qed.

Ltac settings_norm :=
  repeat first
    [ rewrite settings_set_objects | rewrite settings_set_objectCounter
    | rewrite settings_set_selectedObjects | rewrite settings_set_selectedObject
    | rewrite settings_set_attached | rewrite settings_set_undoStack
    | rewrite settings_set_alerts | rewrite settings_scene_remove
    | rewrite settings_selectObject | rewrite settings_saveUndoState ].

Lemma settings_forEach_remove l s :
  snap_settings (forEach (fun obj st => scene_remove (mesh (record_of st obj)) st) l s)
  = snap_settings s.
Proof.
  apply (heap_only_settings (forEach _ l)), heap_only_forEach. intros o.
  apply (heap_only_scene_remove (fun st => mesh (record_of st o))).
Qed.

Lemma settings_step w op s :
  op <> ToggleSnap -> (forall size, op <> UpdateSnapSize size) ->
  snap_settings (step w op s) = snap_settings s.
Proof.
  intros Ht Hu.
  destruct op as [type|obj a|[obj|]| | |[obj|]|[obj|]|property v| |[r|]|[|]| |size];
    cbn [step]; try reflexivity.
  - rewrite addPrimitive_eq. cbv zeta. settings_norm.
    unfold add_built. destruct (primitive_of type). destruct_state s. reflexivity.
  - apply settings_selectObject.
  - unfold deleteObject. settings_norm.
    destruct (selectedObject (saveUndoState s)); [destruct (same_id _ _ _)|];
      settings_norm; reflexivity.
  - unfold deleteSelectedObjects. destruct (selectedObjects s) as [|a l]; [reflexivity|].
    settings_norm. rewrite settings_forEach_remove. reflexivity.
  - unfold selectAllObjects. rewrite forEach_setEmissive.
    destruct (last (objects s)); reflexivity.
  - rewrite duplicateObject_eq. cbv zeta. settings_norm.
    unfold duplicate_built. destruct_state s. reflexivity.
  - unfold updateObjectProperty. destruct (selectedObject s) as [sel|]; [|reflexivity].
    set (f := switch _ property _).
    assert (Hh : heap_only f) by (subst f; apply heap_only_updates).
    clearbody f. rewrite <- (heap_only_settings f s Hh). reflexivity.
  - unfold undo. destruct (last (undoStack s)) as [p|]; [|reflexivity].
    set (s2 := forEach _ (objects s) _).
    pose proof (heap_only_rehydrate p s2) as Hh. cbv beta in Hh.
    destruct (rehydrate p s2) as [newObjects s3]. cbn [snd] in Hh.
    settings_norm. rewrite Hh.
    transitivity (snap_settings s2); [reflexivity|].
    subst s2. rewrite settings_forEach_remove. reflexivity.
  - unfold importModel. destruct r as [mats children|]; [|reflexivity].
    destruct (foldl _ _ children) as [newObjects s'] eqn:E.
    assert (Hs' : snap_settings s' = snap_settings s).
    { pose proof (heap_only_import w (next (saveUndoState s))
                    (objectCounter (alloc_materials mats (saveUndoState s)))
                    children ([], alloc_materials mats (saveUndoState s))) as H.
      rewrite E in H. cbn [snd] in H. rewrite H.
      transitivity (snap_settings (alloc_materials mats (saveUndoState s))); [reflexivity|].
      rewrite (heap_only_settings _ _ (heap_only_alloc_materials mats)). reflexivity. }
    destruct newObjects; settings_norm; exact Hs'.
  - unfold clearScene. settings_norm. rewrite settings_forEach_remove.
    reflexivity.
  - contradiction.
  - by destruct (Hu size).
Qed.

Lemma snap_consistent_settings s s' :
  snap_settings s' = snap_settings s -> snap_consistent s -> snap_consistent s'.
Proof.
  unfold snap_settings, snap_consistent. intros [= -> -> -> -> ->]. auto.
Qed.

(** X14. The gizmo and the toolbar agree on snapping throughout a
    session: whatever the handlers do, the gizmo snaps exactly when
    [snapEnabled] is set, translation by the unit in [snapSize],
    rotation by 15 degrees and scale by 0.1, and the unit is never 0
    or NaN, since [updateSnapSize] falls back to 0.5 on such input. *)
Theorem snap_settings_stay_consistent (w : World) (ops : list Op) (s : State) :
  snap_consistent s -> snap_consistent (run w ops s).
Proof.
  revert s. induction ops as [|op ops IH]; intros s Hs; [exact Hs|].
  rewrite run_cons. apply IH.
  destruct op as [type|obj a|obj| | |obj|obj|property v| |r|c| |size];
    try (apply (snap_consistent_settings s);
         [apply settings_step; [discriminate | discriminate] | exact Hs]).
  - destruct Hs as (_ & _ & _ & Hsize). unfold snap_consistent, step, toggleSnap.
    cbn [translationSnap rotationSnap scaleSnap snapEnabled snapSize set_translationSnap
         set_rotationSnap set_scaleSnap set_snapEnabled].
    destruct (snapEnabled s); cbn [negb]; repeat apply conj; auto.
  - destruct Hs as (Htr & Hr & Hsc & _). unfold snap_consistent, step, updateSnapSize.
    cbn [snapEnabled set_snapSize].
    assert (Hnz : truthy_num (or_num (parseFloat size) (Fin 0.5)) = true)
      by (by apply or_num_truthy).
    destruct (snapEnabled s) eqn:E;
      cbn [translationSnap rotationSnap scaleSnap snapEnabled snapSize set_translationSnap
           set_snapSize]; rewrite ?E; repeat apply conj; auto.
Qed.

Lemma snap_settings_stay_consistent_witness :
  snap_consistent
    (run demo_world
       [ToggleSnap; AddPrimitive "cube"; UpdateSnapSize (VStr "abc"); Undo] initial).
Proof.
  apply (snap_settings_stay_consistent demo_world
           [ToggleSnap; AddPrimitive "cube"; UpdateSnapSize (VStr "abc"); Undo] initial).
  repeat split.
Defined.

(** ** clearScene *)

Lemma clearScene_eq s :
  clearScene true s
  = set_attached None
      (set_selectedObject None
         (set_objects []
            (set_scene
               (scene (forEach (fun obj st => scene_remove (mesh (record_of st obj)) st)
                         (objects s) (saveUndoState s)))
               (saveUndoState s)))).
Proof.
  unfold clearScene. rewrite forEach_scene_remove. reflexivity.
Qed.

(** X15. [clearScene] does nothing when the confirmation is declined.
    When it is given, a snapshot is pushed, the registry is emptied,
    the mesh of every registered object leaves the scene while
    everything else in the scene stays, the primary object is cleared
    and the gizmo detached; [selectedObjects] is not reset, so a
    selection that was not empty is left without primary object and
    gizmo. *)
Theorem clearScene_empties (s : State) :
  clearScene false s = s
  /\ objects (clearScene true s) = []
  /\ (forall m, m ∈ scene (clearScene true s)
        <-> m ∈ scene s /\ m ∉ map (fun o => mesh (record_of s o)) (objects s))
  /\ selectedObject (clearScene true s) = None
  /\ attached (clearScene true s) = None
  /\ selectedObjects (clearScene true s) = selectedObjects s
  /\ undoStack (clearScene true s) = push_undo (capture_all s) (undoStack s)
  /\ (selectedObjects s <> [] -> ~ selection_invariant (clearScene true s)).
Proof.
  split; [reflexivity|]. rewrite clearScene_eq.
  cbn [objects scene selectedObject attached selectedObjects undoStack set_attached
       set_selectedObject set_objects set_scene saveUndoState set_undoStack].
  repeat apply conj; try reflexivity.
  - intros m. rewrite scene_forEach_remove. reflexivity.
  - intros Hne [_ Hgizmo].
    cbn [objects scene selectedObject attached selectedObjects undoStack set_attached
         set_selectedObject set_objects set_scene saveUndoState set_undoStack] in Hgizmo.
    destruct (proj2 Hgizmo Hne) as [x Hx]. discriminate Hx.
Qed.

Lemma clearScene_empties_witness :
  ~ selection_invariant (clearScene true demo_pair_selected).
Proof.
  apply (clearScene_empties demo_pair_selected). vm_compute. discriminate.
Defined.

(** ** toggleVisibility *)

Lemma toggleVisibility_eq o s :
  toggleVisibility (Some o) s
  = set_meshes
      (<[mesh (record_of s o) :=
           Three.set_visible (negb (Three.visible (mesh_of s o))) (mesh_of s o)]> (meshes s)) s.
Proof. reflexivity. Qed.

(** X16. [toggleVisibility] flips the [visible] flag of the object's
    mesh and nothing else: the other fields of that mesh, every other
    mesh, the records, materials, registry, selection and undo stack
    are as before; toggling twice gives every mesh back as it was. *)
Theorem toggleVisibility_flips (s : State) (o : nat) :
  let s1 := toggleVisibility (Some o) s in
  let s2 := toggleVisibility (Some o) s1 in
  mesh_of s1 o = Three.set_visible (negb (Three.visible (mesh_of s o))) (mesh_of s o)
  /\ (forall m, m <> mesh (record_of s o) -> meshes s1 !!! m = meshes s !!! m)
  /\ set_meshes (meshes s) s1 = s
  /\ (forall m, meshes s2 !!! m = meshes s !!! m)
  /\ set_meshes (meshes s) s2 = s
  /\ toggleVisibility None s = s.
Proof.
  cbv zeta. rewrite !toggleVisibility_eq. unfold mesh_of, record_of.
  cbn [records meshes set_meshes]. rewrite !lookup_total_insert_eq.
  repeat apply conj.
  - reflexivity.
  - intros m Hm. by rewrite lookup_total_insert_ne.
  - by destruct s.
  - intros m. rewrite insert_insert_eq.
    destruct (decide (m = mesh (records s !!! o))) as [->|Hne].
    + rewrite lookup_total_insert_eq. by destruct (meshes s !!! _) as [? ? ? ? ? []].
    + by rewrite lookup_total_insert_ne.
  - by destruct s.
  - reflexivity.
Qed.

Lemma toggleVisibility_flips_witness :
  Three.visible (mesh_of (toggleVisibility (Some 2) demo_cube) 2) = false
  /\ meshes (toggleVisibility (Some 2) demo_cube) !!! 0 = meshes demo_cube !!! 0.
Proof.
  destruct (toggleVisibility_flips demo_cube 2) as (H1 & H2 & _).
  cbv zeta in H1, H2. split.
  - rewrite H1. vm_compute. reflexivity.
  - apply H2. vm_compute. discriminate.
Defined.

(** ** createParametricGeometry *)

Lemma length_flat_map_const {A B} (f : A -> list B) (l : list A) n :
  (forall a, length (f a) = n) -> length (flat_map f l) = length l * n.
Proof.
  intros Hf. induction l as [|a l IH]; [reflexivity|].
  cbn [flat_map]. rewrite length_app, Hf, IH. cbn [length]. lia.
Qed.

Lemma Forall_flat_map_seq {B} (P : B -> Prop) (f : nat -> list B) n :
  (forall i, i < n -> Forall P (f i)) -> Forall P (flat_map f (seq 0 n)).
Proof.
  intros Hf. apply Forall_flat_map, Forall_forall. intros i Hi.
  apply elem_of_seq in Hi. apply Hf. lia.
Qed.

(** X17. [createParametricGeometry] pushes
    [(stacks + 1) * (slices + 1)] vertices and as many uv pairs, and
    [6 * stacks * slices] indices, every one of which is the index of a
    vertex that was pushed; with at least one slice and one stack each
    uv coordinate is a number between 0 and 1. *)
Theorem parametric_buffers (func : num -> num -> Three.Vector3) (slices stacks : nat) :
  length (parametric_vertices func slices stacks) = (stacks + 1) * (slices + 1)
  /\ length (parametric_uvs slices stacks) = (stacks + 1) * (slices + 1)
  /\ length (parametric_indices slices stacks) = 6 * stacks * slices
  /\ Forall (fun i => i < length (parametric_vertices func slices stacks))
       (parametric_indices slices stacks)
  /\ (0 < slices -> 0 < stacks ->
      Forall (fun uv => exists a b : Q,
                uv = (Fin a, Fin b) /\ (0 <= a <= 1)%Q /\ (0 <= b <= 1)%Q)
        (parametric_uvs slices stacks)).
Proof.
  assert (Hu : length (parametric_uvs slices stacks) = (stacks + 1) * (slices + 1)).
  { unfold parametric_uvs.
    rewrite (length_flat_map_const _ _ (slices + 1)).
    - rewrite length_seq. lia.
    - intros i. rewrite length_map, length_seq. lia. }
  assert (Hv : length (parametric_vertices func slices stacks) = (stacks + 1) * (slices + 1)).
  { unfold parametric_vertices. by rewrite length_map. }
  split; [exact Hv|]. split; [exact Hu|]. split; [|split].
  - unfold parametric_indices.
    rewrite (length_flat_map_const _ _ (slices * 6)).
    + rewrite length_seq. lia.
    + intros i. rewrite (length_flat_map_const _ _ 6); [by rewrite length_seq | reflexivity].
  - rewrite Hv. unfold parametric_indices. cbv zeta.
    apply Forall_flat_map_seq. intros i Hi.
    apply Forall_flat_map_seq. intros j Hj.
    repeat (apply Forall_cons; split; [nia|]). apply Forall_nil. exact I.
  - intros Hsl Hst. unfold parametric_uvs.
    apply Forall_flat_map_seq. intros i Hi.
    apply Forall_forall. intros uv Huv.
    apply list_elem_of_In, in_map_iff in Huv as (j & <- & Hj). apply in_seq in Hj.
    assert (Hdiv : forall a b : nat, a <= b -> 0 < b ->
              exists q : Q, Js.div (num_of_nat a) (num_of_nat b) = Fin q /\ (0 <= q <= 1)%Q).
    { intros a b Hab Hb. exists (inject_Z (Z.of_nat a) / inject_Z (Z.of_nat b))%Q.
      unfold Js.div, num_of_nat, Qzero. cbn [Qnum inject_Z].
      destruct (Z.eqb_spec (Z.of_nat b) 0) as [E|_]; [lia|].
      assert (Hb' : (0 < inject_Z (Z.of_nat b))%Q).
      { change 0%Q with (inject_Z 0). rewrite <- Zlt_Qlt. lia. }
      assert (Ha' : (0 <= inject_Z (Z.of_nat a))%Q).
      { change 0%Q with (inject_Z 0). rewrite <- Zle_Qle. lia. }
      assert (Hab' : (inject_Z (Z.of_nat a) <= inject_Z (Z.of_nat b))%Q).
      { rewrite <- Zle_Qle. lia. }
      assert (Hq : (0 <= inject_Z (Z.of_nat a) / inject_Z (Z.of_nat b) <= 1)%Q).
      { split.
        - apply Qle_shift_div_l; [exact Hb' | lra].
        - apply Qle_shift_div_r; [exact Hb' | lra]. }
      split; [|exact Hq]. apply finite_small.
      pose proof overflow_threshold_large. apply Qabs_Qlt_condition. split; lra. }
    destruct (Hdiv j slices ltac:(lia) Hsl) as (a & Ea & Ha).
    destruct (Hdiv i stacks ltac:(lia) Hst) as (b & Eb & Hb).
    exists a, b. rewrite Ea, Eb. auto.
Qed.

Lemma parametric_buffers_witness :
  Forall (fun uv => exists a b : Q,
            uv = (Fin a, Fin b) /\ (0 <= a <= 1)%Q /\ (0 <= b <= 1)%Q)
    (parametric_uvs 2 1).
Proof.
  apply (parametric_buffers (fun _ _ => Three.mkVector3 (Fin 0) (Fin 0) (Fin 0)) 2 1); lia.
Defined.

(** ** The lights *)

Lemma map_filter_agree {A B} (f : A -> B) (p : A -> bool) (q : B -> bool) (l : list A) :
  (forall a, a ∈ l -> p a = q (f a)) -> map f (List.filter p l) = List.filter q (map f l).
Proof.
  induction l as [|a l IH]; intros H; [reflexivity|].
  cbn [List.filter map]. rewrite <- (H a) by constructor.
  rewrite <- IH by (intros b Hb; apply H; by constructor).
  by destruct (p a).
Qed.

Lemma NoDup_map_inj {A B} (f : A -> B) (l : list A) x y :
  NoDup (map f l) -> x ∈ l -> y ∈ l -> f x = f y -> x = y.
Proof.
  induction l as [|a l IH]; intros Hnd Hx Hy Hf; [by apply elem_of_nil in Hx|].
  cbn [map] in Hnd. apply NoDup_cons in Hnd as [Ha Hnd].
  apply elem_of_cons in Hx as [->|Hx], Hy as [->|Hy]; [reflexivity| | |by apply IH].
  - exfalso. apply Ha. rewrite Hf. apply list_elem_of_In, in_map, list_elem_of_In, Hy.
  - exfalso. apply Ha. rewrite <- Hf. apply list_elem_of_In, in_map, list_elem_of_In, Hx.
Qed.

Lemma Forall_List_filter {A} (P : A -> Prop) (p : A -> bool) (l : list A) :
  Forall P l -> Forall P (List.filter p l).
Proof.
  rewrite !Forall_forall. intros H x Hx. apply H.
  apply list_elem_of_In, filter_In in Hx as [Hx _]. by apply list_elem_of_In.
Qed.

Lemma filter_all {A} (p : A -> bool) (l : list A) :
  (forall a, a ∈ l -> p a = true) -> List.filter p l = l.
Proof.
  induction l as [|a l IH]; intros H; [reflexivity|].
  cbn [List.filter]. rewrite (H a) by constructor. f_equal. apply IH.
  intros b Hb. apply H. by constructor.
Qed.

Lemma update_light_keeps w property v e :
  light_id (update_light w property v e) = light_id e
  /\ light_loc (update_light w property v e) = light_loc e.
Proof.
  unfold update_light.
  apply (switch_ind (fun r => light_id r = light_id e /\ light_loc r = light_loc e));
    [by split|].
  repeat (apply List.Forall_cons; [intros _; by split|]). apply List.Forall_nil.
Qed.

Lemma light_id_inj (n m : N) : "light_" +:+ pretty n = "light_" +:+ pretty m -> n = m.
Proof.
  cbn [String.append]. intros H. injection H as H.
  change (pretty n = pretty m) in H. by apply (inj pretty) in H.
Qed.

Lemma lights_ok_mono seen seen' l :
  seen ⊆ seen' -> lights_ok seen l -> lights_ok seen' l.
Proof.
  intros Hsub (H1 & H2 & H3 & H4 & H5). repeat apply conj; try assumption.
  eapply Forall_impl; [exact H5|]. intros e (n & Hn & He). exists n. split; [by apply Hsub | exact He].
Qed.

Lemma lights_ok_updateLight w id property v seen l :
  lights_ok seen l -> lights_ok seen (updateLight w id property v l).
Proof.
  intros (H1 & H2 & H3 & H4 & H5).
  set (f := fun e => if String.eqb (light_id e) id then update_light w property v e else e).
  assert (Hid : forall e, light_id (f e) = light_id e).
  { intros e. unfold f. destruct (String.eqb _ _); [apply update_light_keeps | reflexivity]. }
  assert (Hloc : forall e, light_loc (f e) = light_loc e).
  { intros e. unfold f. destruct (String.eqb _ _); [apply update_light_keeps | reflexivity]. }
  assert (Eloc : map light_loc (map f (lights l)) = map light_loc (lights l)).
  { rewrite map_map. apply map_ext, Hloc. }
  assert (Eid : map light_id (map f (lights l)) = map light_id (lights l)).
  { rewrite map_map. apply map_ext, Hid. }
  unfold lights_ok, lights_in_scene, updateLight. cbn [lights lit next_light]. fold f.
  rewrite Eloc, Eid. repeat apply conj; try assumption.
  - apply Forall_forall. intros e He. apply list_elem_of_In, in_map_iff in He as (e0 & <- & He0).
    rewrite Hloc. rewrite Forall_forall in H3. apply H3. by apply list_elem_of_In.
  - apply Forall_forall. intros e He. apply list_elem_of_In, in_map_iff in He as (e0 & <- & He0).
    rewrite Hid. rewrite Forall_forall in H5. apply H5. by apply list_elem_of_In.
Qed.

Lemma lights_ok_deleteLight id seen l :
  lights_ok seen l -> lights_ok seen (deleteLight id l).
Proof.
  intros (H1 & H2 & H3 & H4 & H5).
  assert (Hsub : sublist (List.filter (fun e => negb (String.eqb (light_id e) id)) (lights l))
                   (lights l)) by apply sublist_List_filter.
  unfold lights_ok, lights_in_scene, deleteLight. cbn [lights lit next_light].
  split; [|repeat apply conj].
  - destruct (List.find _ (lights l)) as [e0|] eqn:Efind.
    + apply find_some in Efind as [Hin0 Hid0]. apply String.eqb_eq in Hid0.
      apply list_elem_of_In in Hin0.
      rewrite H1. symmetry. apply map_filter_agree. intros e He. f_equal.
      destruct (String.eqb_spec (light_id e) id) as [Heq|Hne].
      * assert (e = e0) as -> by (apply (NoDup_map_inj light_id (lights l)); congruence).
        symmetry. apply Nat.eqb_refl.
      * symmetry. apply Nat.eqb_neq. intros Hloc. apply Hne.
        assert (e = e0) as -> by (by apply (NoDup_map_inj light_loc (lights l))).
        exact Hid0.
    + rewrite filter_all; [exact H1|]. intros e He.
      destruct (String.eqb_spec (light_id e) id) as [Heq|Hne]; [|reflexivity].
      exfalso. apply list_elem_of_In in He.
      pose proof (find_none _ _ Efind e He) as Hf. cbv beta in Hf.
      apply String.eqb_eq in Heq. congruence.
  - eapply sublist_NoDup; [exact H2|]. by apply sublist_map.
  - by apply Forall_List_filter.
  - eapply sublist_NoDup; [exact H4|]. by apply sublist_map.
  - by apply Forall_List_filter.
Qed.

Lemma lights_ok_addLight now type seen l :
  now ∉ seen -> lights_ok seen l ->
  lights_ok (seen ++ match new_light type with Some _ => [now] | None => [] end)
    (addLight now type l).
Proof.
  intros Hnew Hok. unfold addLight. destruct (new_light type) as [[i p]|].
  - pose proof Hok as (_ & _ & _ & _ & Hseen).
    apply (lights_ok_mono seen (seen ++ [now]) l) in Hok as (H1 & H2 & H3 & H4 & H5);
      [|intros x Hx; apply elem_of_app; by left].
    unfold lights_ok, lights_in_scene. cbn [lights lit next_light].
    rewrite !map_app. cbn [map light_loc light_id].
    repeat apply conj.
    + by rewrite H1.
    + apply NoDup_app. split; [exact H2|]. split; [|apply NoDup_singleton].
      intros x Hx Hx'. apply list_elem_of_singleton in Hx'. subst x.
      apply list_elem_of_In, in_map_iff in Hx as (e & He & Hin).
      rewrite Forall_forall in H3. apply list_elem_of_In in Hin. specialize (H3 e Hin). lia.
    + apply Forall_app. split.
      * eapply Forall_impl; [exact H3|]. intros e He. cbv beta in *. lia.
      * apply Forall_singleton. cbn [light_loc]. lia.
    + apply NoDup_app. split; [exact H4|]. split; [|apply NoDup_singleton].
      intros x Hx Hx'. apply list_elem_of_singleton in Hx'. subst x.
      apply list_elem_of_In, in_map_iff in Hx as (e & He & Hin).
      rewrite Forall_forall in Hseen. apply list_elem_of_In in Hin.
      destruct (Hseen e Hin) as (n & Hn & Hid). rewrite Hid in He.
      apply light_id_inj in He. subst n. by apply Hnew.
    + apply Forall_app. split; [exact H5|]. apply Forall_singleton.
      exists now. split; [apply elem_of_app; right; constructor | reflexivity].
  - by rewrite app_nil_r.
Qed.

Lemma lights_ok_run w ops seen l :
  NoDup (seen ++ light_clock ops) -> lights_ok seen l ->
  lights_ok (seen ++ light_clock ops) (light_run w ops l).
Proof.
  revert seen l. induction ops as [|op ops IH]; intros seen l Hnd Hok.
  - cbn [light_clock flat_map]. by rewrite app_nil_r.
  - change (light_run w (op :: ops) l) with (light_run w ops (light_step w op l)).
    change (light_clock (op :: ops))
      with (match op with
            | AddLight now type => match new_light type with Some _ => [now] | None => [] end
            | _ => []
            end ++ light_clock ops) in *.
    rewrite app_assoc in *. apply IH; [exact Hnd|].
    destruct op as [now type|id property v|id]; cbn [light_step].
    + destruct (new_light type) as [r|] eqn:E.
      * pose proof (lights_ok_addLight now type seen l) as H. rewrite E in H. apply H; [|exact Hok].
        apply NoDup_app in Hnd as (Hnd & _ & _). apply NoDup_app in Hnd as (_ & Hdis & _).
        intros Hin. apply (Hdis now Hin). constructor.
      * pose proof (lights_ok_addLight now type seen l) as H. rewrite E in H.
        rewrite app_nil_r in H. rewrite app_nil_r. unfold addLight in *. rewrite E in *.
        exact Hok.
    + rewrite app_nil_r. by apply lights_ok_updateLight.
    + rewrite app_nil_r. by apply lights_ok_deleteLight.
Qed.

(** X18. As long as no two lights are added at the same clock reading,
    the scene holds exactly the lights of the [lights] list, in the
    same order, after any sequence of [addLight], [updateLight] and
    [deleteLight]. When two lights were added at the same reading they
    share an id, and deleting by that id drops both entries but removes
    only the first light from the scene. *)
Theorem lights_stay_in_scene (w : World) (ops : list LightOp) :
  (NoDup (light_clock ops) -> lights_in_scene (light_run w ops no_lights))
  /\ (forall now : N,
        let l := light_run w
                   [AddLight now "point"; AddLight now "spot";
                    DeleteLight ("light_" +:+ pretty now)] no_lights in
        lights l = [] /\ lit l = [1]).
Proof.
  split.
  - intros Hnd.
    apply (lights_ok_run w ops [] no_lights); [exact Hnd|].
    unfold lights_ok, lights_in_scene, no_lights. cbn [lights lit next_light map].
    repeat apply conj; try constructor.
  - intros now. cbv zeta. unfold light_run. cbn [foldl light_step].
    unfold addLight. cbn [new_light switch String.eqb Ascii.eqb Bool.eqb no_lights lights lit
                           next_light lightCounter app].
    unfold deleteLight. cbn [lights lit next_light List.filter List.find light_id light_loc].
    rewrite String.eqb_refl. cbn [negb light_loc List.filter Nat.eqb]. split; reflexivity.
Qed.

Lemma lights_stay_in_scene_witness :
  lights_in_scene
    (light_run demo_world
       [AddLight 10 "point"; AddLight 11 "lamp"; AddLight 12 "spot";
        UpdateLight "light_10" "intensity" (VStr "2"); DeleteLight "light_10"] no_lights).
Proof.
  apply (proj1 (lights_stay_in_scene demo_world _)). compute_done.
Defined.

(** ** What the lighting panel shows *)

(** X19. A new light's entry always shows intensity 1 and the position
    the light was given; the light itself has intensity 1 for a point
    or spot light but 0.5 for a directional one, so there the panel
    and the light disagree until the intensity is edited. An intensity
    edit writes [parseFloat] of the input to the entry and to the light
    alike, NaN included; every edit leaves the entry's position equal
    to the light's when it was so before; and an edit of a property
    that is no case of the switch changes nothing. *)
Theorem lighting_panel_and_light (w : World) (now : N) (type : string) (l : Lighting)
    (e : Light) (v : value) :
  (forall i p, new_light type = Some (i, p) ->
     exists n, last (lights (addLight now type l)) = Some n
       /\ intensity n = Fin 1 /\ light_intensity n = i
       /\ position n = p /\ light_position n = p
       /\ light_name n = type +:+ "_" +:+ pretty (lightCounter l)
       /\ (light_intensity n = intensity n <-> type <> "directional"))
  /\ (new_light type = None -> addLight now type l = l)
  /\ intensity (update_light w "intensity" v e) = parseFloat v
  /\ light_intensity (update_light w "intensity" v e) = parseFloat v
  /\ (position e = light_position e ->
      forall property,
        position (update_light w property v e) = light_position (update_light w property v e))
  /\ (forall property,
        property ∉ ["color"; "intensity"; "positionX"; "positionY"; "positionZ"] ->
        update_light w property v e = e).
Proof.
  split; [|split; [|split; [|split; [|split]]]].
  - intros i p Hnew. unfold addLight. rewrite Hnew. cbn [lights]. eexists.
    split; [apply last_snoc|]. cbn [intensity light_intensity position light_position light_name].
    do 5 (split; [reflexivity|]).
    unfold new_light in Hnew.
    destruct (String.eqb_spec type "directional") as [->|Hne].
    + cbn in Hnew. injection Hnew as <- <-. split; [discriminate | congruence].
    + split; [intros _; exact Hne | intros _].
      cbn [switch] in Hnew.
      destruct (String.eqb type "point"); [by injection Hnew as <- _|].
      destruct (String.eqb type "spot"); [by injection Hnew as <- _|].
      destruct (String.eqb_spec type "directional"); [contradiction | discriminate].
  - intros Hnew. unfold addLight. by rewrite Hnew.
  - reflexivity.
  - reflexivity.
  - intros Hpos property. unfold update_light.
    apply (switch_ind (fun r => position r = light_position r)); [exact Hpos|].
    repeat (apply List.Forall_cons;
            [intros _; cbn [fst snd position light_position]; by rewrite ?Hpos|]).
    apply List.Forall_nil.
  - intros property Hnot. unfold update_light. apply switch_default. exact Hnot.
Qed.

Lemma lighting_panel_and_light_witness :
  exists n, last (lights (addLight 7 "directional" no_lights)) = Some n
    /\ intensity n = Fin 1 /\ light_intensity n = Fin 0.5.
Proof.
  destruct (proj1 (lighting_panel_and_light demo_world 7 "directional" no_lights
                     (mkLight "" "" "" (VStr "") NaN (Three.mkVector3 NaN NaN NaN) 0 0 NaN
                        (Three.mkVector3 NaN NaN NaN)) (VStr ""))
              (Fin 0.5) (Three.mkVector3 (Fin 5) (Fin 10) (Fin 5)) eq_refl)
    as (n & Hn & Hi & Hl & _).
  exists n. auto.
Defined.

(** ** Where addPrimitive puts the new object *)

Lemma add_built_heap w type s :
  meshes (add_built w type s) !!! S (next s)
  = Three.mkMesh (primitive_of type).1 (next s)
      (Three.mkVector3 (Fin 0) (if String.eqb type "plane" then Fin 0.01 else Fin 0.5) (Fin 0))
      (if String.eqb type "plane"
       then Three.mkEuler (Three.Degrees (Fin (-90))) (Three.Degrees (Fin 0))
              (Three.Degrees (Fin 0))
       else Three.mkEuler (Three.Degrees (Fin 0)) (Three.Degrees (Fin 0))
              (Three.Degrees (Fin 0)))
      (Three.mkVector3 (Fin 1) (Fin 1) (Fin 1)) true true true
      (Some (generateId w (calls s)))
  /\ materials (add_built w type s)
     = <[next s :=
           Three.mkMaterial (random_colour w (calls s)) (Fin 0.3) (Fin 0.7) true (Fin 1)
             0x000000 (Fin 0) (VBool false)]> (materials s)
  /\ undoStack (add_built w type s) = push_undo (capture_all s) (undoStack s).
Proof.
  unfold add_built, capture_all. destruct (primitive_of type). destruct_state s. state_norm.
  rewrite !lookup_total_insert_eq.
  destruct (String.eqb type "plane"); repeat apply conj; reflexivity.
Qed.

Lemma heap_set_counter_objects c objs b :
  meshes (set_objectCounter c (set_objects objs b)) = meshes b
  /\ materials (set_objectCounter c (set_objects objs b)) = materials b
  /\ undoStack (set_objectCounter c (set_objects objs b)) = undoStack b.
Proof. repeat apply conj; reflexivity. Qed.

Lemma materials_selectObject_single o b :
  materials (selectObject (Some o) false b)
  = paint 0x333333 [mat_loc b o]
      (paint 0x000000 (map (mat_loc b) (objects b)) (materials b)).
Proof. rewrite selectObject_single. reflexivity. Qed.

Lemma addPrimitive_selected w type s :
  meshes (addPrimitive w type s) = meshes (add_built w type s)
  /\ materials (addPrimitive w type s)
     = paint 0x333333 [next s]
         (paint 0x000000 (map (mat_loc (add_built w type s)) (objects s))
            (materials (add_built w type s)))
  /\ undoStack (addPrimitive w type s) = undoStack (add_built w type s).
Proof.
  rewrite addPrimitive_eq. cbv zeta.
  match goal with
  | |- context [set_objectCounter ?c (set_objects ?objs ?b)] =>
      destruct (heap_set_counter_objects c objs b) as (-> & -> & ->)
  end.
  destruct (add_built_store w type s) as (Hrec & _ & _ & Hobj & _).
  destruct (add_built_heap w type s) as (Hmesh & _).
  split; [apply (selectObject_store (Some (S (S (next s)))) false (add_built w type s))|].
  split; [|apply undoStack_selectObject].
  rewrite materials_selectObject_single.
  unfold mat_loc at 1, mesh_of, record_of. rewrite Hrec, lookup_total_insert_eq. cbn [mesh].
  rewrite Hmesh, Hobj. reflexivity.
Qed.

(** X20. [addPrimitive] pushes a snapshot and appends one object, which
    becomes the whole selection. Its mesh has the geometry of the
    shape switch, unit scale, is visible and casts and receives
    shadows; a plane lies at height 0.01 turned by -90 degrees about x,
    every other kind stands at height 0.5 unrotated. The material has
    the drawn colour, metalness 0.3, roughness 0.7 and the selection
    highlight as emissive colour; the name is the prefix of the kind
    followed by the object counter, which then goes up by one. *)
Theorem addPrimitive_places (w : World) (kind : string) (s : State) :
  let s' := addPrimitive w kind s in
  let o := S (S (next s)) in
  objects s' = objects s ++ [o]
  /\ selectedObjects s' = [o] /\ selectedObject s' = Some o
  /\ attached s' = Some (mesh (record_of s' o))
  /\ name (record_of s' o) = VStr ((primitive_of kind).2 +:+ "_" +:+ pretty (objectCounter s))
  /\ objectCounter s' = S (objectCounter s)
  /\ mesh_of s' o
     = Three.mkMesh (primitive_of kind).1 (next s)
         (Three.mkVector3 (Fin 0) (if String.eqb kind "plane" then Fin 0.01 else Fin 0.5)
            (Fin 0))
         (Three.mkEuler (Three.Degrees (Fin (if String.eqb kind "plane" then -90 else 0)))
            (Three.Degrees (Fin 0)) (Three.Degrees (Fin 0)))
         (Three.mkVector3 (Fin 1) (Fin 1) (Fin 1)) true true true
         (Some (id (record_of s' o)))
  /\ material_of s' o
     = Three.mkMaterial (random_colour w (calls s)) (Fin 0.3) (Fin 0.7) true (Fin 1)
         0x333333 (Fin 0) (VBool false)
  /\ undoStack s' = push_undo (capture_all s) (undoStack s).
Proof.
  cbv zeta.
  destruct (addPrimitive_store w kind s)
    as (Hobj & Hrec & _ & _ & Hcnt & _ & _ & _ & Hprim & Hsel & Hatt).
  destruct (add_built_heap w kind s) as (Hmesh & Hmat & Hundo).
  destruct (addPrimitive_selected w kind s) as (Hm & Hmats & Hu).
  assert (Hr : record_of (addPrimitive w kind s) (S (S (next s)))
               = mkSceneObject (generateId w (calls s))
                   (VStr ((primitive_of kind).2 +:+ "_" +:+ pretty (objectCounter s)))
                   kind (S (next s))).
  { unfold record_of. rewrite Hrec. apply lookup_total_insert_eq. }
  assert (Hmo : mesh_of (addPrimitive w kind s) (S (S (next s)))
                = meshes (add_built w kind s) !!! S (next s)).
  { unfold mesh_of. rewrite Hr, Hm. reflexivity. }
  split; [exact Hobj|]. split; [exact Hsel|]. split; [exact Hprim|].
  split; [by rewrite Hr|]. split; [by rewrite Hr|]. split; [exact Hcnt|].
  split; [|split].
  - rewrite Hmo, Hmesh, Hr. cbn [id]. by destruct (String.eqb kind "plane").
  - unfold material_of. rewrite Hmo, Hmesh. cbn [Three.material]. rewrite Hmats, Hmat.
    cbn [paint foldl]. rewrite lookup_total_insert_eq, paint_lookup, lookup_total_insert_eq.
    by destruct (decide _).
  - by rewrite Hu.
Qed.

(** ** Deleting a selection that undo has left behind *)

Lemma rehydrate_scene l s :
  scene (rehydrate l s).2
  = scene s ++ map (fun o => mesh (records (rehydrate l s).2 !!! o)) (rehydrate l s).1.
Proof.
  revert s. induction l as [|sv l IH]; intros s; cbn [rehydrate].
  - cbn [fst snd map]. by rewrite app_nil_r.
  - pose proof (rehydrate_one_next sv s) as Hn.
    pose proof (rehydrate_agree l (rehydrate_one sv s).2) as Hag.
    pose proof (IH (rehydrate_one sv s).2) as Htl.
    rewrite Hn in Hag.
    assert (Hhd : mesh (records (rehydrate_one sv s).2 !!! S (S (next s))) = S (next s)
                  /\ scene (rehydrate_one sv s).2 = scene s ++ [S (next s)]
                  /\ (rehydrate_one sv s).1 = S (S (next s))).
    { rewrite rehydrate_one_eq.
      cbn [fst snd records scene set_next set_records set_scene set_meshes set_materials].
      rewrite lookup_total_insert_eq. repeat apply conj; reflexivity. }
    destruct Hhd as (Hr & Hsc & Ho).
    destruct (rehydrate_one sv s) as [o s1]. cbn [fst snd] in *. subst o.
    destruct (rehydrate l s1) as [os s2]. cbn [fst snd] in *.
    rewrite Htl, Hsc, <- app_assoc. cbn [map app]. do 2 f_equal.
    destruct (Hag (S (S (next s))) ltac:(lia)) as (-> & _ & _). by rewrite Hr.
Qed.

(** After [undo] the store below the old allocation pointer is as it
    was, and the scene holds what was left of it followed by the
    meshes of the rebuilt registry. *)
Lemma undo_store s p :
  last (undoStack s) = Some p ->
  agree_below (next s) s (undo s)
  /\ scene (undo s)
     = scene (forEach (fun obj st => scene_remove (mesh (record_of st obj)) st) (objects s) s)
       ++ map (fun o => mesh (record_of (undo s) o)) (objects (undo s)).
Proof.
  intros Hlast. unfold undo. rewrite Hlast.
  set (s1 := set_undoStack _ s).
  set (s2 := forEach _ (objects s) s1).
  assert (Hs2 : records s2 = records s /\ meshes s2 = meshes s /\ materials s2 = materials s
                /\ next s2 = next s
                /\ scene s2
                   = scene (forEach (fun obj st => scene_remove (mesh (record_of st obj)) st)
                              (objects s) s)).
  { subst s2. rewrite forEach_scene_remove. cbn [records meshes materials next scene set_scene].
    repeat apply conj; try reflexivity.
    assert (Hfr : forall l (a b : State), records a = records b -> scene a = scene b ->
              scene (forEach (fun obj st => scene_remove (mesh (record_of st obj)) st) l a)
              = scene (forEach (fun obj st => scene_remove (mesh (record_of st obj)) st) l b)).
    { unfold forEach. induction l as [|o l IHl]; intros a b Hr Hsc; cbn [foldl]; [exact Hsc|].
      apply IHl.
      - reflexivity || (unfold scene_remove; cbn [records set_scene]; exact Hr).
      - unfold scene_remove, record_of. cbn [scene set_scene]. by rewrite Hr, Hsc. }
    apply Hfr; reflexivity. }
  destruct Hs2 as (Hr2 & Hm2 & Ht2 & Hn2 & Hsc2).
  pose proof (rehydrate_agree p s2) as Hag. pose proof (rehydrate_scene p s2) as Hscene.
  destruct (rehydrate p s2) as [newObjects s3]. cbn [fst snd] in Hag, Hscene.
  rewrite Hn2 in Hag. split.
  - intros k Hk. destruct (Hag k Hk) as (H1 & H2 & H3).
    cbn [records meshes materials set_attached set_selectedObject set_objects].
    rewrite H1, H2, H3, Hr2, Hm2, Ht2. auto.
  - cbn [scene objects set_attached set_selectedObject set_objects]. unfold record_of.
    cbn [records set_attached set_selectedObject set_objects].
    by rewrite Hscene, Hsc2.
Qed.

Lemma undo_rebuilds_fresh s p :
  last (undoStack s) = Some p ->
  Forall (fun o => next s <= mesh (record_of (undo s) o)) (objects (undo s)).
Proof.
  intros Hlast. unfold undo. rewrite Hlast.
  set (s2 := forEach _ (objects s) _).
  assert (Hn : next s2 = next s).
  { subst s2. rewrite forEach_scene_remove. reflexivity. }
  pose proof (rehydrate_shape p s2) as Hsh. rewrite Hn in Hsh.
  destruct (rehydrate p s2) as [newObjects s3]. cbn [fst snd] in Hsh.
  cbn [objects set_attached set_selectedObject set_objects].
  apply Forall2_Forall_r with (P := fun (_ : Saved) o => next s <= mesh (records s3 !!! o))
                                (l := p).
  - eapply Forall2_impl; [exact Hsh|]. intros sv o (n & Hle & -> & Hr & _). rewrite Hr. lia.
  - apply Forall_forall. intros sv _ o Ho. exact Ho.
Qed.

Lemma deleteSelectedObjects_store s :
  selectedObjects s <> [] ->
  objects (deleteSelectedObjects s)
  = List.filter
      (fun o => negb (existsb (fun sel => same_id s sel o) (selectedObjects s))) (objects s)
  /\ (forall m, m ∈ scene (deleteSelectedObjects s)
        <-> m ∈ scene s /\ m ∉ map (fun o => mesh (record_of s o)) (selectedObjects s)).
Proof.
  intros Hne. unfold deleteSelectedObjects.
  destruct (selectedObjects s) as [|a l] eqn:E; [contradiction|].
  rewrite forEach_scene_remove.
  cbn [objects scene set_attached set_selectedObject set_selectedObjects set_objects set_scene
       saveUndoState set_undoStack].
  split; [reflexivity|]. intros m. apply (scene_forEach_remove (a :: l) (saveUndoState s) m).
Qed.

(** X21. [undo] leaves [selectedObjects] holding objects of the old
    registry. When that selection is then deleted, every rebuilt
    object that shares an id with one of them is dropped from the
    registry, but the meshes that leave the scene are the old ones,
    which are no longer there: the mesh of every rebuilt object stays
    in the scene, also of those that are no longer registered. *)
Theorem stale_selection_leaves_meshes (s : State) (p : list Saved) :
  last (undoStack s) = Some p ->
  selectedObjects s <> [] ->
  (forall sel, sel ∈ selectedObjects s -> sel < next s /\ mesh (record_of s sel) < next s) ->
  let s1 := undo s in
  let s2 := deleteSelectedObjects s1 in
  (forall o, o ∈ objects s2 <->
     o ∈ objects s1
     /\ forall sel, sel ∈ selectedObjects s -> id (record_of s sel) <> id (record_of s1 o))
  /\ (forall o, o ∈ objects s1 -> mesh (record_of s1 o) ∈ scene s2).
Proof.
  intros Hlast Hne Halloc. cbv zeta.
  destruct (undo_selection s p Hlast) as (Hsel & _).
  destruct (undo_store s p Hlast) as (Hag & Hscene).
  pose proof (undo_rebuilds_fresh s p Hlast) as Hfresh.
  assert (Hne1 : selectedObjects (undo s) <> []) by (by rewrite Hsel).
  destruct (deleteSelectedObjects_store (undo s) Hne1) as (Hobj & Hsc).
  assert (Hrec : forall sel, sel ∈ selectedObjects s -> record_of (undo s) sel = record_of s sel).
  { intros sel Hin. destruct (Halloc sel Hin) as [Hlt _].
    destruct (Hag sel Hlt) as (Hr & _). exact Hr. }
  split.
  - intros o. rewrite Hobj, elem_of_List_filter, negb_true_iff, Hsel. split.
    + intros [Ho Hex]. split; [exact Ho|]. intros sel Hin Hid.
      assert (Htrue : existsb (fun sel0 => same_id (undo s) sel0 o) (selectedObjects s) = true).
      { apply existsb_exists. exists sel. split; [by apply list_elem_of_In|].
        apply same_id_true. by rewrite Hrec. }
      congruence.
    + intros [Ho Hall]. split; [exact Ho|].
      destruct (existsb _ (selectedObjects s)) eqn:Hex; [|reflexivity].
      apply existsb_exists in Hex as (sel & Hin & Hid). apply list_elem_of_In in Hin.
      exfalso. apply (Hall sel Hin). apply same_id_true in Hid. by rewrite <- Hrec.
  - intros o Ho. apply Hsc. split.
    + rewrite Hscene. apply elem_of_app. right.
      apply list_elem_of_In, (in_map (fun o => mesh (record_of (undo s) o))), list_elem_of_In, Ho.
    + rewrite Hsel. intros Hin. apply list_elem_of_In, in_map_iff in Hin as (sel & Heq & Hin).
      apply list_elem_of_In in Hin. rewrite Hrec in Heq by exact Hin.
      destruct (Halloc sel Hin) as [_ Hlt].
      rewrite Forall_forall in Hfresh. specialize (Hfresh o Ho). lia.
Qed.

Lemma stale_selection_leaves_meshes_witness :
  8 ∈ objects (undo demo_stale)
  /\ (8 ∉ objects (deleteSelectedObjects (undo demo_stale)))
  /\ mesh (record_of (undo demo_stale) 8) ∈ scene (deleteSelectedObjects (undo demo_stale)).
Proof.
  assert (Hsel : selectedObjects demo_stale = [2]) by (vm_compute; reflexivity).
  assert (Hobj : objects (undo demo_stale) = [8; 11]) by (vm_compute; reflexivity).
  assert (Hlast : last (undoStack demo_stale) = Some (capture_all demo_pair_selected))
    by (vm_compute; reflexivity).
  assert (Hne : selectedObjects demo_stale <> []) by (rewrite Hsel; discriminate).
  assert (Halloc : forall sel, sel ∈ selectedObjects demo_stale ->
            sel < next demo_stale /\ mesh (record_of demo_stale sel) < next demo_stale).
  { rewrite Hsel. intros sel Hin. apply list_elem_of_singleton in Hin. subst sel.
    vm_compute. lia. }
  destruct (stale_selection_leaves_meshes demo_stale (capture_all demo_pair_selected)
              Hlast Hne Halloc) as [Hreg Hscene].
  cbv zeta in Hreg, Hscene.
  assert (H8 : 8 ∈ objects (undo demo_stale)) by (rewrite Hobj; constructor).
  split; [exact H8|]. split; [|by apply Hscene].
  intros Hin. apply Hreg in Hin as [_ Hall]. apply (Hall 2).
  - rewrite Hsel. constructor.
  - vm_compute. reflexivity.
Defined.

(** ** The names of imported objects *)

Lemma import_child_name w base counter child os s :
  isMesh child = true ->
  exists o,
    (import_child w base counter child (os, s)).1 = os ++ [o]
    /\ next s <= o /\ o < next (import_child w base counter child (os, s)).2
    /\ (forall p, p < next s ->
          records (import_child w base counter child (os, s)).2 !!! p = records s !!! p)
    /\ name (records (import_child w base counter child (os, s)).2 !!! o)
       = imported_name counter child.
Proof.
  intros Hmesh. unfold import_child, imported_name. rewrite Hmesh.
  destruct (child_material child) as [i|c]; destruct_state s; state_norm.
  - exists (S s_next). rewrite lookup_total_insert_eq.
    repeat apply conj; try reflexivity; try lia.
    intros p Hp. by rewrite lookup_total_insert_ne by lia.
  - exists (S (S s_next)). rewrite lookup_total_insert_eq.
    repeat apply conj; try reflexivity; try lia.
    intros p Hp. by rewrite lookup_total_insert_ne by lia.
Qed.

Lemma import_fold_names w base counter children os s :
  let r := foldl (fun acc child => import_child w base counter child acc) (os, s) children in
  exists new,
    r.1 = os ++ new
    /\ next s <= next r.2
    /\ Forall (fun o => next s <= o) new
    /\ (forall p, p < next s -> records r.2 !!! p = records s !!! p)
    /\ map (fun o => name (records r.2 !!! o)) new
       = map (imported_name counter) (List.filter isMesh children).
Proof.
  cbv zeta. revert os s. induction children as [|child children IH]; intros os s.
  - exists []. cbn [foldl fst snd List.filter map]. rewrite app_nil_r.
    repeat apply conj; auto.
  - cbn [foldl List.filter]. destruct (isMesh child) eqn:Hmesh.
    + destruct (import_child_name w base counter child os s Hmesh)
        as (o & H1 & Hlo & Hhi & Hrec & Hname).
      destruct (import_child w base counter child (os, s)) as [os1 s1].
      cbn [fst snd] in *. subst os1.
      destruct (IH (os ++ [o]) s1) as (new & N1 & Nnext & Nall & Nrec & Nname).
      exists (o :: new). cbn [map]. repeat apply conj.
      * rewrite N1. by rewrite <- app_assoc.
      * lia.
      * constructor; [lia|]. eapply Forall_impl; [exact Nall|]. cbn beta. intros; lia.
      * intros p Hp. rewrite Nrec by lia. by apply Hrec.
      * rewrite Nname. f_equal. rewrite Nrec by lia. exact Hname.
    + assert (Hc : import_child w base counter child (os, s) = (os, s)).
      { unfold import_child. by rewrite Hmesh. }
      rewrite Hc. apply IH.
Qed.

Lemma heap_only_objectCounter f s : heap_only f -> objectCounter (f s) = objectCounter s.
Proof. intros H. rewrite H. reflexivity. Qed.

(** X22. [importModel] names each new object after its node, and every
    node without a name [Imported_<n>] for the one value [n] the
    object counter had when the import began, so all unnamed nodes of
    a file get the same name. The counter then goes up by the number
    of new objects; the first new object, if there is one, becomes the
    whole selection, and otherwise the selection stays. *)
Theorem importModel_names (w : World) (s : State) (mats : list Three.Material)
    (children : list GltfChild) :
  let s' := importModel w (Some (Loaded mats children)) s in
  exists new,
    objects s' = objects s ++ new
    /\ map (fun o => name (record_of s' o)) new
       = map (imported_name (objectCounter s)) (List.filter isMesh children)
    /\ objectCounter s' = objectCounter s + length new
    /\ match new with
       | first :: _ => selectedObjects s' = [first] /\ selectedObject s' = Some first
       | [] => selectedObjects s' = selectedObjects s /\ selectedObject s' = selectedObject s
       end.
Proof.
  cbv zeta. unfold importModel.
  destruct (alloc_materials_store mats (saveUndoState s)) as (Ar & An & Ac & Ao & _ & Aa).
  assert (Acnt : objectCounter (alloc_materials mats (saveUndoState s)) = objectCounter s).
  { by rewrite (heap_only_objectCounter _ _ (heap_only_alloc_materials mats)). }
  rewrite Acnt.
  pose proof (import_fold_names w (next (saveUndoState s)) (objectCounter s) children []
                (alloc_materials mats (saveUndoState s))) as Hf.
  pose proof (import_fold_spec w (next (saveUndoState s)) (objectCounter s) children []
                (alloc_materials mats (saveUndoState s))) as Hg.
  pose proof (heap_only_import w (next (saveUndoState s)) (objectCounter s) children
                ([], alloc_materials mats (saveUndoState s))) as Hh.
  cbv zeta in Hf, Hg.
  destruct (foldl _ _ children) as [newObjects s2].
  cbn [fst snd] in Hf, Hg, Hh.
  destruct Hf as (new & -> & _ & _ & _ & Nname).
  destruct Hg as (new' & Hnew' & _ & _ & _ & _ & _ & _ & _ & Nobj).
  cbn [app] in *. clear new' Hnew'.
  assert (Hsel2 : selectedObjects s2 = selectedObjects s /\ selectedObject s2 = selectedObject s
                  /\ objectCounter s2 = objectCounter s).
  { rewrite Hh.
    cbn [selectedObjects selectedObject objectCounter with_heap set_records set_meshes
         set_materials set_next set_scene set_calls].
    pose proof (heap_only_alloc_materials mats (saveUndoState s)) as Hm. rewrite Hm.
    repeat apply conj; reflexivity. }
  destruct Hsel2 as (Hs2 & Hp2 & Hc2).
  exists new. destruct new as [|first rest].
  - cbn [objects objectCounter selectedObjects selectedObject set_objectCounter set_objects
         length].
    rewrite Nobj, Ao, Hs2, Hp2, Hc2. cbn [objects saveUndoState set_undoStack].
    repeat apply conj; try reflexivity; try lia; exact Nname.
  - destruct (selectObject_store (Some first) false s2) as (Hr & _ & _ & _ & Ho & _ & Hcnt & _).
    rewrite selectObject_single in *.
    cbn [objects objectCounter selectedObjects selectedObject records set_objectCounter
         set_objects set_selectedObjects set_selectedObject set_attached set_materials] in *.
    unfold record_of.
    cbn [records set_objectCounter set_objects set_selectedObjects set_selectedObject
         set_attached set_materials].
    rewrite Nobj, Ao, Hc2. cbn [objects saveUndoState set_undoStack].
    repeat apply conj; try reflexivity; try lia; exact Nname.
Qed.
